(** * mokapot/confidence.py: target-decoy competition and confidence tables

    A shallow embedding of [mokapot.confidence]: the pandas operations the
    module uses, the TDC grouping primitive [_groupby_max], the base class
    [Confidence] and its two pipelines [LinearConfidence] and
    [CrossLinkedConfidence].

    Conventions of the embedding.
    - A cell holds a scalar of a totally ordered domain.  The model takes
      [Z]: a NaN-free float64 score is read through an order-preserving
      fixed-point encoding, a key by its code, and a boolean label as 0/1
      (Python's [bool] is an [int]).
    - A column name is a Python string or a Python int (the score and the
      label columns are named by an int).
    - A DataFrame is its list of column names and its rows in order; a row
      carries its index label.  Labels need not be distinct, as in pandas.
    - A Python exception is an [Err] result.
    - Calls that leave the module ([qvalues.tdc], [qvalues.crosslink_tdc],
      [qvality.getQvaluesFromScores], [DataFrame.to_csv]) go through a
      record of externals and are logged with their arguments. *)

From Stdlib Require Import ZArith Bool String Ascii List Lia Permutation Sorted.
Import ListNotations.
Local Open Scope Z_scope.

(** ** Exceptions and results *)

Inductive exn : Type :=
| KeyError
| AttributeError
| ValueError
| IndexError
| TypeError
| ExternalError (code : Z).

Inductive result (A : Type) : Type :=
| Ok (a : A)
| Err (e : exn).
Arguments Ok {A} a.
Arguments Err {A} e.

Definition rbind {A B} (m : result A) (f : A -> result B) : result B :=
  match m with
  | Ok a => f a
  | Err e => Err e
  end.

Declare Scope result_scope.
Delimit Scope result_scope with result.
Notation "x <- m ;; k" := (rbind m (fun x => k))
  (at level 61, m at next level, right associativity) : result_scope.

(** ** Column names and frames *)

Inductive colname : Type :=
| CStr (s : string)
| CInt (n : Z).

Definition colname_eqb (a b : colname) : bool :=
  match a, b with
  | CStr s, CStr t => String.eqb s t
  | CInt n, CInt m => Z.eqb n m
  | _, _ => false
  end.

Record Row : Type := mkRow { label : Z; cells : list Z }.

Record DataFrame : Type := mkDF { columns : list colname; rows : list Row }.

(** [df.index] *)
Definition index (df : DataFrame) : list Z := map label (rows df).

(** [len(df)] *)
Definition nrows (df : DataFrame) : nat := length (rows df).

Fixpoint col_pos (cols : list colname) (c : colname) : option nat :=
  match cols with
  | [] => None
  | c' :: cols' =>
      if colname_eqb c' c then Some O
      else match col_pos cols' c with
           | Some p => Some (S p)
           | None => None
           end
  end.

Definition has_col (df : DataFrame) (c : colname) : bool :=
  match col_pos (columns df) c with
  | Some _ => true
  | None => false
  end.

(** The cell of row [r] under column [c]; callers check [has_col] first. *)
Definition get (df : DataFrame) (r : Row) (c : colname) : Z :=
  match col_pos (columns df) c with
  | Some p => nth p (cells r) 0
  | None => 0
  end.

(** The values of the columns [cs] in row [r], in the order of [cs]. *)
Definition key_of (df : DataFrame) (cs : list colname) (r : Row) : list Z :=
  map (get df r) cs.

Definition require_cols {A} (df : DataFrame) (cs : list colname)
  (k : result A) : result A :=
  if forallb (has_col df) cs then k else Err KeyError.

(** ** Ordering of sort keys *)

Fixpoint lex_leb (a b : list Z) : bool :=
  match a, b with
  | [], _ => true
  | _ :: _, [] => false
  | x :: a', y :: b' =>
      if x <? y then true
      else if x =? y then lex_leb a' b'
      else false
  end.

Fixpoint key_eqb (a b : list Z) : bool :=
  match a, b with
  | [], [] => true
  | x :: a', y :: b' => (x =? y) && key_eqb a' b'
  | _, _ => false
  end.

(** ** [DataFrame.sample(frac=1)]

    The shuffle draws one number per row from the random source and puts
    the row at that position among the rows already placed; every
    permutation of the rows is the outcome of some source. *)

Definition insert_at {A} (n : nat) (x : A) (l : list A) : list A :=
  firstn n l ++ x :: skipn n l.

Fixpoint shuffle {A} (rng : list nat) (l : list A) : list A :=
  match l with
  | [] => []
  | x :: t =>
      match rng with
      | [] => x :: shuffle [] t
      | k :: rng' => insert_at (Nat.modulo k (S (length t))) x (shuffle rng' t)
      end
  end.

Definition sample (rng : list nat) (df : DataFrame) : DataFrame :=
  mkDF (columns df) (shuffle rng (rows df)).

(** ** [DataFrame.sort_values(by, ascending=...)]

    A sort on the tuple of the [by] columns; [ascending=False] reverses
    the comparison.  The model sorts stably.  pandas promises no order
    among ties for a single key; no statement below depends on that
    order, and in [_groupby_max] the shuffle before the sort makes every
    order of ties an outcome. *)

Fixpoint insert_sorted {A} (leb : A -> A -> bool) (x : A) (l : list A) : list A :=
  match l with
  | [] => [x]
  | h :: t => if leb x h then x :: l else h :: insert_sorted leb x t
  end.

Fixpoint stable_sort {A} (leb : A -> A -> bool) (l : list A) : list A :=
  match l with
  | [] => []
  | x :: t => insert_sorted leb x (stable_sort leb t)
  end.

Definition row_leb (df : DataFrame) (by_ : list colname) (ascending : bool)
  (r1 r2 : Row) : bool :=
  if ascending then lex_leb (key_of df by_ r1) (key_of df by_ r2)
  else lex_leb (key_of df by_ r2) (key_of df by_ r1).

Definition sort_values (by_ : list colname) (ascending : bool)
  (df : DataFrame) : result DataFrame :=
  require_cols df by_
    (Ok (mkDF (columns df) (stable_sort (row_leb df by_ ascending) (rows df)))).

(** ** [DataFrame.drop_duplicates(subset, keep="last")] *)

Fixpoint keep_last (key : Row -> list Z) (l : list Row) : list Row :=
  match l with
  | [] => []
  | r :: t =>
      if existsb (fun r' => key_eqb (key r') (key r)) t
      then keep_last key t
      else r :: keep_last key t
  end.

Definition drop_duplicates (subset : list colname) (df : DataFrame)
  : result DataFrame :=
  require_cols df subset
    (Ok (mkDF (columns df) (keep_last (key_of df subset) (rows df)))).

(** ** The TDC grouping primitive

<<
def _groupby_max(df, by_cols, max_col):
    idx = df.sample(frac=1) \
            .sort_values(list(by_cols)+[max_col], axis=0) \
            .drop_duplicates(list(by_cols), keep="last") \
            .index
    return idx
>> *)

Definition _groupby_max_frame (rng : list nat) (df : DataFrame)
  (by_cols : list colname) (max_col : colname) : result DataFrame :=
  (d <- sort_values (by_cols ++ [max_col]) true (sample rng df) ;;
   drop_duplicates by_cols d)%result.

Definition _groupby_max (rng : list nat) (df : DataFrame)
  (by_cols : list colname) (max_col : colname) : result (list Z) :=
  (d <- _groupby_max_frame rng df by_cols max_col ;;
   Ok (index d))%result.

(** ** Further pandas and numpy operations used by the pipelines *)

Fixpoint replace_nth {A} (n : nat) (x : A) (l : list A) : list A :=
  match l, n with
  | [], _ => []
  | _ :: t, O => x :: t
  | h :: t, S n' => h :: replace_nth n' x t
  end.

Definition remove_nth {A} (n : nat) (l : list A) : list A :=
  firstn n l ++ skipn (S n) l.

Fixpoint zip_rows (f : Row -> Z -> Row) (rs : list Row) (vs : list Z) : list Row :=
  match rs, vs with
  | r :: rs', v :: vs' => f r v :: zip_rows f rs' vs'
  | _, _ => []
  end.

(** [df[name] = values] for a list or an array: the column is replaced when
    the name exists and appended otherwise; a length mismatch raises
    ValueError.  (pandas lets a frame with no rows take the index of a
    non-empty value and fills the other columns with NaN; the model has no
    NaN and treats that case as the mismatch it is.) *)
Definition setitem (name : colname) (vals : list Z) (df : DataFrame)
  : result DataFrame :=
  if Nat.eqb (length vals) (nrows df) then
    match col_pos (columns df) name with
    | Some p =>
        Ok (mkDF (columns df)
              (zip_rows (fun r v => mkRow (label r) (replace_nth p v (cells r)))
                 (rows df) vals))
    | None =>
        Ok (mkDF (columns df ++ [name])
              (zip_rows (fun r v => mkRow (label r) (cells r ++ [v]))
                 (rows df) vals))
    end
  else Err ValueError.

(** [df.columns[-1]] *)
Definition last_column (df : DataFrame) : result colname :=
  match rev (columns df) with
  | c :: _ => Ok c
  | [] => Err IndexError
  end.

(** [df.loc[:, c].values] *)
Definition column_values (c : colname) (df : DataFrame) : result (list Z) :=
  require_cols df [c] (Ok (map (fun r => get df r c) (rows df))).

(** [.astype(bool)] *)
Definition astype_bool (l : list Z) : list bool :=
  map (fun z => negb (z =? 0)) l.

(** [a[m]] for a boolean array [m] of the length of [a] *)
Fixpoint mask {A} (m : list bool) (l : list A) : list A :=
  match m, l with
  | b :: m', x :: l' => if b then x :: mask m' l' else mask m' l'
  | _, _ => []
  end.

(** [~m] *)
Definition invert (m : list bool) : list bool := map negb m.

(** [m == n] for a boolean array [m] and a Python int [n]: numpy compares
    the booleans as the integers 0 and 1. *)
Definition eq_int (m : list bool) (n : Z) : list bool :=
  map (fun b => Z.b2z b =? n) m.

(** [df.loc[m, :]] for a boolean array [m] *)
Definition loc_mask (m : list bool) (df : DataFrame) : DataFrame :=
  mkDF (columns df) (mask m (rows df)).

(** [df.loc[idx]] for a list of labels: for each label in turn, every row
    that carries it, in frame order; a label of no row raises KeyError. *)
Fixpoint loc_rows (idx : list Z) (rs : list Row) : result (list Row) :=
  match idx with
  | [] => Ok []
  | l :: idx' =>
      match filter (fun r => label r =? l) rs with
      | [] => Err KeyError
      | m => (rest <- loc_rows idx' rs ;; Ok (m ++ rest))%result
      end
  end.

Definition loc (idx : list Z) (df : DataFrame) : result DataFrame :=
  (rs <- loc_rows idx (rows df) ;; Ok (mkDF (columns df) rs))%result.

(** [.reset_index(drop=True)] *)
Fixpoint relabel (n : Z) (rs : list Row) : list Row :=
  match rs with
  | [] => []
  | r :: rs' => mkRow n (cells r) :: relabel (n + 1) rs'
  end.

Definition reset_index (df : DataFrame) : DataFrame :=
  mkDF (columns df) (relabel 0 (rows df)).

(** [.drop(c, axis=1)] *)
Definition drop (c : colname) (df : DataFrame) : result DataFrame :=
  match col_pos (columns df) c with
  | Some p =>
      Ok (mkDF (remove_nth p (columns df))
            (map (fun r => mkRow (label r) (remove_nth p (cells r))) (rows df)))
  | None => Err KeyError
  end.

(** [.rename(columns={old: new})]; a name that is absent is ignored. *)
Definition rename (old new : colname) (df : DataFrame) : DataFrame :=
  mkDF (map (fun c => if colname_eqb c old then new else c) (columns df))
    (rows df).

(** ** Python dicts with string keys, in insertion order *)

Fixpoint dict_get {V} (k : string) (d : list (string * V)) : option V :=
  match d with
  | [] => None
  | (k', v) :: t => if String.eqb k' k then Some v else dict_get k t
  end.

Fixpoint dict_set {V} (k : string) (v : V) (d : list (string * V))
  : list (string * V) :=
  match d with
  | [] => [(k, v)]
  | (k', v') :: t =>
      if String.eqb k' k then (k, v) :: t else (k', v') :: dict_set k v t
  end.

(** ** [os.path.join] on two components (posixpath) *)

Definition startswith_sep (s : string) : bool :=
  match s with
  | String c _ => Ascii.eqb c "/"
  | EmptyString => false
  end.

Fixpoint endswith_sep (s : string) : bool :=
  match s with
  | EmptyString => false
  | String c EmptyString => Ascii.eqb c "/"
  | String _ t => endswith_sep t
  end.

Definition os_path_join (a b : string) : string :=
  if startswith_sep b then b
  else match a with
       | EmptyString => b
       | _ => if endswith_sep a then (a ++ b)%string
              else (a ++ "/" ++ b)%string
       end.

(** ** Calls that leave the module *)

Inductive call : Type :=
| Call_tdc (scores : list Z) (targets : list bool) (desc : bool)
| Call_crosslink_tdc (scores : list Z) (targets : list bool) (desc : bool)
| Call_getQvaluesFromScores (targetScores decoyScores : list Z)
| Call_to_csv (table : DataFrame) (path sep : string).

Record Externals : Type := mkExternals {
  qvalues_tdc : list Z -> list bool -> bool -> result (list Z);
  qvalues_crosslink_tdc : list Z -> list bool -> bool -> result (list Z);
  qvality_getQvaluesFromScores : list Z -> list Z -> result (list Z * list Z);
  to_csv : DataFrame -> string -> string -> result unit
}.

(** A computation that logs its external calls and may raise. *)
Definition M (A : Type) : Type := (list call * result A)%type.

Definition ret {A} (a : A) : M A := ([], Ok a).

Definition bind {A B} (m : M A) (f : A -> M B) : M B :=
  match m with
  | (log, Err e) => (log, Err e)
  | (log, Ok a) => let (log', r) := f a in (log ++ log', r)
  end.

Definition lift {A} (r : result A) : M A := ([], r).

Declare Scope io_scope.
Delimit Scope io_scope with io.
Notation "x <- m ;; k" := (bind m (fun x => k))
  (at level 61, m at next level, right associativity) : io_scope.

Definition trace {A} (m : M A) : list call := fst m.
Definition outcome {A} (m : M A) : result A := snd m.

Definition call_tdc (E : Externals) (scores : list Z) (targets : list bool)
  (desc : bool) : M (list Z) :=
  ([Call_tdc scores targets desc], qvalues_tdc E scores targets desc).

Definition call_crosslink_tdc (E : Externals) (scores : list Z)
  (targets : list bool) (desc : bool) : M (list Z) :=
  ([Call_crosslink_tdc scores targets desc],
   qvalues_crosslink_tdc E scores targets desc).

Definition call_getQvaluesFromScores (E : Externals)
  (targetScores decoyScores : list Z) : M (list Z * list Z) :=
  ([Call_getQvaluesFromScores targetScores decoyScores],
   qvality_getQvaluesFromScores E targetScores decoyScores).

Definition call_to_csv (E : Externals) (table : DataFrame) (path sep : string)
  : M unit :=
  ([Call_to_csv table path sep], to_csv E table path sep).

(** ** The dataset handed to the constructors

    The dataset classes live in another module; the constructors read the
    attributes below and nothing else. *)

Module PsmDataset.
Record t : Type := mk {
    metadata : DataFrame;
    columns : list colname;
    targets : list Z;
    _spectrum_columns : list colname;
    _peptide_columns : list colname
  }.
End PsmDataset.

(** ** class Confidence *)

Module Confidence.

Record t : Type := mk {
    _data : DataFrame;
    _score_column : colname;
    _confidence_estimates : list (string * DataFrame)
  }.

Definition _level_labs : list (string * string) :=
    [("psms", "PSMs"); ("peptides", "Peptides"); ("proteins", "Proteins");
     ("csms", "Cross-Linked PSMs"); ("peptide_pairs", "Peptide Pairs")]%string.

Definition set_data (self : t) (d : DataFrame) : t :=
    mk d (_score_column self) (_confidence_estimates self).

Definition set_estimate (self : t) (level : string) (d : DataFrame) : t :=
    mk (_data self) (_score_column self)
      (dict_set level d (_confidence_estimates self)).

  (**
<<
def __init__(self, psms, scores):
    self._data = psms.metadata
    self._data[len(psms.columns)] = scores
    self._score_column = self._data.columns[-1]
    self._confidence_estimates = {}
>> *)
Definition __init__ (psms : PsmDataset.t) (scores : list Z) : result t :=
    (data <- setitem (CInt (Z.of_nat (length (PsmDataset.columns psms))))
               scores (PsmDataset.metadata psms) ;;
     score_column <- last_column data ;;
     Ok (mk data score_column []))%result.

  (**
<<
def __getattr__(self, attr):
    try:
        return self._confidence_estimates[attr]
    except KeyError:
        raise AttributeError
>> *)
Definition __getattr__ (self : t) (attr : string) : result DataFrame :=
    match dict_get attr (_confidence_estimates self) with
    | Some table => Ok table
    | None => Err AttributeError
    end.

  (** [list(self._confidence_estimates.keys())] *)
Definition levels (self : t) : list string :=
    map fst (_confidence_estimates self).

  (**
<<
for level, qvals in self._confidence_estimates.items():
    out_file = file_base + f".{level}.txt"
    qvals.to_csv(out_file, sep=sep, index=False)
    out_files.append(out_file)
>> *)
Fixpoint to_txt_loop (E : Externals) (file_base sep : string)
    (items : list (string * DataFrame)) (out_files : list string)
    : M (list string) :=
    match items with
    | [] => ret out_files
    | (level, qvals) :: items' =>
        let out_file := (file_base ++ "." ++ level ++ ".txt")%string in
        (_ <- call_to_csv E qvals out_file sep ;;
         to_txt_loop E file_base sep items' (out_files ++ [out_file]))%io
    end.

  (**
<<
def to_txt(self, dest_dir=None, file_root=None, sep="\t"):
    file_base = "mokapot"
    if file_root is not None:
        file_base = file_root + "." + file_base
    if dest_dir is not None:
        file_base = os.path.join(dest_dir, file_base)
    out_files = []
    for ...
    return out_files
>> *)
Definition to_txt (E : Externals) (self : t)
    (dest_dir file_root : option string) (sep : string) : M (list string) :=
    let file_base := "mokapot"%string in
    let file_base :=
      match file_root with
      | Some root => (root ++ "." ++ file_base)%string
      | None => file_base
      end in
    let file_base :=
      match dest_dir with
      | Some dir => os_path_join dir file_base
      | None => file_base
      end in
    to_txt_loop E file_base sep (_confidence_estimates self) [].

  (**
<<
def _perform_tdc(self, psm_columns):
    psm_idx = _groupby_max(self._data, psm_columns, self._score_column)
    self._data = self._data.loc[psm_idx]
>> *)
Definition _perform_tdc (rng : list nat) (self : t)
    (psm_columns : list colname) : result t :=
    (psm_idx <- _groupby_max rng (_data self) psm_columns (_score_column self) ;;
     data <- loc psm_idx (_data self) ;;
     Ok (set_data self data))%result.

End Confidence.

Definition is_str (c : colname) : bool :=
  match c with
  | CStr _ => true
  | CInt _ => false
  end.

(** ** class LinearConfidence(Confidence) *)

Module LinearConfidence.

Record t : Type := mk {
    base : Confidence.t;
    _target_column : colname;
    _psm_columns : list colname;
    _peptide_columns : list colname
  }.

Definition set_base (self : t) (b : Confidence.t) : t :=
    mk b (_target_column self) (_psm_columns self) (_peptide_columns self).

  (** The body of the loop of [_assign_confidence] for one [data]; it
      returns [data] as the first assignment leaves it (the q-value column
      is added in place) and the table stored for the level.
<<
scores = data.loc[:, self._score_column].values
targets = data.loc[:, self._target_column].astype(bool).values
data["mokapot q-value"] = qvalues.tdc(scores, targets, desc)
data = data.loc[targets, :] \
           .sort_values(self._score_column, ascending=(not desc)) \
           .reset_index(drop=True) \
           .drop(self._target_column, axis=1) \
           .rename(columns={self._score_column: "mokapot score"})
_, pep = qvality.getQvaluesFromScores(scores[targets], scores[~targets])
data["mokapot PEP"] = pep
>> *)
Definition assign_level (E : Externals) (self : t) (desc : bool)
    (data : DataFrame) : M (DataFrame * DataFrame) :=
    let score_column := Confidence._score_column (base self) in
    (scores <- lift (column_values score_column data) ;;
     labels <- lift (column_values (_target_column self) data) ;;
     let targets := astype_bool labels in
     qvals <- call_tdc E scores targets desc ;;
     data_q <- lift (setitem (CStr "mokapot q-value") qvals data) ;;
     sorted <- lift (sort_values [score_column] (negb desc)
                       (loc_mask targets data_q)) ;;
     dropped <- lift (drop (_target_column self) (reset_index sorted)) ;;
     let renamed := rename score_column (CStr "mokapot score") dropped in
     qp <- call_getQvaluesFromScores E (mask targets scores)
             (mask (invert targets) scores) ;;
     table <- lift (setitem (CStr "mokapot PEP") (snd qp) renamed) ;;
     ret (data_q, table))%io.

  (** The two frames the loop runs over: [self._data] and [peptides].
<<
peptide_idx = _groupby_max(self._data, self._peptide_columns,
                           self._score_column)
peptides = self._data.loc[peptide_idx]
>> *)
Definition level_frames (rng : list nat) (self : t)
    : result (DataFrame * DataFrame) :=
    let data := Confidence._data (base self) in
    (peptide_idx <- _groupby_max rng data (_peptide_columns self)
                      (Confidence._score_column (base self)) ;;
     peptides <- loc peptide_idx data ;;
     Ok (data, peptides))%result.

  (** The loop [for level, data in zip(("psms", "peptides"),
      (self._data, peptides))], unrolled; the first [data] is
      [self._data] itself, so its new column stays in [self._data]. *)
Definition _assign_confidence (E : Externals) (rng : list nat) (desc : bool)
    (self : t) : M t :=
    (frames <- lift (level_frames rng self) ;;
     r1 <- assign_level E self desc (fst frames) ;;
     let self1 := set_base self
                    (Confidence.set_estimate
                       (Confidence.set_data (base self) (fst r1))
                       "psms" (snd r1)) in
     r2 <- assign_level E self1 desc (snd frames) ;;
     ret (set_base self1
            (Confidence.set_estimate (base self1) "peptides" (snd r2))))%io.

  (** The constructor up to and including the competition on spectra.
<<
super().__init__(psms, scores)
self._data[len(self._data.columns)] = psms.targets
self._target_column = self._data.columns[-1]
self._psm_columns = psms._spectrum_columns
self._peptide_columns = psms._peptide_columns
LOGGER.info("Keeping the best match per %s columns...",
            "+".join(self._psm_columns))
self._perform_tdc(self._psm_columns)
>> *)
Definition init_tdc (rng : list nat) (psms : PsmDataset.t) (scores : list Z)
    : result t :=
    (b <- Confidence.__init__ psms scores ;;
     let data := Confidence._data b in
     data' <- setitem (CInt (Z.of_nat (length (columns data))))
                (PsmDataset.targets psms) data ;;
     target_column <- last_column data' ;;
     let self := mk (Confidence.set_data b data') target_column
                   (PsmDataset._spectrum_columns psms)
                   (PsmDataset._peptide_columns psms) in
     _ <- (if forallb is_str (_psm_columns self) then Ok tt else Err TypeError) ;;
     b' <- Confidence._perform_tdc rng (base self) (_psm_columns self) ;;
     Ok (set_base self b'))%result.

  (** [LinearConfidence(psms, scores, desc)]; [rng1] and [rng2] feed the
      shuffles of the two competitions. *)
Definition __init__ (E : Externals) (rng1 rng2 : list nat)
    (psms : PsmDataset.t) (scores : list Z) (desc : bool) : M t :=
    (self <- lift (init_tdc rng1 psms scores) ;;
     _assign_confidence E rng2 desc self)%io.

End LinearConfidence.

(** ** class CrossLinkedConfidence(Confidence) *)

Module CrossLinkedConfidence.

Record t : Type := mk {
    base : Confidence.t;
    _target_column : colname;
    _psm_columns : list colname;
    _peptide_columns : list colname
  }.

Definition set_base (self : t) (b : Confidence.t) : t :=
    mk b (_target_column self) (_psm_columns self) (_peptide_columns self).

  (**
<<
scores = data.loc[:, self._score_column].values
targets = data.loc[:, self._target_column].astype(bool).values
data["mokapot q-value"] = qvalues.crosslink_tdc(scores, targets, desc)
data = data.loc[targets, :] \
           .sort_values(self._score_column, ascending=(not desc)) \
           .reset_index(drop=True) \
           .drop(self._target_column, axis=1) \
           .rename(columns={self._score_column: "mokapot score"})
_, pep = qvality.getQvaluesFromScores(scores[targets == 2],
                                      scores[~targets])
data["mokapot PEP"] = pep
>> *)
Definition assign_level (E : Externals) (self : t) (desc : bool)
    (data : DataFrame) : M (DataFrame * DataFrame) :=
    let score_column := Confidence._score_column (base self) in
    (scores <- lift (column_values score_column data) ;;
     labels <- lift (column_values (_target_column self) data) ;;
     let targets := astype_bool labels in
     qvals <- call_crosslink_tdc E scores targets desc ;;
     data_q <- lift (setitem (CStr "mokapot q-value") qvals data) ;;
     sorted <- lift (sort_values [score_column] (negb desc)
                       (loc_mask targets data_q)) ;;
     dropped <- lift (drop (_target_column self) (reset_index sorted)) ;;
     let renamed := rename score_column (CStr "mokapot score") dropped in
     qp <- call_getQvaluesFromScores E (mask (eq_int targets 2) scores)
             (mask (invert targets) scores) ;;
     table <- lift (setitem (CStr "mokapot PEP") (snd qp) renamed) ;;
     ret (data_q, table))%io.

Definition level_frames (rng : list nat) (self : t)
    : result (DataFrame * DataFrame) :=
    let data := Confidence._data (base self) in
    (peptide_idx <- _groupby_max rng data (_peptide_columns self)
                      (Confidence._score_column (base self)) ;;
     peptides <- loc peptide_idx data ;;
     Ok (data, peptides))%result.

  (** [levels = ("csms", "peptide_pairs")] *)
Definition _assign_confidence (E : Externals) (rng : list nat) (desc : bool)
    (self : t) : M t :=
    (frames <- lift (level_frames rng self) ;;
     r1 <- assign_level E self desc (fst frames) ;;
     let self1 := set_base self
                    (Confidence.set_estimate
                       (Confidence.set_data (base self) (fst r1))
                       "csms" (snd r1)) in
     r2 <- assign_level E self1 desc (snd frames) ;;
     ret (set_base self1
            (Confidence.set_estimate (base self1) "peptide_pairs" (snd r2))))%io.

  (**
<<
super().__init__(psms, scores)
self._data[len(self._data.columns)] = psms.targets
self._target_column = self._data.columns[-1]
self._psm_columns = psms._spectrum_columns
self._peptide_columns = psms._peptide_columns
self._perform_tdc(self._psm_columns)
>> *)
Definition init_tdc (rng : list nat) (psms : PsmDataset.t) (scores : list Z)
    : result t :=
    (b <- Confidence.__init__ psms scores ;;
     let data := Confidence._data b in
     data' <- setitem (CInt (Z.of_nat (length (columns data))))
                (PsmDataset.targets psms) data ;;
     target_column <- last_column data' ;;
     let self := mk (Confidence.set_data b data') target_column
                   (PsmDataset._spectrum_columns psms)
                   (PsmDataset._peptide_columns psms) in
     b' <- Confidence._perform_tdc rng (base self) (_psm_columns self) ;;
     Ok (set_base self b'))%result.

Definition __init__ (E : Externals) (rng1 rng2 : list nat)
    (psms : PsmDataset.t) (scores : list Z) (desc : bool) : M t :=
    (self <- lift (init_tdc rng1 psms scores) ;;
     _assign_confidence E rng2 desc self)%io.

End CrossLinkedConfidence.

(** ** Contracts of the external primitives *)

(** Modelled from the spec: the PEP primitive
    ([qvality.getQvaluesFromScores], outside this module) returns one PEP
    per target score ("sequence of numeric PEPs aligned to targetScores"). *)
Definition pep_aligned (E : Externals) : Prop :=
  forall pos neg q pep,
    qvality_getQvaluesFromScores E pos neg = Ok (q, pep) ->
    length pep = length pos.

(** Modelled from the spec: a degenerate input to the PEP primitive (no
    targets or no decoys) is a hard failure ("Data error ... must be
    surfaced as a hard failure"). *)
Definition pep_rejects_degenerate (E : Externals) : Prop :=
  forall pos neg,
    pos = [] \/ neg = [] ->
    exists e, qvality_getQvaluesFromScores E pos neg = Err e.

(** ** Predicates used in the statements *)

Definition key_dec : forall a b : list Z, {a = b} + {a <> b} :=
  list_eq_dec Z.eq_dec.

(** The distinct values of the columns [cs] in [df]. *)
Definition distinct_keys (df : DataFrame) (cs : list colname) : list (list Z) :=
  nodup key_dec (map (key_of df cs) (rows df)).

(** No row of [data] is a decoy under the label column [target]. *)
Definition no_decoys (target : colname) (data : DataFrame) : Prop :=
  forall r, In r (rows data) -> get data r target <> 0.

(** The index of [df] has no repeated label. *)
Definition unique_index (df : DataFrame) : Prop := NoDup (index df).

(** The scores of the rows of [data] whose label is [v]. *)
Definition scores_with_label (score target : colname) (v : Z)
  (data : DataFrame) : list Z :=
  map (fun r => get data r score)
    (filter (fun r => get data r target =? v) (rows data)).

(** What a call of the cross-link q-value primitive must look like for the
    frame [data]: the scores of the frame, and a label vector that is true
    exactly at the rows with a non-zero label. *)
Definition crosslink_call_for (score target : colname) (desc : bool)
  (data : DataFrame) (c : call) : Prop :=
  match c with
  | Call_crosslink_tdc s t d =>
      s = map (fun r => get data r score) (rows data) /\
      d = desc /\
      Forall2 (fun b r => b = true <-> get data r target <> 0) t (rows data)
  | _ => False
  end.

(** The rows of [df] are in the order of column [c]: non-increasing when
    [desc], non-decreasing otherwise. *)
Definition sorted_by (c : colname) (desc : bool) (df : DataFrame) : Prop :=
  StronglySorted
    (fun r1 r2 => if desc then get df r2 c <= get df r1 c
                  else get df r1 c <= get df r2 c)
    (rows df).

(** The path of the file of [level], in the words of the interface: the
    directory when given, the root and a dot when given, then
    "mokapot.", the level and ".txt". *)
Definition expected_path (dest_dir file_root : option string) (level : string)
  : string :=
  let name :=
    (match file_root with
     | Some root => root ++ "."
     | None => ""
     end ++ "mokapot." ++ level ++ ".txt")%string in
  match dest_dir with
  | Some dir => os_path_join dir name
  | None => name
  end.

(** ** Sample inputs *)

(** Primitives that answer with constants and reject an empty sample. *)
Definition sample_externals : Externals :=
  mkExternals
    (fun s _ _ => Ok (map (fun _ => 0) s))
    (fun s _ _ => Ok (map (fun _ => 0) s))
    (fun pos neg =>
       match pos, neg with
       | [], _ => Err (ExternalError 1)
       | _, [] => Err (ExternalError 2)
       | _, _ => Ok (map (fun _ => 0) pos, map (fun _ => 0) pos)
       end)
    (fun _ _ _ => Ok tt).

(** Primitives that never fail and return one value per target score. *)
Definition lenient_externals : Externals :=
  mkExternals
    (fun s _ _ => Ok (map (fun _ => 0) s))
    (fun s _ _ => Ok (map (fun _ => 0) s))
    (fun pos _ => Ok (map (fun _ => 0) pos, map (fun _ => 0) pos))
    (fun _ _ _ => Ok tt).

(** Five candidate matches over three spectra. *)
Definition sample_metadata : DataFrame :=
  mkDF [CStr "scan"; CStr "peptide"]
    [mkRow 0 [1; 10]; mkRow 1 [1; 11]; mkRow 2 [2; 10];
     mkRow 3 [2; 12]; mkRow 4 [3; 13]].

Definition sample_scores : list Z := [5; 3; 2; 7; 1].

Definition sample_linear : PsmDataset.t :=
  PsmDataset.mk sample_metadata [CStr "scan"; CStr "peptide"]
    [1; 0; 1; 0; 1] [CStr "scan"] [CStr "peptide"].

(** The same matches with only target labels. *)
Definition sample_targets_only : PsmDataset.t :=
  PsmDataset.mk sample_metadata [CStr "scan"; CStr "peptide"]
    [1; 1; 1; 1; 1] [CStr "scan"] [CStr "peptide"].

(** The same matches with ternary labels. *)
Definition sample_crosslinked : PsmDataset.t :=
  PsmDataset.mk sample_metadata [CStr "scan"; CStr "peptide"]
    [2; 0; 1; 0; 2] [CStr "scan"] [CStr "peptide"].

(** A dataset of three columns of which two are metadata. *)
Definition sample_one_feature : PsmDataset.t :=
  PsmDataset.mk sample_metadata [CStr "scan"; CStr "peptide"; CStr "feature"]
    [1; 0; 1; 0; 0] [CStr "scan"] [CStr "peptide"].

(** Two matches that carry the same index label, on two spectra and with
    two peptides: a target and a decoy. *)
Definition repeated_label_metadata : DataFrame :=
  mkDF [CStr "scan"; CStr "peptide"] [mkRow 0 [1; 10]; mkRow 0 [2; 11]].

Definition repeated_label_dataset : PsmDataset.t :=
  PsmDataset.mk repeated_label_metadata [CStr "scan"; CStr "peptide"]
    [1; 0] [CStr "scan"] [CStr "peptide"].

(** A store with the two levels of the cross-linked pipeline. *)
Definition crosslinked_store : Confidence.t :=
  Confidence.mk sample_metadata (CInt 2)
    [("csms"%string, sample_metadata); ("peptide_pairs"%string, sample_metadata)].

(** The rows a competition on [by_cols] keeps: the shuffled rows, sorted on
    the key columns and then on [max_col], the last row of every key. *)
Definition competition_rows (rng : list nat) (df : DataFrame)
  (by_cols : list colname) (max_col : colname) : list Row :=
  keep_last (key_of df by_cols)
    (stable_sort (row_leb df (by_cols ++ [max_col]) true)
       (shuffle rng (rows df))).

(** The sample matches with their scores as the column [CInt 2], and what
    the competition on spectra leaves of them. *)
Definition sample_scored : DataFrame :=
  mkDF [CStr "scan"; CStr "peptide"; CInt 2]
    [mkRow 0 [1; 10; 5]; mkRow 1 [1; 11; 3]; mkRow 2 [2; 10; 2];
     mkRow 3 [2; 12; 7]; mkRow 4 [3; 13; 1]].

Definition sample_competed : DataFrame :=
  mkDF [CStr "scan"; CStr "peptide"; CInt 2]
    [mkRow 0 [1; 10; 5]; mkRow 3 [2; 12; 7]; mkRow 4 [3; 13; 1]].

(** Three matches, two of them on one spectrum with the same score, and
    the index label 1 carried twice. *)
Definition tied_repeated_store : Confidence.t :=
  Confidence.mk
    (mkDF [CStr "scan"; CInt 1]
       [mkRow 0 [1; 5]; mkRow 1 [1; 5]; mkRow 1 [2; 1]])
    (CInt 1) [].

(** The sample matches with ternary labels of which a mixed one survives
    the competition on spectra. *)
Definition sample_crosslinked_mixed : PsmDataset.t :=
  PsmDataset.mk sample_metadata [CStr "scan"; CStr "peptide"]
    [2; 0; 1; 0; 1] [CStr "scan"] [CStr "peptide"].

(** Every row of [df] has one cell per column. *)
Definition wf_frame (df : DataFrame) : Prop :=
  Forall (fun r => length (cells r) = length (columns df)) (rows df).

(** The cell under the name [c], for a list of names and a list of cells. *)
Definition lookup (cols : list colname) (cs : list Z) (c : colname) : Z :=
  match col_pos cols c with
  | Some p => nth p cs 0
  | None => 0
  end.

(** The names the pipelines give to the columns of a result table. *)
Definition reserved_names : list colname :=
  [CStr "mokapot q-value"; CStr "mokapot score"; CStr "mokapot PEP"].

(** What C6 asks of the table stored for the frame [data]: the label
    column is gone, the score column goes by "mokapot score", the q-value
    and PEP columns are there, the index is 0, 1, 2, ..., the rows are in
    the order of the score, and every row is a row of [data] with a true
    label, cell for cell on the other columns; there are as many rows as
    such rows in [data].  The last part says that the rows correspond one
    to one: read on the columns of [data] other than the label column,
    with the score under its new name, the rows of the table are the rows
    of [data] with a true label, each as often as it is there, in some
    order. *)
Definition result_table_ok (score target : colname) (desc : bool)
  (data table : DataFrame) : Prop :=
  ~ In target (columns table) /\
  ~ In score (columns table) /\
  In (CStr "mokapot score") (columns table) /\
  In (CStr "mokapot q-value") (columns table) /\
  In (CStr "mokapot PEP") (columns table) /\
  index table = map Z.of_nat (seq 0 (nrows table)) /\
  sorted_by (CStr "mokapot score") desc table /\
  nrows table
    = length (filter (fun r => negb (get data r target =? 0)) (rows data)) /\
  (forall t, In t (rows table) ->
     exists r, In r (rows data) /\ get data r target <> 0 /\
               get table t (CStr "mokapot score") = get data r score /\
               forall c, In c (columns data) -> c <> target -> c <> score ->
                         get table t c = get data r c) /\
  (let kept := filter (fun c => negb (colname_eqb c target)) (columns data) in
   Permutation
     (map (key_of table
             (map (fun c => if colname_eqb c score then CStr "mokapot score"
                            else c) kept))
        (rows table))
     (map (key_of data kept)
        (filter (fun r => negb (get data r target =? 0)) (rows data)))).

(** The table of the dataset is well formed, its column names are
    distinct, and none of them is a name of the result tables. *)
Definition well_formed_dataset (psms : PsmDataset.t) : Prop :=
  wf_frame (PsmDataset.metadata psms) /\
  NoDup (columns (PsmDataset.metadata psms)) /\
  (forall c, In c reserved_names -> ~ In c (columns (PsmDataset.metadata psms))).

(** The names the constructor gives to the score column and to the label
    column are new to the table and differ from each other, so that both
    columns are appended. *)
Definition appends_new_columns (psms : PsmDataset.t) : Prop :=
  let cols := columns (PsmDataset.metadata psms) in
  let score_name := CInt (Z.of_nat (length (PsmDataset.columns psms))) in
  let label_name := CInt (Z.of_nat (S (length cols))) in
  ~ In score_name cols /\ ~ In label_name cols /\ score_name <> label_name.

(** ** More sample inputs *)

(** Externals whose [to_csv] fails on one path. *)
Definition failing_csv_externals : Externals :=
  mkExternals
    (fun s _ _ => Ok (map (fun _ => 0) s))
    (fun s _ _ => Ok (map (fun _ => 0) s))
    (fun pos _ => Ok (map (fun _ => 0) pos, map (fun _ => 0) pos))
    (fun _ path _ =>
       if String.eqb path "out/mokapot.peptides.txt"
       then Err (ExternalError 3) else Ok tt).

(** A store with the three levels "psms", "peptides" and "proteins". *)
Definition three_level_store : Confidence.t :=
  Confidence.mk sample_metadata (CInt 2)
    [("psms"%string, sample_competed); ("peptides"%string, sample_competed);
     ("proteins"%string, sample_metadata)].

(** What a call of a primitive must look like in the linear pipeline, for
    the frame [data]: the q-value primitive gets the scores of all rows,
    a label vector that is true exactly at the rows with a true label,
    and the direction; the PEP primitive gets the scores of the rows with
    a true label and the scores of the rows with a false label, each in
    the order of the frame. *)
Definition linear_call_for (score target : colname) (desc : bool)
  (data : DataFrame) (c : call) : Prop :=
  match c with
  | Call_tdc s t d =>
      s = map (fun r => get data r score) (rows data) /\
      d = desc /\
      Forall2 (fun b r => b = true <-> get data r target <> 0) t (rows data)
  | Call_getQvaluesFromScores pos neg =>
      pos = map (fun r => get data r score)
              (filter (fun r => negb (get data r target =? 0)) (rows data)) /\
      neg = map (fun r => get data r score)
              (filter (fun r => get data r target =? 0) (rows data))
  | _ => False
  end.

(** A dataset whose spectrum column is named by an int. *)
Definition int_named_dataset : PsmDataset.t :=
  PsmDataset.mk (mkDF [CInt 0; CStr "peptide"] [mkRow 0 [1; 10]; mkRow 1 [2; 11]])
    [CInt 0; CStr "peptide"; CStr "f1"; CStr "f2"]
    [1; 0] [CInt 0] [CStr "peptide"].

(** The values the table stored for the frame [data] carries: the PEP
    column is the vector the PEP primitive returned for the scores of the
    target rows and of the decoy rows of [data], taken in the order of
    the rows of the table; the pairs of score and q-value of the table
    are the pairs of the target rows of [data], each row of [data]
    paired with the q-value [qvalues.tdc] returned at its position. *)
Definition table_values_ok (E : Externals) (score target : colname)
  (desc : bool) (data table : DataFrame) : Prop :=
  exists qvals q pep : list Z,
    qvalues_tdc E (map (fun r => get data r score) (rows data))
      (astype_bool (map (fun r => get data r target) (rows data))) desc
      = Ok qvals /\
    length qvals = nrows data /\
    qvality_getQvaluesFromScores E
      (map (fun r => get data r score)
         (filter (fun r => negb (get data r target =? 0)) (rows data)))
      (map (fun r => get data r score)
         (filter (fun r => get data r target =? 0) (rows data)))
      = Ok (q, pep) /\
    map (fun t => get table t (CStr "mokapot PEP")) (rows table) = pep /\
    Permutation
      (map (fun t => (get table t (CStr "mokapot score"),
                      get table t (CStr "mokapot q-value"))) (rows table))
      (map (fun p => (get data (fst p) score, snd p))
         (filter (fun p => negb (get data (fst p) target =? 0))
            (combine (rows data) qvals))).

(** ** [Confidence.plot_qvalues] *)

(** What a caller passes as [ax]: nothing, a matplotlib Axes, or an
    object of another type. *)
Inductive ax_arg : Type := AxNone | AxAxes | AxOther.

(** [Series.cumsum()] *)
Fixpoint cumsum_from (acc : Z) (l : list Z) : list Z :=
  match l with
  | [] => []
  | x :: t => (acc + x) :: cumsum_from (acc + x) t
  end.

Definition cumsum (l : list Z) : list Z := cumsum_from 0 l.

(** The maximum of the values of a group; a group has a row. *)
Definition group_max (l : list Z) : Z :=
  match l with
  | [] => 0
  | h :: t => fold_left Z.max t h
  end.

(** [.groupby([key]).max().reset_index()] on the rows [(key, num)]: one
    row per distinct key, the keys ascending, each with the maximum of
    [num] over the rows of the key.  (The frame of the source has a third
    column, "target", which is 1 in every row and is dropped in the next
    line.) *)
Definition groupby_key_max (ps : list (Z * Z)) : list (Z * Z) :=
  map (fun k => (k, group_max (map snd (filter (fun p => fst p =? k) ps))))
    (stable_sort Z.leb (nodup Z.eq_dec (map fst ps))).

(** The data of the curve that [plot_qvalues] draws: the two arrays handed
    to [ax.step].  The limits and the labels it sets on the axes are
    effects on the matplotlib object and are left out ([threshold] enters
    only the limits); the look-up of the label of the level, which can
    raise, is kept.
<<
if ax is None:
    ax = plt.gca()
elif not isinstance(ax, plt.Axes):
    raise ValueError("'ax' must be a matplotlib Axes instance.")
qvals = self._confidence_estimates[level].loc[:, ["mokapot q-value"]]
qvals = qvals.sort_values(by="mokapot q-value", ascending=True)
qvals["target"] = 1
qvals["num"] = qvals["target"].cumsum()
qvals = qvals.groupby(["mokapot q-value"]).max().reset_index()
qvals = qvals[["mokapot q-value", "num"]]
zero = pd.DataFrame({"mokapot q-value": qvals["mokapot q-value"][0],
                     "num": 0}, index=[-1])
qvals = pd.concat([zero, qvals], sort=True).reset_index(drop=True)
...
ax.set_ylabel(f"Accepted {self._level_labs[level]}")
return ax.step(qvals["mokapot q-value"].values,
               qvals.num.values, where="post", **kwargs)
>> *)
Definition plot_qvalues (self : Confidence.t) (level : string) (ax : ax_arg)
  : result (list Z * list Z) :=
  (_ <- match ax with
        | AxOther => Err ValueError
        | _ => Ok tt
        end ;;
   table <- match dict_get level (Confidence._confidence_estimates self) with
            | Some table => Ok table
            | None => Err KeyError
            end ;;
   qvals <- column_values (CStr "mokapot q-value") table ;;
   let sorted := stable_sort Z.leb qvals in
   let num := cumsum (map (fun _ => 1) sorted) in
   let grouped := groupby_key_max (combine sorted num) in
   first <- match grouped with
            | (q, _) :: _ => Ok q
            | [] => Err KeyError
            end ;;
   let curve := (first, 0) :: grouped in
   _ <- match dict_get level Confidence._level_labs with
        | Some _ => Ok tt
        | None => Err KeyError
        end ;;
   Ok (map fst curve, map snd curve))%result.

(** The number of rows of [table] whose q-value is at most [q]. *)
Definition accepted_at (table : DataFrame) (q : Z) : Z :=
  Z.of_nat
    (length (filter (fun r => get table r (CStr "mokapot q-value") <=? q)
               (rows table))).

(** A table of four results, two of them with the same q-value. *)
Definition sample_result_table : DataFrame :=
  mkDF [CStr "peptide"; CStr "mokapot q-value"]
    [mkRow 0 [10; 3]; mkRow 1 [11; 1]; mkRow 2 [12; 3]; mkRow 3 [13; 2]].

Definition sample_plot_store : Confidence.t :=
  Confidence.mk sample_metadata (CInt 2)
    [("psms"%string, sample_result_table);
     ("custom"%string, sample_result_table);
     ("peptides"%string, mkDF [CStr "peptide"; CStr "mokapot q-value"] [])].

(** * Properties *)

(** ** Results and the call log *)

Lemma outcome_bind {A B} (m : M A) (f : A -> M B) :
  outcome (bind m f) =
  match outcome m with
  | Ok a => outcome (f a)
  | Err e => Err e
  end.
Proof.
  destruct m as [log [a | e]]; simpl; [ | reflexivity ].
  destruct (f a); reflexivity.
Qed.

Lemma trace_bind {A B} (m : M A) (f : A -> M B) :
  trace (bind m f) =
  trace m ++ match outcome m with
             | Ok a => trace (f a)
             | Err _ => []
             end.
Proof.
  destruct m as [log [a | e]]; simpl.
  - destruct (f a); reflexivity.
  - now rewrite app_nil_r.
Qed.

Lemma outcome_lift {A} (r : result A) : outcome (lift r) = r.
Proof. reflexivity. Qed.

Lemma trace_lift {A} (r : result A) : trace (lift r) = [].
Proof. reflexivity. Qed.

Lemma M_eta {A} (m : M A) : m = (trace m, outcome m).
Proof. now destruct m. Qed.

(** ** Column names *)

Lemma colname_eqb_eq (a b : colname) : colname_eqb a b = true <-> a = b.
Proof.
  destruct a, b; simpl; split; intro H; try discriminate.
  - apply String.eqb_eq in H. now subst.
  - inversion H. apply String.eqb_refl.
  - apply Z.eqb_eq in H. now subst.
  - inversion H. apply Z.eqb_refl.
Qed.

Lemma colname_eqb_refl (a : colname) : colname_eqb a a = true.
Proof. now apply colname_eqb_eq. Qed.

Lemma col_pos_In (cols : list colname) (c : colname) :
  In c cols -> exists p, col_pos cols c = Some p.
Proof.
  induction cols as [ | c' cols IH ]; simpl; [ easy | ].
  intros [-> | Hin].
  - rewrite colname_eqb_refl. now exists O.
  - destruct (colname_eqb c' c); [ now exists O | ].
    destruct (IH Hin) as [p ->]. now exists (S p).
Qed.

Lemma col_pos_Some_In (cols : list colname) (c : colname) (p : nat) :
  col_pos cols c = Some p -> In c cols.
Proof.
  revert p. induction cols as [ | c' cols IH ]; simpl; [ easy | ].
  intros p. destruct (colname_eqb c' c) eqn:E.
  - apply colname_eqb_eq in E. now left.
  - destruct (col_pos cols c); [ | easy ]. intros _. right. now apply (IH n).
Qed.

Lemma has_col_In (df : DataFrame) (c : colname) :
  has_col df c = true <-> In c (columns df).
Proof.
  unfold has_col. split.
  - destruct (col_pos (columns df) c) eqn:E; [ | easy ].
    intros _. now apply col_pos_Some_In in E.
  - intros Hin. now destruct (col_pos_In _ _ Hin) as [p ->].
Qed.

Lemma forallb_has_col (df : DataFrame) (cs : list colname) :
  forallb (has_col df) cs = true <-> (forall c, In c cs -> In c (columns df)).
Proof.
  rewrite forallb_forall. split; intros H c Hc; apply has_col_In; auto.
Qed.

(** ** The order on sort keys *)

Lemma lex_leb_total (a b : list Z) : lex_leb a b = true \/ lex_leb b a = true.
Proof.
  revert b. induction a as [ | x a IH ]; intros [ | y b ]; simpl; auto.
  destruct (Z.ltb_spec x y), (Z.ltb_spec y x); auto; try lia.
  assert (x = y) by lia. subst. rewrite Z.eqb_refl. apply IH.
Qed.

Lemma lex_leb_trans (a b c : list Z) :
  lex_leb a b = true -> lex_leb b c = true -> lex_leb a c = true.
Proof.
  revert b c. induction a as [ | x a IH ]; intros [ | y b ] [ | z c ]; simpl;
    try easy.
  destruct (Z.ltb_spec x y), (Z.ltb_spec y z), (Z.ltb_spec x z);
    try easy; try lia;
    destruct (Z.eqb_spec x y), (Z.eqb_spec y z), (Z.eqb_spec x z);
    try easy; try lia.
  apply IH.
Qed.

Lemma lex_leb_app_last (k : list Z) (a b : Z) :
  lex_leb (k ++ [a]) (k ++ [b]) = true -> a <= b.
Proof.
  induction k as [ | x k IH ]; simpl.
  - destruct (Z.ltb_spec a b); [ lia | ].
    destruct (Z.eqb_spec a b); [ lia | easy ].
  - rewrite Z.ltb_irrefl, Z.eqb_refl. exact IH.
Qed.

Lemma lex_leb_single (a b : Z) : lex_leb [a] [b] = true <-> a <= b.
Proof.
  simpl. destruct (Z.ltb_spec a b), (Z.eqb_spec a b); split; try easy; lia.
Qed.

Lemma key_eqb_eq (a b : list Z) : key_eqb a b = true <-> a = b.
Proof.
  revert b. induction a as [ | x a IH ]; intros [ | y b ]; simpl;
    split; try easy.
  - intros H. apply andb_true_iff in H as [H1 H2].
    apply Z.eqb_eq in H1. apply IH in H2. now subst.
  - intros H. inversion H; subst. rewrite Z.eqb_refl. now apply IH.
Qed.

(** ** Shuffling and sorting keep the rows *)

Lemma insert_at_perm {A} (n : nat) (x : A) (l : list A) :
  Permutation (insert_at n x l) (x :: l).
Proof.
  unfold insert_at. rewrite <- (firstn_skipn n l) at 3.
  symmetry. apply Permutation_middle.
Qed.

Lemma shuffle_perm {A} (rng : list nat) (l : list A) :
  Permutation (shuffle rng l) l.
Proof.
  revert rng. induction l as [ | x l IH ]; intros rng; simpl; [ constructor | ].
  destruct rng as [ | k rng ].
  - constructor. apply IH.
  - rewrite insert_at_perm. constructor. apply IH.
Qed.

(** Every order of the rows is the outcome of some random source. *)
Lemma shuffle_complete {A} (l l' : list A) :
  Permutation l l' -> exists rng, shuffle rng l = l'.
Proof.
  revert l'. induction l as [ | x t IH ]; intros l' Hp.
  - apply Permutation_nil in Hp. subst. now exists [].
  - assert (Hin : In x l') by (apply (Permutation_in x Hp); now left).
    apply in_split in Hin as [a [b ->]].
    apply Permutation_cons_app_inv in Hp.
    destruct (IH _ Hp) as [rng Hrng].
    exists (length a :: rng). cbn [shuffle]. rewrite Hrng.
    assert (Hlen : (length a < S (length t))%nat).
    { rewrite (Permutation_length Hp), length_app. lia. }
    rewrite (Nat.mod_small _ _ Hlen). unfold insert_at.
    rewrite firstn_app, skipn_app, firstn_all, skipn_all, Nat.sub_diag.
    cbn [firstn skipn]. now rewrite app_nil_r.
Qed.

Lemma insert_sorted_perm {A} (leb : A -> A -> bool) (x : A) (l : list A) :
  Permutation (insert_sorted leb x l) (x :: l).
Proof.
  induction l as [ | h t IH ]; simpl; [ reflexivity | ].
  destruct (leb x h); [ reflexivity | ].
  rewrite IH. apply perm_swap.
Qed.

Lemma stable_sort_perm {A} (leb : A -> A -> bool) (l : list A) :
  Permutation (stable_sort leb l) l.
Proof.
  induction l as [ | x l IH ]; simpl; [ constructor | ].
  rewrite insert_sorted_perm. now constructor.
Qed.

Section Sorting.
Context {A : Type} (leb : A -> A -> bool).
Hypothesis leb_total : forall a b, leb a b = true \/ leb b a = true.
Hypothesis leb_trans :
  forall a b c, leb a b = true -> leb b c = true -> leb a c = true.

Let R (a b : A) : Prop := leb a b = true.

Lemma insert_sorted_sorted (x : A) (l : list A) :
  StronglySorted R l -> StronglySorted R (insert_sorted leb x l).
Proof.
  induction l as [ | h t IH ]; simpl; intros Hs.
  - repeat constructor.
  - inversion Hs as [ | ? ? Ht Hh ]; subst.
    destruct (leb x h) eqn:E.
    + constructor; [ assumption | ].
      constructor; [ exact E | ].
      eapply Forall_impl; [ | exact Hh ].
      intros a Ha. now apply (leb_trans x h a).
    + constructor; [ now apply IH | ].
      assert (Hhx : R h x) by (destruct (leb_total x h); [ congruence | assumption ]).
      apply (Permutation_Forall (Permutation_sym (insert_sorted_perm leb x t))).
      now constructor.
Qed.

Lemma stable_sort_sorted (l : list A) : StronglySorted R (stable_sort leb l).
Proof.
  induction l as [ | x l IH ]; simpl; [ constructor | ].
  now apply insert_sorted_sorted.
Qed.

End Sorting.

(** ** Keeping the last row of every key *)

Lemma keep_last_incl (key : Row -> list Z) (l : list Row) (s : Row) :
  In s (keep_last key l) -> In s l.
Proof.
  induction l as [ | r t IH ]; simpl; [ easy | ].
  destruct (existsb _ t); simpl; intuition.
Qed.

Lemma keep_last_keys_NoDup (key : Row -> list Z) (l : list Row) :
  NoDup (map key (keep_last key l)).
Proof.
  induction l as [ | r t IH ]; simpl; [ constructor | ].
  destruct (existsb (fun r' => key_eqb (key r') (key r)) t) eqn:E;
    [ assumption | ].
  simpl. constructor; [ | assumption ].
  intros Hin. apply in_map_iff in Hin as [s [Hk Hs]].
  apply keep_last_incl in Hs.
  assert (existsb (fun r' => key_eqb (key r') (key r)) t = true); [ | congruence ].
  apply existsb_exists. exists s. split; [ assumption | ].
  now apply key_eqb_eq.
Qed.

(** Every row has a kept row of its key that is the row itself or comes
    after it. *)
Lemma keep_last_covers (R : Row -> Row -> Prop) (key : Row -> list Z)
  (l : list Row) :
  StronglySorted R l ->
  forall r, In r l ->
    exists s, In s (keep_last key l) /\ key s = key r /\ (s = r \/ R r s).
Proof.
  induction 1 as [ | h t Ht IH Hh ]; simpl; [ easy | ].
  assert (Hsub : forall s, In s (keep_last key t) ->
            In s (if existsb (fun r' => key_eqb (key r') (key h)) t
                  then keep_last key t else h :: keep_last key t)).
  { intros s Hs. destruct (existsb _ t); simpl; auto. }
  intros r [<- | Hr].
  - destruct (existsb (fun r' => key_eqb (key r') (key h)) t) eqn:E.
    + apply existsb_exists in E as [r' [Hr' Hk]]. apply key_eqb_eq in Hk.
      destruct (IH r' Hr') as [s [Hs [Hks _]]].
      exists s. repeat split; [ assumption | congruence | ].
      right. rewrite Forall_forall in Hh. apply Hh.
      now apply keep_last_incl in Hs.
    + exists h. simpl. auto.
  - destruct (IH r Hr) as [s [Hs [Hks Hrel]]].
    exists s. auto.
Qed.

Lemma keep_last_length (key : Row -> list Z) (l : list Row) :
  length (keep_last key l) = length (nodup key_dec (map key l)).
Proof.
  induction l as [ | r t IH ]; simpl; [ reflexivity | ].
  destruct (existsb (fun r' => key_eqb (key r') (key r)) t) eqn:E;
    destruct (in_dec key_dec (key r) (map key t)) as [Hin | Hnin];
    simpl; try congruence.
  - exfalso. apply Hnin. apply existsb_exists in E as [r' [Hr' Hk]].
    apply key_eqb_eq in Hk. rewrite <- Hk. now apply in_map.
  - exfalso. apply in_map_iff in Hin as [r' [Hk Hr']].
    assert (existsb (fun r' => key_eqb (key r') (key r)) t = true); [ | congruence ].
    apply existsb_exists. exists r'. split; [ assumption | ]. now apply key_eqb_eq.
Qed.

Lemma nodup_length_perm (l l' : list (list Z)) :
  Permutation l l' ->
  length (nodup key_dec l) = length (nodup key_dec l').
Proof.
  intros Hp. apply Permutation_length. apply NoDup_Permutation.
  - apply NoDup_nodup.
  - apply NoDup_nodup.
  - intros x. rewrite !nodup_In. split; intro Hx.
    + now apply (Permutation_in x Hp).
    + now apply (Permutation_in x (Permutation_sym Hp)).
Qed.

(** ** The grouping primitive *)

Lemma groupby_max_frame_spec (rng : list nat) (df : DataFrame)
  (by_cols : list colname) (max_col : colname) :
  _groupby_max_frame rng df by_cols max_col =
  if forallb (has_col df) (by_cols ++ [max_col])
  then Ok (mkDF (columns df) (competition_rows rng df by_cols max_col))
  else Err KeyError.
Proof.
  unfold _groupby_max_frame, sort_values, drop_duplicates, require_cols.
  change (has_col (sample rng df)) with (has_col df).
  destruct (forallb (has_col df) (by_cols ++ [max_col])) eqn:E;
    [ | reflexivity ].
  simpl. rewrite forallb_app in E. apply andb_true_iff in E as [E _].
  match goal with
  | |- context [forallb ?f by_cols] => change (forallb f by_cols) with (forallb (has_col df) by_cols)
  end.
  rewrite E. reflexivity.
Qed.

Lemma groupby_max_frame_eq (rng : list nat) (df : DataFrame)
  (by_cols : list colname) (max_col : colname) :
  (forall c, In c by_cols -> In c (columns df)) ->
  In max_col (columns df) ->
  _groupby_max_frame rng df by_cols max_col =
  Ok (mkDF (columns df) (competition_rows rng df by_cols max_col)).
Proof.
  intros Hby Hmax. rewrite groupby_max_frame_spec.
  assert (H : forallb (has_col df) (by_cols ++ [max_col]) = true).
  { apply forallb_has_col. intros c Hc.
    apply in_app_or in Hc as [Hc | [<- | []]]; auto. }
  now rewrite H.
Qed.

(** C1.  For every table, every non-empty list of key columns of the table
    and every value column of the table, [_groupby_max] returns the index
    labels of a selection of rows of the table that holds exactly one row
    per distinct key value -- no key twice, every key of the table once,
    as many rows as there are distinct keys -- and whose row for a key has
    the maximum of the value column among the rows of that key. *)
Theorem groupby_max_one_row_per_key (rng : list nat) (df : DataFrame)
  (by_cols : list colname) (max_col : colname) :
  by_cols <> [] ->
  (forall c, In c by_cols -> In c (columns df)) ->
  In max_col (columns df) ->
  exists sel : list Row,
    _groupby_max rng df by_cols max_col = Ok (map label sel) /\
    (forall s, In s sel -> In s (rows df)) /\
    NoDup (map (key_of df by_cols) sel) /\
    length sel = length (distinct_keys df by_cols) /\
    (forall r, In r (rows df) ->
       exists s, In s sel /\
                 key_of df by_cols s = key_of df by_cols r /\
                 get df r max_col <= get df s max_col).
Proof.
  intros _ Hby Hmax.
  set (sorted := stable_sort (row_leb df (by_cols ++ [max_col]) true)
                   (shuffle rng (rows df))).
  assert (Hperm : Permutation sorted (rows df)).
  { unfold sorted. rewrite stable_sort_perm. apply shuffle_perm. }
  exists (competition_rows rng df by_cols max_col).
  unfold competition_rows. fold sorted.
  split; [ | split; [ | split; [ | split ] ] ].
  - unfold _groupby_max.
    rewrite (groupby_max_frame_eq rng df by_cols max_col Hby Hmax).
    reflexivity.
  - intros s Hs. apply keep_last_incl in Hs.
    now apply (Permutation_in s Hperm).
  - apply keep_last_keys_NoDup.
  - rewrite keep_last_length. unfold distinct_keys.
    apply nodup_length_perm. now apply Permutation_map.
  - intros r Hr.
    assert (Hsorted : StronglySorted
              (fun a b => row_leb df (by_cols ++ [max_col]) true a b = true)
              sorted).
    { apply stable_sort_sorted.
      - intros a b. apply lex_leb_total.
      - intros a b c. apply lex_leb_trans. }
    apply (Permutation_in r (Permutation_sym Hperm)) in Hr.
    destruct (keep_last_covers _ (key_of df by_cols) sorted Hsorted r Hr)
      as [s [Hs [Hk Hrel]]].
    exists s. repeat split; try assumption.
    destruct Hrel as [-> | Hle]; [ lia | ].
    unfold row_leb, key_of in Hle. rewrite !map_app in Hle. simpl in Hle.
    unfold key_of in Hk. rewrite Hk in Hle.
    now apply lex_leb_app_last in Hle.
Qed.

(** The hypotheses of C1 hold for the sample table, keyed by spectrum. *)
Lemma groupby_max_one_row_per_key_witness :
  exists sel : list Row,
    _groupby_max [3; 1; 4]%nat sample_scored [CStr "scan"] (CInt 2)
      = Ok (map label sel) /\
    (forall s, In s sel -> In s (rows sample_scored)) /\
    NoDup (map (key_of sample_scored [CStr "scan"]) sel) /\
    length sel = length (distinct_keys sample_scored [CStr "scan"]) /\
    (forall r, In r (rows sample_scored) ->
       exists s, In s sel /\
                 key_of sample_scored [CStr "scan"] s
                   = key_of sample_scored [CStr "scan"] r /\
                 get sample_scored r (CInt 2) <= get sample_scored s (CInt 2)).
Proof.
  apply (groupby_max_one_row_per_key [3; 1; 4]%nat sample_scored
           [CStr "scan"] (CInt 2)).
  - discriminate.
  - simpl. intros c [<- | []]. auto.
  - simpl. auto.
Defined.

(** ** Selection by label *)

Lemma filter_none {A} (f : A -> bool) (l : list A) :
  (forall a, In a l -> f a = false) -> filter f l = [].
Proof.
  induction l as [ | h t IH ]; simpl; [ easy | ].
  intros H. rewrite (H h) by auto. apply IH. auto.
Qed.

Lemma filter_label_unique (rs : list Row) (s : Row) :
  NoDup (map label rs) -> In s rs ->
  filter (fun r => label r =? label s) rs = [s].
Proof.
  induction rs as [ | h t IH ]; simpl; [ easy | ].
  intros Hnd Hin. inversion Hnd as [ | ? ? Hh Ht ]; subst.
  destruct Hin as [-> | Hin].
  - rewrite Z.eqb_refl. f_equal.
    apply filter_none. intros r Hr.
    apply Z.eqb_neq. intros E. apply Hh. rewrite <- E. now apply in_map.
  - destruct (Z.eqb_spec (label h) (label s)) as [E | _].
    + exfalso. apply Hh. rewrite E. now apply in_map.
    + now apply IH.
Qed.

Lemma loc_rows_unique (rs sel : list Row) :
  NoDup (map label rs) -> (forall s, In s sel -> In s rs) ->
  loc_rows (map label sel) rs = Ok sel.
Proof.
  intros Hnd. induction sel as [ | s sel IH ]; simpl; intros Hin;
    [ reflexivity | ].
  rewrite (filter_label_unique rs s Hnd) by auto.
  rewrite IH by auto. reflexivity.
Qed.

(** ** Kept rows of a table without repeated keys *)

Lemma keep_last_sorted (R : Row -> Row -> Prop) (key : Row -> list Z)
  (l : list Row) :
  StronglySorted R l -> StronglySorted R (keep_last key l).
Proof.
  induction 1 as [ | h t Ht IH Hh ]; simpl; [ constructor | ].
  destruct (existsb _ t); [ assumption | ].
  constructor; [ assumption | ].
  rewrite Forall_forall in *. intros s Hs. apply Hh.
  now apply keep_last_incl in Hs.
Qed.

Lemma keep_last_map_NoDup {B} (f : Row -> B) (key : Row -> list Z)
  (l : list Row) :
  NoDup (map f l) -> NoDup (map f (keep_last key l)).
Proof.
  induction l as [ | h t IH ]; simpl; [ easy | ].
  intros Hnd. inversion Hnd as [ | ? ? Hh Ht ]; subst.
  destruct (existsb _ t); [ auto | ].
  simpl. constructor; [ | auto ].
  intros Hin. apply Hh. apply in_map_iff in Hin as [s [E Hs]].
  apply keep_last_incl in Hs. rewrite <- E. now apply in_map.
Qed.

Lemma keep_last_id (key : Row -> list Z) (l : list Row) :
  NoDup (map key l) -> keep_last key l = l.
Proof.
  induction l as [ | h t IH ]; simpl; [ easy | ].
  intros Hnd. inversion Hnd as [ | ? ? Hh Ht ]; subst.
  destruct (existsb (fun r' => key_eqb (key r') (key h)) t) eqn:E.
  - exfalso. apply Hh. apply existsb_exists in E as [r' [Hr' Hk]].
    apply key_eqb_eq in Hk. rewrite <- Hk. now apply in_map.
  - now rewrite IH.
Qed.

Lemma keep_last_length_le (key : Row -> list Z) (l : list Row) :
  (length (keep_last key l) <= length l)%nat.
Proof.
  induction l as [ | h t IH ]; simpl; [ lia | ].
  destruct (existsb _ t); simpl; lia.
Qed.

Lemma lex_leb_antisym (a b : list Z) :
  lex_leb a b = true -> lex_leb b a = true -> a = b.
Proof.
  revert b. induction a as [ | x a IH ]; intros [ | y b ]; simpl; try easy.
  destruct (Z.ltb_spec x y), (Z.ltb_spec y x); try lia;
    destruct (Z.eqb_spec x y), (Z.eqb_spec y x); try easy; try lia.
  intros H1 H2. subst. f_equal. now apply IH.
Qed.

Lemma sorted_perm_unique {A} (R : A -> A -> Prop) (l l' : list A) :
  StronglySorted R l -> StronglySorted R l' -> Permutation l l' ->
  (forall a b, In a l -> In b l -> R a b -> R b a -> a = b) ->
  l = l'.
Proof.
  intros Hs. revert l'. induction Hs as [ | a t Ht IH Ha ]; intros l' Hs' Hp Hanti.
  - now apply Permutation_nil in Hp.
  - destruct l' as [ | a' t' ].
    + symmetry in Hp. now apply Permutation_nil in Hp.
    + assert (Haa : a = a').
      { assert (Hin : In a (a' :: t')) by (apply (Permutation_in a Hp); now left).
        assert (Hin' : In a' (a :: t))
          by (apply (Permutation_in a' (Permutation_sym Hp)); now left).
        destruct Hin as [E | Hin]; [ now subst | ].
        destruct Hin' as [E | Hin']; [ now subst | ].
        inversion Hs' as [ | ? ? _ Ha' ]; subst.
        rewrite Forall_forall in Ha, Ha'.
        apply Hanti; simpl; auto. }
      subst a'. f_equal.
      apply IH.
      * now inversion Hs'.
      * now apply Permutation_cons_inv in Hp.
      * intros x y Hx Hy. apply Hanti; simpl; auto.
Qed.

Lemma NoDup_map_inj_on {A B} (f : A -> B) (l : list A) (a b : A) :
  NoDup (map f l) -> In a l -> In b l -> f a = f b -> a = b.
Proof.
  induction l as [ | h t IH ]; simpl; [ easy | ].
  intros Hnd Ha Hb E. inversion Hnd as [ | ? ? Hh Ht ]; subst.
  destruct Ha as [-> | Ha], Hb as [-> | Hb]; auto.
  - exfalso. apply Hh. rewrite E. now apply in_map.
  - exfalso. apply Hh. rewrite <- E. now apply in_map.
Qed.

Lemma competition_rows_sorted (rng : list nat) (df : DataFrame)
  (by_cols : list colname) (max_col : colname) :
  StronglySorted
    (fun a b => row_leb df (by_cols ++ [max_col]) true a b = true)
    (competition_rows rng df by_cols max_col).
Proof.
  apply keep_last_sorted. apply stable_sort_sorted.
  - intros a b. apply lex_leb_total.
  - intros a b c. apply lex_leb_trans.
Qed.

Lemma competition_rows_incl (rng : list nat) (df : DataFrame)
  (by_cols : list colname) (max_col : colname) (s : Row) :
  In s (competition_rows rng df by_cols max_col) -> In s (rows df).
Proof.
  intros Hs. apply keep_last_incl in Hs.
  apply (Permutation_in s (stable_sort_perm _ _)) in Hs.
  now apply (Permutation_in s (shuffle_perm _ _)) in Hs.
Qed.

Lemma competition_rows_labels (rng : list nat) (df : DataFrame)
  (by_cols : list colname) (max_col : colname) :
  unique_index df ->
  NoDup (map label (competition_rows rng df by_cols max_col)).
Proof.
  intros Hu. apply keep_last_map_NoDup.
  apply (Permutation_NoDup (l := map label (rows df))); [ | exact Hu ].
  apply Permutation_map. symmetry.
  rewrite stable_sort_perm. apply shuffle_perm.
Qed.

Lemma competition_rows_length (rng : list nat) (df : DataFrame)
  (by_cols : list colname) (max_col : colname) :
  (length (competition_rows rng df by_cols max_col) <= nrows df)%nat.
Proof.
  unfold competition_rows, nrows.
  rewrite keep_last_length_le.
  rewrite (Permutation_length (stable_sort_perm _ _)).
  now rewrite (Permutation_length (shuffle_perm _ _)).
Qed.

(** A competition run on the rows a competition kept, with the same
    columns, keeps all of them, in the same order. *)
Lemma competition_rows_fixpoint (rng rng' : list nat) (df : DataFrame)
  (by_cols : list colname) (max_col : colname) :
  competition_rows rng'
    (mkDF (columns df) (competition_rows rng df by_cols max_col))
    by_cols max_col
  = competition_rows rng df by_cols max_col.
Proof.
  set (sel := competition_rows rng df by_cols max_col).
  assert (Hkeys : NoDup (map (key_of df by_cols) sel))
    by apply keep_last_keys_NoDup.
  unfold competition_rows at 1. simpl rows.
  change (key_of (mkDF (columns df) sel)) with (key_of df).
  change (row_leb (mkDF (columns df) sel)) with (row_leb df).
  assert (Hsame : stable_sort (row_leb df (by_cols ++ [max_col]) true)
                    (shuffle rng' sel) = sel).
  { symmetry.
    apply (sorted_perm_unique
             (fun a b => row_leb df (by_cols ++ [max_col]) true a b = true)).
    - apply competition_rows_sorted.
    - apply stable_sort_sorted.
      + intros a b. apply lex_leb_total.
      + intros a b c. apply lex_leb_trans.
    - symmetry. rewrite stable_sort_perm. apply shuffle_perm.
    - intros a b Ha Hb Hab Hba. unfold row_leb in Hab, Hba.
      pose proof (lex_leb_antisym _ _ Hab Hba) as E.
      unfold key_of in E. rewrite !map_app in E.
      apply app_inj_tail in E as [E _].
      now apply (NoDup_map_inj_on (key_of df by_cols) sel). }
  rewrite Hsame. now apply keep_last_id.
Qed.

Lemma perform_tdc_unique (rng : list nat) (self self1 : Confidence.t)
  (psm_columns : list colname) :
  unique_index (Confidence._data self) ->
  Confidence._perform_tdc rng self psm_columns = Ok self1 ->
  forallb (has_col (Confidence._data self))
    (psm_columns ++ [Confidence._score_column self]) = true /\
  self1 = Confidence.set_data self
            (mkDF (columns (Confidence._data self))
               (competition_rows rng (Confidence._data self) psm_columns
                  (Confidence._score_column self))).
Proof.
  intros Hu. unfold Confidence._perform_tdc, _groupby_max.
  rewrite groupby_max_frame_spec.
  destruct (forallb _ (psm_columns ++ _)) eqn:E; [ | discriminate ].
  simpl. unfold loc, index. simpl.
  rewrite (loc_rows_unique (rows (Confidence._data self))
             (competition_rows rng (Confidence._data self) psm_columns
                (Confidence._score_column self)) Hu)
    by apply competition_rows_incl.
  simpl. intros H. inversion H. auto.
Qed.

(** For every table whose index labels are distinct and every list of
    key columns, a competition that follows a successful competition with
    the same key columns and the same value column selects the index of
    every row it is given, in order, and leaves the table as it is. *)
Theorem tdc_idempotent_unique_index (rng rng' : list nat)
  (self self1 : Confidence.t) (psm_columns : list colname) :
  unique_index (Confidence._data self) ->
  Confidence._perform_tdc rng self psm_columns = Ok self1 ->
  _groupby_max rng' (Confidence._data self1) psm_columns
    (Confidence._score_column self1) = Ok (index (Confidence._data self1)) /\
  Confidence._perform_tdc rng' self1 psm_columns = Ok self1.
Proof.
  intros Hu H1.
  destruct (perform_tdc_unique rng self self1 psm_columns Hu H1) as [Hc ->].
  set (df := Confidence._data self) in *.
  set (score := Confidence._score_column self) in *.
  set (sel := competition_rows rng df psm_columns score).
  assert (Hg : _groupby_max rng' (mkDF (columns df) sel) psm_columns score
               = Ok (map label sel)).
  { unfold _groupby_max. rewrite groupby_max_frame_spec.
    change (has_col (mkDF (columns df) sel)) with (has_col df).
    rewrite Hc. simpl. unfold index. simpl.
    unfold sel. now rewrite competition_rows_fixpoint. }
  split.
  - exact Hg.
  - unfold Confidence._perform_tdc. simpl.
    fold df score sel. rewrite Hg. simpl. unfold loc. simpl.
    rewrite loc_rows_unique.
    + reflexivity.
    + now apply competition_rows_labels.
    + auto.
Qed.

(** The sample table has distinct index labels. *)
Lemma tdc_idempotent_unique_index_witness :
  _groupby_max [2; 7]%nat sample_competed [CStr "scan"] (CInt 2)
    = Ok [0; 3; 4] /\
  Confidence._perform_tdc [2; 7]%nat
    (Confidence.mk sample_competed (CInt 2) []) [CStr "scan"]
    = Ok (Confidence.mk sample_competed (CInt 2) []).
Proof.
  apply (tdc_idempotent_unique_index [3; 1; 4]%nat [2; 7]%nat
           (Confidence.mk sample_scored (CInt 2) [])
           (Confidence.mk sample_competed (CInt 2) [])
           [CStr "scan"]).
  - unfold unique_index, index. simpl.
    repeat (constructor; [ simpl; intuition discriminate | ]). constructor.
  - reflexivity.
Defined.

(** C9 at a failing input.  The table has three matches, two of them on
    spectrum 1 with the same score, and the index label 1 is carried by a
    match of spectrum 1 and by the match of spectrum 2.  The first
    competition selects the labels 0 and 1, and [.loc] returns both rows
    labelled 1: its output still has two rows of spectrum 1.  The second
    competition on that output, with the tie on spectrum 1 broken the
    other way, selects the label 1 twice: the row labelled 0, which the
    first competition kept, is gone, and the table has four rows instead
    of three. *)
Theorem tdc_not_idempotent_repeated_index :
  exists self1 self2 : Confidence.t,
    Confidence._perform_tdc [1; 0; 0]%nat tied_repeated_store [CStr "scan"]
      = Ok self1 /\
    Confidence._perform_tdc [0; 0; 0]%nat self1 [CStr "scan"] = Ok self2 /\
    rows (Confidence._data self1)
      = [mkRow 0 [1; 5]; mkRow 1 [1; 5]; mkRow 1 [2; 1]] /\
    map (key_of (Confidence._data self1) [CStr "scan"])
      (rows (Confidence._data self1)) = [[1]; [1]; [2]] /\
    rows (Confidence._data self2)
      = [mkRow 1 [1; 5]; mkRow 1 [2; 1]; mkRow 1 [1; 5]; mkRow 1 [2; 1]] /\
    In (mkRow 0 [1; 5]) (rows (Confidence._data self1)) /\
    ~ In (mkRow 0 [1; 5]) (rows (Confidence._data self2)).
Proof.
  eexists. eexists.
  split; [ vm_compute; reflexivity | ].
  split; [ vm_compute; reflexivity | ].
  split; [ reflexivity | ].
  split; [ reflexivity | ].
  split; [ reflexivity | ].
  split; [ simpl; auto | ].
  simpl. intros [H | [H | [H | [H | []]]]]; discriminate.
Qed.

(** ** The frames of the two levels *)

Lemma zip_rows_labels (f : Row -> Z -> Row) (rs : list Row) (vs : list Z) :
  (forall r v, label (f r v) = label r) ->
  length vs = length rs ->
  map label (zip_rows f rs vs) = map label rs.
Proof.
  intros Hf. revert vs. induction rs as [ | r rs IH ]; intros [ | v vs ];
    simpl; try easy.
  intros H. rewrite Hf. f_equal. apply IH. lia.
Qed.

Lemma zip_rows_length (f : Row -> Z -> Row) (rs : list Row) (vs : list Z) :
  length vs = length rs -> length (zip_rows f rs vs) = length rs.
Proof.
  revert vs. induction rs as [ | r rs IH ]; intros [ | v vs ]; simpl;
    try easy.
  intros H. f_equal. apply IH. lia.
Qed.

Lemma setitem_Ok (name : colname) (vals : list Z) (df df' : DataFrame) :
  setitem name vals df = Ok df' ->
  length vals = nrows df /\ index df' = index df /\ nrows df' = nrows df.
Proof.
  unfold setitem. destruct (Nat.eqb_spec (length vals) (nrows df)) as [E | ];
    [ | discriminate ].
  destruct (col_pos (columns df) name); intros H; inversion H; subst;
    unfold index, nrows; simpl;
    (split; [ exact E | split;
       [ now apply zip_rows_labels | now apply zip_rows_length ] ]).
Qed.

Lemma rbind_Ok {A B} (m : result A) (f : A -> result B) (b : B) :
  rbind m f = Ok b -> exists a, m = Ok a /\ f a = Ok b.
Proof. destruct m; simpl; [ eauto | discriminate ]. Qed.

Lemma linear_init_tdc_unique (rng : list nat) (psms : PsmDataset.t)
  (scores : list Z) (self : LinearConfidence.t) :
  unique_index (PsmDataset.metadata psms) ->
  LinearConfidence.init_tdc rng psms scores = Ok self ->
  unique_index (Confidence._data (LinearConfidence.base self)).
Proof.
  intros Hu H. unfold LinearConfidence.init_tdc, Confidence.__init__ in H.
  apply rbind_Ok in H as [b [Hb H]].
  apply rbind_Ok in Hb as [data [Hdata Hb]].
  apply rbind_Ok in Hb as [sc [_ Hb]]. inversion Hb; subst b; clear Hb.
  simpl in H.
  apply rbind_Ok in H as [data' [Hdata' H]].
  apply rbind_Ok in H as [tc [_ H]].
  apply rbind_Ok in H as [u [_ H]].
  apply rbind_Ok in H as [b' [Hb' H]]. inversion H; subst self; clear H.
  simpl in *.
  apply setitem_Ok in Hdata as [_ [Hi _]].
  apply setitem_Ok in Hdata' as [_ [Hi' _]].
  apply perform_tdc_unique in Hb' as [_ ->].
  - simpl. unfold unique_index, index. simpl.
    apply competition_rows_labels.
    unfold unique_index. simpl. rewrite Hi', Hi. exact Hu.
  - unfold unique_index. simpl. rewrite Hi', Hi. exact Hu.
Qed.

Lemma linear_level_frames_unique (rng : list nat) (self : LinearConfidence.t)
  (frames : DataFrame * DataFrame) :
  unique_index (Confidence._data (LinearConfidence.base self)) ->
  LinearConfidence.level_frames rng self = Ok frames ->
  frames =
    (Confidence._data (LinearConfidence.base self),
     mkDF (columns (Confidence._data (LinearConfidence.base self)))
       (competition_rows rng (Confidence._data (LinearConfidence.base self))
          (LinearConfidence._peptide_columns self)
          (Confidence._score_column (LinearConfidence.base self)))).
Proof.
  intros Hu. unfold LinearConfidence.level_frames, _groupby_max.
  rewrite groupby_max_frame_spec.
  destruct (forallb _ _); [ | discriminate ].
  simpl. unfold loc, index. simpl.
  rewrite (loc_rows_unique _ _ Hu) by apply competition_rows_incl.
  simpl. intros H. now inversion H.
Qed.

(** ** Level lookup *)

Lemma dict_get_None {V} (k : string) (d : list (string * V)) :
  ~ In k (map fst d) -> dict_get k d = None.
Proof.
  induction d as [ | [k' v] d IH ]; simpl; [ easy | ].
  intros H. destruct (String.eqb_spec k' k) as [E | _].
  - exfalso. apply H. now left.
  - apply IH. intros Hin. apply H. now right.
Qed.

(** C5.  For every store and every name that is not one of its computed
    levels, attribute access through [__getattr__] raises AttributeError;
    no table is returned. *)
Theorem getattr_unknown_level (self : Confidence.t) (attr : string) :
  ~ In attr (Confidence.levels self) ->
  Confidence.__getattr__ self attr = Err AttributeError.
Proof.
  intros H. unfold Confidence.__getattr__, Confidence.levels in *.
  now rewrite dict_get_None.
Qed.

(** A store that holds "csms" and "peptide_pairs" has no "peptides". *)
Lemma getattr_unknown_level_witness :
  Confidence.levels crosslinked_store = ["csms"; "peptide_pairs"]%string /\
  Confidence.__getattr__ crosslinked_store "peptides" = Err AttributeError.
Proof.
  split; [ reflexivity | ].
  apply (getattr_unknown_level crosslinked_store "peptides").
  simpl. intros [H | [H | []]]; discriminate H.
Defined.

(** ** Export paths *)

Lemma string_app_assoc (a b c : string) :
  ((a ++ b) ++ c = a ++ (b ++ c))%string.
Proof.
  induction a as [ | ch a IH ]; simpl; [ reflexivity | ]. now rewrite IH.
Qed.

Lemma os_path_join_app (dir a b : string) :
  a <> EmptyString ->
  os_path_join dir (a ++ b) = (os_path_join dir a ++ b)%string.
Proof.
  intros Ha. destruct a as [ | ch a ]; [ easy | ].
  unfold os_path_join. simpl.
  destruct (Ascii.eqb ch "/"); [ reflexivity | ].
  destruct dir as [ | d dir ]; [ reflexivity | ].
  destruct (endswith_sep (String d dir));
    now rewrite string_app_assoc.
Qed.

(** The file name the code builds is the path of the interface. *)
Lemma to_txt_path (dest_dir file_root : option string) (level : string) :
  (match dest_dir with
   | Some dir =>
       os_path_join dir
         match file_root with
         | Some root => root ++ "." ++ "mokapot"
         | None => "mokapot"
         end
   | None =>
       match file_root with
       | Some root => root ++ "." ++ "mokapot"
       | None => "mokapot"
       end
   end ++ "." ++ level ++ ".txt")%string
  = expected_path dest_dir file_root level.
Proof.
  unfold expected_path.
  assert (Hname : forall rest : string,
            (match file_root with
             | Some root => root ++ "." ++ "mokapot"
             | None => "mokapot"
             end ++ "." ++ rest
             = match file_root with
               | Some root => root ++ "."
               | None => ""
               end ++ "mokapot." ++ rest)%string).
  { intros rest. destruct file_root as [root | ]; [ | reflexivity ].
    now rewrite !string_app_assoc. }
  destruct dest_dir as [dir | ]; [ | apply Hname ].
  rewrite <- Hname. rewrite os_path_join_app; [ reflexivity | ].
  destruct file_root as [[ | ch root] | ]; discriminate.
Qed.

Lemma to_txt_loop_spec (E : Externals) (file_base sep : string)
  (items : list (string * DataFrame)) (out_files : list string) :
  (forall level table, In (level, table) items ->
     to_csv E table (file_base ++ "." ++ level ++ ".txt")%string sep = Ok tt) ->
  Confidence.to_txt_loop E file_base sep items out_files =
  (map (fun item => Call_to_csv (snd item)
                      (file_base ++ "." ++ fst item ++ ".txt")%string sep) items,
   Ok (out_files ++
       map (fun item => (file_base ++ "." ++ fst item ++ ".txt")%string) items)).
Proof.
  revert out_files. induction items as [ | [level table] items IH ];
    intros out_files H; simpl.
  - now rewrite app_nil_r.
  - pose proof (H level table (or_introl eq_refl)) as Hw.
    specialize (IH (out_files ++ [(file_base ++ "." ++ level ++ ".txt")%string])
                  (fun l t Hin => H l t (or_intror Hin))).
    simpl in Hw, IH. unfold bind, call_to_csv. rewrite Hw, IH.
    simpl. now rewrite <- app_assoc.
Qed.

(** C10.  For every store, when every write succeeds, [to_txt] writes one
    file per computed level, in the order of the levels, each to the path
    made of the directory (joined as [os.path.join] does, absent when
    [dest_dir] is None), the root and a dot (absent when [file_root] is
    None), "mokapot.", the level and ".txt", and it returns these paths
    in the same order. *)
Theorem to_txt_writes_one_file_per_level (E : Externals) (self : Confidence.t)
  (dest_dir file_root : option string) (sep : string) :
  (forall level table,
     In (level, table) (Confidence._confidence_estimates self) ->
     to_csv E table (expected_path dest_dir file_root level) sep = Ok tt) ->
  Confidence.to_txt E self dest_dir file_root sep =
  (map (fun item => Call_to_csv (snd item)
                      (expected_path dest_dir file_root (fst item)) sep)
     (Confidence._confidence_estimates self),
   Ok (map (expected_path dest_dir file_root) (Confidence.levels self))).
Proof.
  intros H. unfold Confidence.to_txt, Confidence.levels. cbv zeta.
  rewrite to_txt_loop_spec.
  - rewrite app_nil_l. f_equal.
    + apply map_ext. intros item. now rewrite to_txt_path.
    + f_equal. rewrite map_map. apply map_ext. intros item.
      now rewrite to_txt_path.
  - intros level table Hin. rewrite to_txt_path. now apply H.
Qed.

(** The two levels of a cross-linked store, written under "out" with the
    root "run". *)
Lemma to_txt_writes_one_file_per_level_witness :
  Confidence.to_txt sample_externals crosslinked_store
    (Some "out"%string) (Some "run"%string) ","%string =
  ([Call_to_csv sample_metadata "out/run.mokapot.csms.txt" ",";
    Call_to_csv sample_metadata "out/run.mokapot.peptide_pairs.txt" ","],
   Ok ["out/run.mokapot.csms.txt"; "out/run.mokapot.peptide_pairs.txt"])%string.
Proof.
  apply (to_txt_writes_one_file_per_level sample_externals crosslinked_store
           (Some "out"%string) (Some "run"%string) ","%string).
  intros level table _. reflexivity.
Defined.

(** With a directory that is not empty and does not end in a slash, and a
    root that does not start with one, the path is the plain
    concatenation. *)
Lemma expected_path_plain (dir root level : string) :
  dir <> EmptyString -> endswith_sep dir = false ->
  startswith_sep root = false ->
  expected_path (Some dir) (Some root) level
  = (dir ++ "/" ++ root ++ "." ++ "mokapot." ++ level ++ ".txt")%string.
Proof.
  intros Hd He Hr. unfold expected_path, os_path_join.
  assert (Hs : startswith_sep ((root ++ ".") ++ "mokapot." ++ level ++ ".txt")
               = false).
  { destruct root as [ | ch root ]; [ reflexivity | exact Hr ]. }
  rewrite Hs, He. destruct dir; [ easy | ].
  now rewrite (string_app_assoc root).
Qed.

(** ** The cross-linked pipeline: what the primitives are called with *)

(** One step of a computation that makes no external call. *)
Ltac lift_step :=
  cbv beta iota; rewrite ?trace_bind, ?outcome_bind, ?outcome_lift, ?trace_lift;
  cbn [app].

Lemma mask_eq_int_2 {A} (m : list bool) (l : list A) :
  mask (eq_int m 2) l = [].
Proof.
  revert l. induction m as [ | b m IH ]; intros [ | x l ]; simpl; try easy.
  destruct b; simpl; apply IH.
Qed.

Lemma column_values_Ok (c : colname) (df : DataFrame) (vs : list Z) :
  column_values c df = Ok vs ->
  In c (columns df) /\ vs = map (fun r => get df r c) (rows df).
Proof.
  unfold column_values, require_cols. simpl.
  destruct (has_col df c) eqn:E; [ | discriminate ].
  simpl. intros H. inversion H. split; [ now apply has_col_In | reflexivity ].
Qed.

Lemma astype_bool_labels (df : DataFrame) (c : colname) (rs : list Row) :
  Forall2 (fun b r => b = true <-> get df r c <> 0)
    (astype_bool (map (fun r => get df r c) rs)) rs.
Proof.
  induction rs as [ | r rs IH ]; simpl; constructor; [ | exact IH ].
  destruct (Z.eqb_spec (get df r c) 0) as [E | E]; simpl; split; easy.
Qed.

(** The calls one pass of the loop makes: the q-value primitive on the
    scores and the boolean labels of the frame, then the PEP primitive
    with no positive score at all. *)
Lemma crosslinked_assign_level_trace (E : Externals)
  (self : CrossLinkedConfidence.t) (desc : bool) (data : DataFrame) (c : call) :
  In c (trace (CrossLinkedConfidence.assign_level E self desc data)) ->
  crosslink_call_for (Confidence._score_column (CrossLinkedConfidence.base self))
    (CrossLinkedConfidence._target_column self) desc data c \/
  exists neg, c = Call_getQvaluesFromScores [] neg.
Proof.
  unfold CrossLinkedConfidence.assign_level. cbv zeta.
  lift_step.
  destruct (column_values _ data) as [scores | ] eqn:Hs; [ | easy ].
  lift_step.
  destruct (column_values (CrossLinkedConfidence._target_column self) data)
    as [labels | ] eqn:Hl; [ | easy ].
  apply column_values_Ok in Hs as [_ ->].
  apply column_values_Ok in Hl as [_ ->].
  cbv beta iota. rewrite trace_bind.
  intros Hin. apply in_app_or in Hin as [Hin | Hin].
  - left. destruct Hin as [<- | []]. simpl.
    split; [ reflexivity | ]. split; [ reflexivity | ].
    apply astype_bool_labels.
  - right. revert Hin.
    destruct (outcome (call_crosslink_tdc _ _ _ _)); [ | easy ].
    lift_step. destruct (setitem _ _ data); [ | easy ].
    lift_step. destruct (sort_values _ _ _); [ | easy ].
    lift_step. destruct (drop _ _); [ | easy ].
    cbv beta iota. rewrite trace_bind, mask_eq_int_2.
    intros Hin. apply in_app_or in Hin as [Hin | Hin].
    + destruct Hin as [<- | []]. eauto.
    + revert Hin.
      destruct (outcome (call_getQvaluesFromScores _ _ _)); [ | easy ].
      lift_step. destruct (setitem _ _ _); easy.
Qed.

(** Every call the constructor makes comes from one of the two passes,
    over the PSM-level frame or over the peptide-pair frame. *)
Lemma crosslinked_init_trace (E : Externals) (rng1 rng2 : list nat)
  (psms : PsmDataset.t) (scores : list Z) (desc : bool) (c : call) :
  In c (trace (CrossLinkedConfidence.__init__ E rng1 rng2 psms scores desc)) ->
  exists self self' frames data,
    CrossLinkedConfidence.init_tdc rng1 psms scores = Ok self /\
    CrossLinkedConfidence.level_frames rng2 self = Ok frames /\
    (data = fst frames \/ data = snd frames) /\
    Confidence._score_column (CrossLinkedConfidence.base self')
      = Confidence._score_column (CrossLinkedConfidence.base self) /\
    CrossLinkedConfidence._target_column self'
      = CrossLinkedConfidence._target_column self /\
    In c (trace (CrossLinkedConfidence.assign_level E self' desc data)).
Proof.
  unfold CrossLinkedConfidence.__init__.
  rewrite trace_bind, outcome_lift, trace_lift. cbn [app].
  destruct (CrossLinkedConfidence.init_tdc rng1 psms scores) as [self | ];
    [ | easy ].
  unfold CrossLinkedConfidence._assign_confidence.
  rewrite trace_bind, outcome_lift, trace_lift. cbn [app].
  destruct (CrossLinkedConfidence.level_frames rng2 self) as [frames | ] eqn:Hf;
    [ | easy ].
  rewrite trace_bind. intros Hin. apply in_app_or in Hin as [Hin | Hin].
  - exists self, self, frames, (fst frames).
    split; [ reflexivity | ]. split; [ exact Hf | ].
    split; [ now left | ]. split; [ reflexivity | ]. split; [ reflexivity | exact Hin ].
  - revert Hin.
    destruct (outcome (CrossLinkedConfidence.assign_level E self desc (fst frames)))
      as [r1 | ]; [ | easy ].
    rewrite trace_bind. intros Hin. apply in_app_or in Hin as [Hin | Hin].
    + eexists self, _, frames, (snd frames).
      split; [ reflexivity | ]. split; [ exact Hf | ].
      split; [ now right | ]. split; [ reflexivity | ]. split; [ reflexivity | exact Hin ].
    + revert Hin.
      destruct (outcome (CrossLinkedConfidence.assign_level E _ desc (snd frames)));
        easy.
Qed.

Lemma last_column_In (df : DataFrame) (c : colname) :
  last_column df = Ok c -> In c (columns df).
Proof.
  unfold last_column. destruct (rev (columns df)) as [ | x l ] eqn:E;
    [ discriminate | ].
  intros H. inversion H; subst x. apply in_rev. rewrite E. now left.
Qed.

Lemma setitem_keeps_columns (name : colname) (vals : list Z)
  (df df' : DataFrame) (c : colname) :
  setitem name vals df = Ok df' -> In c (columns df) -> In c (columns df').
Proof.
  unfold setitem. destruct (Nat.eqb _ _); [ | discriminate ].
  destruct (col_pos (columns df) name); intros H Hc; inversion H; subst;
    cbn [columns]; [ exact Hc | apply in_or_app; now left ].
Qed.

Lemma loc_columns (idx : list Z) (df df' : DataFrame) :
  loc idx df = Ok df' -> columns df' = columns df.
Proof.
  unfold loc. intros H. apply rbind_Ok in H as [rs [_ H]]. now inversion H.
Qed.

(** When the competition on spectra is over, the score column and the
    label column are columns of the table, and of the table of the
    peptide pairs. *)
Lemma crosslinked_frames_columns (rng1 rng2 : list nat) (psms : PsmDataset.t)
  (scores : list Z) (self : CrossLinkedConfidence.t)
  (frames : DataFrame * DataFrame) :
  CrossLinkedConfidence.init_tdc rng1 psms scores = Ok self ->
  CrossLinkedConfidence.level_frames rng2 self = Ok frames ->
  forall data, data = fst frames \/ data = snd frames ->
    In (Confidence._score_column (CrossLinkedConfidence.base self))
      (columns data) /\
    In (CrossLinkedConfidence._target_column self) (columns data).
Proof.
  intros Hinit Hframes.
  assert (Hself :
    In (Confidence._score_column (CrossLinkedConfidence.base self))
      (columns (Confidence._data (CrossLinkedConfidence.base self))) /\
    In (CrossLinkedConfidence._target_column self)
      (columns (Confidence._data (CrossLinkedConfidence.base self)))).
  { unfold CrossLinkedConfidence.init_tdc, Confidence.__init__ in Hinit.
    apply rbind_Ok in Hinit as [b [Hb H]].
    apply rbind_Ok in Hb as [data0 [Hd0 Hb]].
    apply rbind_Ok in Hb as [sc [Hsc Hb]]. inversion Hb; subst b; clear Hb.
    cbn [Confidence._data] in H.
    apply rbind_Ok in H as [data1 [Hd1 H]].
    apply rbind_Ok in H as [tc [Htc H]].
    apply rbind_Ok in H as [b' [Hb' H]]. inversion H; subst self; clear H.
    unfold Confidence._perform_tdc in Hb'. cbn in Hb'.
    apply rbind_Ok in Hb' as [idx [_ Hb']].
    apply rbind_Ok in Hb' as [d [Hd Hb']]. inversion Hb'; subst b'; clear Hb'.
    cbn. rewrite (loc_columns idx data1 d Hd). split.
    - apply (setitem_keeps_columns _ _ data0 data1 sc Hd1).
      now apply last_column_In.
    - now apply last_column_In. }
  unfold CrossLinkedConfidence.level_frames in Hframes.
  apply rbind_Ok in Hframes as [idx [_ H]].
  apply rbind_Ok in H as [peptides [Hp H]]. inversion H; subst frames; clear H.
  cbn [fst snd]. intros data [-> | ->]; [ exact Hself | ].
  now rewrite (loc_columns idx _ peptides Hp).
Qed.

(** A pass of the loop over a frame that has the score column and the
    label column starts with the call of the q-value primitive. *)
Lemma crosslinked_assign_level_first_call (E : Externals)
  (self : CrossLinkedConfidence.t) (desc : bool) (data : DataFrame) :
  In (Confidence._score_column (CrossLinkedConfidence.base self))
    (columns data) ->
  In (CrossLinkedConfidence._target_column self) (columns data) ->
  exists rest,
    trace (CrossLinkedConfidence.assign_level E self desc data)
    = Call_crosslink_tdc
        (map (fun r => get data r
                         (Confidence._score_column
                            (CrossLinkedConfidence.base self)))
           (rows data))
        (astype_bool
           (map (fun r => get data r (CrossLinkedConfidence._target_column self))
              (rows data)))
        desc :: rest.
Proof.
  intros Hs Ht. unfold CrossLinkedConfidence.assign_level. cbv zeta.
  unfold column_values, require_cols. cbn [forallb].
  rewrite (proj2 (has_col_In data _) Hs), (proj2 (has_col_In data _) Ht).
  cbn [andb]. lift_step. lift_step.
  cbv beta iota. rewrite trace_bind.
  unfold call_crosslink_tdc at 1. unfold trace at 1. cbn [fst app].
  eexists. reflexivity.
Qed.

(** C7.  Once the competition on spectra is over and the frame of the
    peptide pairs is derived, the constructor of CrossLinkedConfidence
    calls the cross-link q-value primitive: the first call it makes is
    that call for the frame of the PSMs, and when the pass over the PSMs
    succeeds the call for the frame of the peptide pairs follows.  Every
    such call has the scores of its frame, the direction of the caller,
    and a label vector that is true exactly at the rows whose ternary
    label is not zero: 0 is a decoy, 1 and 2 are both targets. *)
Theorem crosslink_qvalue_labels_nonzero (E : Externals) (rng1 rng2 : list nat)
  (psms : PsmDataset.t) (scores : list Z) (desc : bool)
  (self : CrossLinkedConfidence.t) (frames : DataFrame * DataFrame) :
  CrossLinkedConfidence.init_tdc rng1 psms scores = Ok self ->
  CrossLinkedConfidence.level_frames rng2 self = Ok frames ->
  (exists c rest,
     trace (CrossLinkedConfidence.__init__ E rng1 rng2 psms scores desc)
       = c :: rest /\
     crosslink_call_for
       (Confidence._score_column (CrossLinkedConfidence.base self))
       (CrossLinkedConfidence._target_column self) desc (fst frames) c) /\
  (forall r1,
     outcome (CrossLinkedConfidence.assign_level E self desc (fst frames))
       = Ok r1 ->
     exists c,
       In c (trace (CrossLinkedConfidence.__init__ E rng1 rng2 psms scores
                      desc)) /\
       crosslink_call_for
         (Confidence._score_column (CrossLinkedConfidence.base self))
         (CrossLinkedConfidence._target_column self) desc (snd frames) c) /\
  Forall
    (fun c =>
       match c with
       | Call_crosslink_tdc _ _ _ =>
           exists data,
             (data = fst frames \/ data = snd frames) /\
             crosslink_call_for
               (Confidence._score_column (CrossLinkedConfidence.base self))
               (CrossLinkedConfidence._target_column self) desc data c
       | _ => True
       end)
    (trace (CrossLinkedConfidence.__init__ E rng1 rng2 psms scores desc)).
Proof.
  intros Hinit Hframes.
  pose proof (crosslinked_frames_columns rng1 rng2 psms scores self frames
                Hinit Hframes) as Hcols.
  destruct (Hcols (fst frames) (or_introl eq_refl)) as [Hs1 Ht1].
  destruct (Hcols (snd frames) (or_intror eq_refl)) as [Hs2 Ht2].
  assert (Htrace :
    trace (CrossLinkedConfidence.__init__ E rng1 rng2 psms scores desc)
    = trace (CrossLinkedConfidence.assign_level E self desc (fst frames)) ++
      match outcome (CrossLinkedConfidence.assign_level E self desc (fst frames))
      with
      | Ok r1 =>
          trace (CrossLinkedConfidence.assign_level E
                   (CrossLinkedConfidence.set_base self
                      (Confidence.set_estimate
                         (Confidence.set_data
                            (CrossLinkedConfidence.base self) (fst r1))
                         "csms" (snd r1)))
                   desc (snd frames))
      | Err _ => []
      end).
  { unfold CrossLinkedConfidence.__init__.
    rewrite trace_bind, outcome_lift, trace_lift, Hinit. cbn [app].
    unfold CrossLinkedConfidence._assign_confidence.
    rewrite trace_bind, outcome_lift, trace_lift, Hframes. cbn [app].
    rewrite trace_bind. f_equal.
    destruct (outcome (CrossLinkedConfidence.assign_level E self desc
                         (fst frames))) as [r1 | ]; [ | reflexivity ].
    rewrite trace_bind.
    destruct (outcome (CrossLinkedConfidence.assign_level E _ desc
                         (snd frames))); cbn; now rewrite app_nil_r. }
  split; [ | split ].
  - destruct (crosslinked_assign_level_first_call E self desc (fst frames)
                Hs1 Ht1) as [rest Hrest].
    rewrite Htrace, Hrest. eexists. eexists. split; [ reflexivity | ].
    simpl. split; [ reflexivity | ]. split; [ reflexivity | ].
    apply astype_bool_labels.
  - intros r1 Hr1. rewrite Htrace, Hr1.
    destruct (crosslinked_assign_level_first_call E
                (CrossLinkedConfidence.set_base self
                   (Confidence.set_estimate
                      (Confidence.set_data
                         (CrossLinkedConfidence.base self) (fst r1))
                      "csms" (snd r1)))
                desc (snd frames) Hs2 Ht2) as [rest Hrest].
    rewrite Hrest. eexists. split.
    + apply in_or_app. right. now left.
    + simpl. split; [ reflexivity | ]. split; [ reflexivity | ].
      apply astype_bool_labels.
  - apply Forall_forall. intros c Hin.
    destruct (crosslinked_init_trace _ _ _ _ _ _ _ Hin)
      as [self0 [self' [frames0 [data [Hi [Hf [Hd [Hsc [Htc Hc]]]]]]]]].
    rewrite Hinit in Hi. inversion Hi; subst self0; clear Hi.
    rewrite Hframes in Hf. inversion Hf; subst frames0; clear Hf.
    apply crosslinked_assign_level_trace in Hc. rewrite Hsc, Htc in Hc.
    destruct c; try exact I.
    destruct Hc as [Hc | [neg Hc]]; [ | discriminate Hc ].
    exists data. auto.
Qed.

(** The sample dataset with the labels 2, 0, 1, 0, 2: the rows that
    survive the competition on spectra carry the labels 2, 0, 2, and the
    first call of the constructor hands the primitive their scores with
    the labels true, false, true. *)
Lemma crosslink_qvalue_labels_nonzero_witness :
  exists (self : CrossLinkedConfidence.t) (frames : DataFrame * DataFrame),
    CrossLinkedConfidence.init_tdc [3; 1; 4]%nat sample_crosslinked
      sample_scores = Ok self /\
    CrossLinkedConfidence.level_frames [2; 7]%nat self = Ok frames /\
    exists c rest,
      trace (CrossLinkedConfidence.__init__ sample_externals [3; 1; 4]%nat
               [2; 7]%nat sample_crosslinked sample_scores true)
        = c :: rest /\
      crosslink_call_for
        (Confidence._score_column (CrossLinkedConfidence.base self))
        (CrossLinkedConfidence._target_column self) true (fst frames) c.
Proof.
  destruct (CrossLinkedConfidence.init_tdc [3; 1; 4]%nat sample_crosslinked
              sample_scores) as [self | e] eqn:Hself; [ | discriminate Hself ].
  destruct (CrossLinkedConfidence.level_frames [2; 7]%nat self)
    as [frames | e] eqn:Hframes;
    [ | vm_compute in Hself; inversion Hself; subst self;
        discriminate Hframes ].
  exists self, frames. split; [ reflexivity | ]. split; [ exact Hframes | ].
  exact (proj1 (crosslink_qvalue_labels_nonzero sample_externals
                  [3; 1; 4]%nat [2; 7]%nat sample_crosslinked sample_scores
                  true self frames Hself Hframes)).
Defined.

(** The call on the sample dataset, written out: the scores 5, 7, 1 with
    the labels true, false, true. *)
Lemma crosslink_qvalue_call_sample :
  In (Call_crosslink_tdc [5; 7; 1] [true; false; true] true)
    (trace (CrossLinkedConfidence.__init__ sample_externals [3; 1; 4]%nat
              [2; 7]%nat sample_crosslinked sample_scores true)).
Proof. vm_compute. auto. Qed.

(** In the cross-linked pipeline the positive sample of every call of the
    PEP primitive is empty: [targets] is a boolean array, and no boolean
    equals 2. *)
Lemma crosslinked_pep_positive_sample_empty (E : Externals)
  (rng1 rng2 : list nat) (psms : PsmDataset.t) (scores : list Z) (desc : bool) :
  Forall
    (fun c =>
       match c with
       | Call_getQvaluesFromScores pos _ => pos = []
       | _ => True
       end)
    (trace (CrossLinkedConfidence.__init__ E rng1 rng2 psms scores desc)).
Proof.
  apply Forall_forall. intros c Hin.
  destruct (crosslinked_init_trace _ _ _ _ _ _ _ Hin)
    as [self [self' [frames [data [_ [_ [_ [_ [_ Hc]]]]]]]]].
  apply crosslinked_assign_level_trace in Hc.
  destruct Hc as [Hc | [neg ->]]; [ | reflexivity ].
  destruct c; try exact I. destruct Hc.
Qed.

(** C2 at a failing input.  On the sample dataset with the labels
    2, 0, 1, 0, 2 the competition on spectra leaves the rows labelled
    2, 0, 2 with the scores 5, 7, 1.  The fully-target rows have the scores
    5 and 1, yet the PEP primitive is called with no positive score; the
    negative sample is the score of the decoy row. *)
Theorem crosslinked_pep_call_sample :
  exists self : CrossLinkedConfidence.t,
    CrossLinkedConfidence.init_tdc [3; 1; 4]%nat sample_crosslinked
      sample_scores = Ok self /\
    scores_with_label
      (Confidence._score_column (CrossLinkedConfidence.base self))
      (CrossLinkedConfidence._target_column self) 2
      (Confidence._data (CrossLinkedConfidence.base self)) = [5; 1] /\
    scores_with_label
      (Confidence._score_column (CrossLinkedConfidence.base self))
      (CrossLinkedConfidence._target_column self) 0
      (Confidence._data (CrossLinkedConfidence.base self)) = [7] /\
    trace (CrossLinkedConfidence.__init__ sample_externals [3; 1; 4]%nat
             [2; 7]%nat sample_crosslinked sample_scores true)
    = [Call_crosslink_tdc [5; 7; 1] [true; false; true] true;
       Call_getQvaluesFromScores [] [7]].
Proof.
  eexists. split; [ vm_compute; reflexivity | ].
  split; [ reflexivity | ]. split; reflexivity.
Qed.

(** ** Degenerate samples *)

Lemma mask_invert_no_decoys {A} (g : Row -> Z) (rs : list Row) (l : list A) :
  (forall r, In r rs -> g r <> 0) ->
  mask (invert (astype_bool (map g rs))) l = [].
Proof.
  revert l. induction rs as [ | r rs IH ]; intros l H; simpl; [ easy | ].
  destruct l as [ | x l ]; [ reflexivity | ].
  destruct (Z.eqb_spec (g r) 0) as [E | _]; simpl.
  - exfalso. exact (H r (or_introl eq_refl) E).
  - apply IH. intros r' Hr'. apply H. now right.
Qed.

Lemma mask_astype_nonempty {A} (g : Row -> Z) (rs : list Row) (l : list A) :
  length l = length rs ->
  (exists r, In r rs /\ g r <> 0) ->
  (0 < length (mask (astype_bool (map g rs)) l))%nat.
Proof.
  revert l. induction rs as [ | r rs IH ]; intros [ | x l ]; simpl;
    try easy; intros Hlen [r' [Hin Hr']].
  - destruct Hin as [].
  - destruct (Z.eqb_spec (g r) 0) as [E | _]; simpl; [ | lia ].
    apply IH; [ lia | ].
    destruct Hin as [-> | Hin]; [ easy | eauto ].
Qed.

Lemma sort_values_nrows (by_ : list colname) (asc : bool)
  (df df' : DataFrame) :
  sort_values by_ asc df = Ok df' -> nrows df' = nrows df.
Proof.
  unfold sort_values, require_cols. destruct (forallb _ _); [ | discriminate ].
  intros H. inversion H. unfold nrows. simpl.
  apply Permutation_length, stable_sort_perm.
Qed.

Lemma relabel_length (n : Z) (rs : list Row) :
  length (relabel n rs) = length rs.
Proof.
  revert n. induction rs as [ | r rs IH ]; intros n; simpl; [ easy | ].
  now rewrite IH.
Qed.

Lemma drop_nrows (c : colname) (df df' : DataFrame) :
  drop c df = Ok df' -> nrows df' = nrows df.
Proof.
  unfold drop. destruct (col_pos _ _); [ | discriminate ].
  intros H. inversion H. unfold nrows. simpl. apply length_map.
Qed.

(** One pass of the linear loop over a frame without decoys ends in the
    error of the PEP primitive, unless an earlier step already failed. *)
Lemma linear_assign_level_no_decoys (E : Externals)
  (self : LinearConfidence.t) (desc : bool) (data : DataFrame) :
  pep_rejects_degenerate E ->
  no_decoys (LinearConfidence._target_column self) data ->
  exists e, outcome (LinearConfidence.assign_level E self desc data) = Err e.
Proof.
  intros Hpep Hnd. unfold LinearConfidence.assign_level. cbv zeta.
  lift_step.
  destruct (column_values _ data) as [scores | ] eqn:Hs; [ | eauto ].
  lift_step.
  destruct (column_values (LinearConfidence._target_column self) data)
    as [labels | ] eqn:Hl; [ | eauto ].
  apply column_values_Ok in Hl as [_ ->].
  lift_step.
  destruct (outcome (call_tdc _ _ _ _)); [ | eauto ].
  lift_step. destruct (setitem _ _ data); [ | eauto ].
  lift_step. destruct (sort_values _ _ _); [ | eauto ].
  lift_step. destruct (drop _ _); [ | eauto ].
  lift_step. rewrite mask_invert_no_decoys by exact Hnd.
  unfold call_getQvaluesFromScores, outcome at 1. cbn [snd].
  destruct (Hpep (mask (astype_bool
                          (map (fun r => get data r (LinearConfidence._target_column self))
                             (rows data))) scores) [])
    as [e ->]; eauto.
Qed.

(** C3.  Let the PEP primitive reject a degenerate sample, as its contract
    says.  For every input to LinearConfidence whose rows after the
    competition on spectra, or whose peptide-level rows, hold no decoy,
    the constructor ends in an error; it returns no result tables. *)
Theorem linear_zero_decoys_is_error (E : Externals) (rng1 rng2 : list nat)
  (psms : PsmDataset.t) (scores : list Z) (desc : bool)
  (self : LinearConfidence.t) (frames : DataFrame * DataFrame) :
  pep_rejects_degenerate E ->
  LinearConfidence.init_tdc rng1 psms scores = Ok self ->
  LinearConfidence.level_frames rng2 self = Ok frames ->
  no_decoys (LinearConfidence._target_column self) (fst frames) \/
  no_decoys (LinearConfidence._target_column self) (snd frames) ->
  exists e,
    outcome (LinearConfidence.__init__ E rng1 rng2 psms scores desc) = Err e.
Proof.
  intros Hpep Hinit Hframes Hnd.
  unfold LinearConfidence.__init__.
  rewrite outcome_bind, outcome_lift, Hinit.
  unfold LinearConfidence._assign_confidence.
  rewrite outcome_bind, outcome_lift, Hframes.
  rewrite outcome_bind.
  destruct (outcome (LinearConfidence.assign_level E self desc (fst frames)))
    as [r1 | e1] eqn:H1; [ | eauto ].
  destruct Hnd as [Hnd | Hnd].
  - destruct (linear_assign_level_no_decoys E self desc (fst frames) Hpep Hnd)
      as [e He]. congruence.
  - rewrite outcome_bind.
    match goal with
    | |- context [LinearConfidence.assign_level E ?s desc (snd frames)] =>
        destruct (linear_assign_level_no_decoys E s desc (snd frames) Hpep Hnd)
          as [e ->]
    end.
    eauto.
Qed.

Lemma sample_externals_reject_degenerate :
  pep_rejects_degenerate sample_externals.
Proof.
  intros pos neg [-> | ->]; simpl.
  - eauto.
  - destruct pos; eauto.
Qed.

(** The sample dataset with only target labels: three PSM rows, no decoy
    among them, and the constructor raises. *)
Lemma linear_zero_decoys_is_error_witness :
  exists e,
    outcome (LinearConfidence.__init__ sample_externals [3; 1; 4]%nat
               [2; 7]%nat sample_targets_only sample_scores true) = Err e.
Proof.
  eapply (linear_zero_decoys_is_error sample_externals [3; 1; 4]%nat
            [2; 7]%nat sample_targets_only sample_scores true).
  - exact sample_externals_reject_degenerate.
  - vm_compute. reflexivity.
  - vm_compute. reflexivity.
  - left. intros r Hr. simpl in Hr.
    destruct Hr as [<- | [<- | [<- | []]]]; vm_compute; discriminate.
Defined.

(** ** The cross-linked constructor fails *)

Lemma crosslinked_level_frames_fst (rng : list nat)
  (self : CrossLinkedConfidence.t) (frames : DataFrame * DataFrame) :
  CrossLinkedConfidence.level_frames rng self = Ok frames ->
  fst frames = Confidence._data (CrossLinkedConfidence.base self).
Proof.
  unfold CrossLinkedConfidence.level_frames. intros H.
  apply rbind_Ok in H as [idx [_ H]].
  apply rbind_Ok in H as [peptides [_ H]].
  now inversion H.
Qed.

(** One pass of the cross-linked loop over a frame that holds a row with a
    non-zero label fails: the PEP primitive gets no positive score, and
    whatever it returns for none cannot fill the rows of the table. *)
Lemma crosslinked_assign_level_fails (E : Externals)
  (self : CrossLinkedConfidence.t) (desc : bool) (data : DataFrame) :
  pep_aligned E ->
  (exists r, In r (rows data) /\
             get data r (CrossLinkedConfidence._target_column self) <> 0) ->
  exists e,
    outcome (CrossLinkedConfidence.assign_level E self desc data) = Err e.
Proof.
  intros Hpep Hex. unfold CrossLinkedConfidence.assign_level. cbv zeta.
  lift_step.
  destruct (column_values _ data) as [scores | ] eqn:Hs; [ | eauto ].
  lift_step.
  destruct (column_values (CrossLinkedConfidence._target_column self) data)
    as [labels | ] eqn:Hl; [ | eauto ].
  apply column_values_Ok in Hl as [_ ->].
  lift_step.
  destruct (outcome (call_crosslink_tdc _ _ _ _)) as [qvals | ]; [ | eauto ].
  lift_step.
  destruct (setitem _ qvals data) as [data_q | ] eqn:Hq; [ | eauto ].
  lift_step.
  destruct (sort_values _ _ _) as [sorted | ] eqn:Hsort; [ | eauto ].
  lift_step.
  destruct (drop _ _) as [dropped | ] eqn:Hdrop; [ | eauto ].
  lift_step. rewrite mask_eq_int_2.
  unfold call_getQvaluesFromScores, outcome at 1. cbn [snd].
  destruct (qvality_getQvaluesFromScores E [] _) as [[q pep] | ] eqn:Hcall;
    [ | eauto ].
  apply Hpep in Hcall. simpl in Hcall.
  lift_step. cbn [snd].
  assert (Hn : (0 < nrows dropped)%nat).
  { apply drop_nrows in Hdrop. rewrite Hdrop.
    unfold reset_index, nrows. simpl. rewrite relabel_length.
    apply sort_values_nrows in Hsort. unfold nrows in Hsort. rewrite Hsort.
    simpl. apply setitem_Ok in Hq as [_ [_ Hq]].
    apply mask_astype_nonempty; [ exact Hq | exact Hex ]. }
  unfold setitem, rename. unfold nrows in *. simpl.
  destruct pep; [ | discriminate Hcall ].
  destruct (rows dropped); [ simpl in Hn; lia | ].
  simpl. eauto.
Qed.

(** C4 fails whenever a row with a non-zero label survives the competition
    on spectra, for every PEP primitive that returns one value per
    positive score: the constructor of CrossLinkedConfidence ends in an
    error. *)
Theorem crosslinked_construction_fails (E : Externals) (rng1 rng2 : list nat)
  (psms : PsmDataset.t) (scores : list Z) (desc : bool)
  (self : CrossLinkedConfidence.t) :
  pep_aligned E ->
  CrossLinkedConfidence.init_tdc rng1 psms scores = Ok self ->
  (exists r,
     In r (rows (Confidence._data (CrossLinkedConfidence.base self))) /\
     get (Confidence._data (CrossLinkedConfidence.base self)) r
       (CrossLinkedConfidence._target_column self) <> 0) ->
  exists e,
    outcome (CrossLinkedConfidence.__init__ E rng1 rng2 psms scores desc)
      = Err e.
Proof.
  intros Hpep Hinit Hex.
  unfold CrossLinkedConfidence.__init__.
  rewrite outcome_bind, outcome_lift, Hinit.
  unfold CrossLinkedConfidence._assign_confidence.
  rewrite outcome_bind, outcome_lift.
  destruct (CrossLinkedConfidence.level_frames rng2 self) as [frames | ] eqn:Hf;
    [ | eauto ].
  rewrite outcome_bind.
  rewrite (crosslinked_level_frames_fst rng2 self frames Hf).
  destruct (crosslinked_assign_level_fails E self desc _ Hpep Hex) as [e ->].
  eauto.
Qed.

Lemma lenient_externals_aligned : pep_aligned lenient_externals.
Proof.
  intros pos neg q pep H. simpl in H. inversion H. apply length_map.
Qed.

(** On the sample dataset with the labels 2, 0, 1, 0, 1 a row labelled 1
    survives the competition on spectra, and the constructor raises even
    with a PEP primitive that accepts every sample. *)
Lemma crosslinked_construction_fails_witness :
  exists e,
    outcome (CrossLinkedConfidence.__init__ lenient_externals [3; 1; 4]%nat
               [2; 7]%nat sample_crosslinked_mixed sample_scores true)
      = Err e.
Proof.
  eapply (crosslinked_construction_fails lenient_externals [3; 1; 4]%nat
            [2; 7]%nat sample_crosslinked_mixed sample_scores true).
  - exact lenient_externals_aligned.
  - vm_compute. reflexivity.
  - exists (mkRow 4 [3; 13; 1; 1]). split.
    + simpl. auto.
    + vm_compute. discriminate.
Defined.

(** The run of the witness: the q-value primitive is called on the three
    surviving rows, the PEP primitive on no positive score, and assigning
    its empty answer to the two retained rows raises ValueError. *)
Lemma crosslinked_construction_sample_run :
  CrossLinkedConfidence.__init__ lenient_externals [3; 1; 4]%nat [2; 7]%nat
    sample_crosslinked_mixed sample_scores true
  = ([Call_crosslink_tdc [5; 7; 1] [true; false; true] true;
      Call_getQvaluesFromScores [] [7]],
     Err ValueError).
Proof. vm_compute. reflexivity. Qed.

(** ** The names of the score and the label column *)

(** C6 at a failing input.  The dataset has two metadata columns and three
    columns in all, so the constructor names the score column 3 and then,
    the table having three columns by now, names the label column 3 as
    well: the labels replace the scores.  The construction succeeds; the
    primitives see the labels 1, 1, 0 in place of the scores, and the
    stored tables have no "mokapot score" column. *)
Theorem linear_tables_without_score_column :
  exists (self : LinearConfidence.t) (t1 t2 : DataFrame),
    LinearConfidence.__init__ sample_externals [3; 1; 4]%nat [2; 7]%nat
      sample_one_feature sample_scores true
    = ([Call_tdc [1; 1; 0] [true; true; false] true;
        Call_getQvaluesFromScores [1; 1] [0];
        Call_tdc [1; 0] [true; false] true;
        Call_getQvaluesFromScores [1] [0]],
       Ok self) /\
    Confidence._score_column (LinearConfidence.base self) = CInt 3 /\
    LinearConfidence._target_column self = CInt 3 /\
    Confidence.__getattr__ (LinearConfidence.base self) "psms" = Ok t1 /\
    Confidence.__getattr__ (LinearConfidence.base self) "peptides" = Ok t2 /\
    columns t1 = [CStr "scan"; CStr "peptide"; CStr "mokapot q-value";
                  CStr "mokapot PEP"] /\
    columns t2 = [CStr "scan"; CStr "peptide"; CStr "mokapot q-value";
                  CStr "mokapot PEP"] /\
    has_col t1 (CStr "mokapot score") = false /\
    has_col t2 (CStr "mokapot score") = false.
Proof.
  do 3 eexists. split; [ vm_compute; reflexivity | ].
  split; [ reflexivity | ]. split; [ reflexivity | ].
  split; [ reflexivity | ]. split; [ reflexivity | ].
  split; [ reflexivity | ]. split; [ reflexivity | ]. split; reflexivity.
Qed.

(** ** Cells under a column name *)

Lemma get_lookup (df : DataFrame) (r : Row) (c : colname) :
  get df r c = lookup (columns df) (cells r) c.
Proof. reflexivity. Qed.

Lemma col_pos_None (cols : list colname) (c : colname) :
  col_pos cols c = None <-> ~ In c cols.
Proof.
  split.
  - intros H Hin. destruct (col_pos_In cols c Hin) as [p Hp]. congruence.
  - intros H. destruct (col_pos cols c) eqn:E; [ | reflexivity ].
    elim H. now apply col_pos_Some_In in E.
Qed.

Lemma col_pos_bound (cols : list colname) (c : colname) (p : nat) :
  col_pos cols c = Some p -> (p < length cols)%nat.
Proof.
  revert p. induction cols as [ | h cols IH ]; simpl; [ easy | ].
  intros p. destruct (colname_eqb h c).
  - intros H. inversion H. lia.
  - destruct (col_pos cols c); [ | easy ].
    intros H. inversion H. specialize (IH n eq_refl). lia.
Qed.

Lemma col_pos_app_l (cols l : list colname) (c : colname) (p : nat) :
  col_pos cols c = Some p -> col_pos (cols ++ l) c = Some p.
Proof.
  revert p. induction cols as [ | h cols IH ]; simpl; [ easy | ].
  intros p. destruct (colname_eqb h c); [ easy | ].
  destruct (col_pos cols c); [ | easy ].
  intros H. now rewrite (IH n eq_refl).
Qed.

Lemma col_pos_app_new (cols : list colname) (c : colname) :
  ~ In c cols -> col_pos (cols ++ [c]) c = Some (length cols).
Proof.
  induction cols as [ | h cols IH ]; simpl; intros H.
  - now rewrite colname_eqb_refl.
  - destruct (colname_eqb h c) eqn:E.
    + apply colname_eqb_eq in E. elim H. now left.
    + rewrite IH; [ reflexivity | ]. intros Hin. apply H. now right.
Qed.

Lemma remove_nth_cons {A} (n : nat) (x : A) (l : list A) :
  remove_nth (S n) (x :: l) = x :: remove_nth n l.
Proof. reflexivity. Qed.

Lemma remove_nth_In {A} (n : nat) (l : list A) (x : A) :
  In x (remove_nth n l) -> In x l.
Proof.
  revert n. induction l as [ | h l IH ]; intros n.
  - unfold remove_nth. rewrite firstn_nil, skipn_nil. easy.
  - destruct n as [ | n ].
    + unfold remove_nth. simpl. auto.
    + rewrite remove_nth_cons. simpl. intros [H | H]; eauto.
Qed.

Lemma col_pos_nth_error (cols : list colname) (c : colname) (p : nat) :
  col_pos cols c = Some p -> nth_error cols p = Some c.
Proof.
  revert p. induction cols as [ | h cols IH ]; simpl; [ easy | ].
  intros p. destruct (colname_eqb h c) eqn:E.
  - intros H. inversion H. apply colname_eqb_eq in E. now subst.
  - destruct (col_pos cols c); [ | easy ].
    intros H. inversion H. simpl. now apply IH.
Qed.

Lemma remove_nth_length {A} (n : nat) (l : list A) :
  (n < length l)%nat -> S (length (remove_nth n l)) = length l.
Proof.
  revert n. induction l as [ | h l IH ]; simpl; [ lia | ].
  intros [ | n ] Hn.
  - reflexivity.
  - rewrite remove_nth_cons. simpl. rewrite IH; lia.
Qed.

Lemma nth_remove_nth (p pt : nat) (l : list Z) :
  p <> pt ->
  nth (if (p <? pt)%nat then p else pred p) (remove_nth pt l) 0 = nth p l 0.
Proof.
  revert p pt. induction l as [ | h l IH ]; intros p pt Hne.
  - unfold remove_nth. rewrite firstn_nil, skipn_nil. simpl.
    now destruct (if (p <? pt)%nat then p else pred p), p.
  - destruct pt as [ | pt ].
    + destruct p as [ | p ]; [ easy | ]. reflexivity.
    + rewrite remove_nth_cons. destruct p as [ | p ]; [ reflexivity | ].
      specialize (IH p pt). 
      change (S p <? S pt)%nat with (p <? pt)%nat.
      destruct (Nat.ltb_spec p pt); simpl.
      * apply IH. lia.
      * destruct p as [ | p ]; [ lia | ]. simpl in IH. apply IH. lia.
Qed.

Lemma col_pos_remove_nth (cols : list colname) (c t : colname) (pt : nat) :
  col_pos cols t = Some pt -> c <> t ->
  col_pos (remove_nth pt cols) c =
  match col_pos cols c with
  | Some p => Some (if (p <? pt)%nat then p else pred p)
  | None => None
  end.
Proof.
  revert pt. induction cols as [ | h cols IH ]; simpl; [ easy | ].
  intros pt Ht Hne. destruct (colname_eqb h t) eqn:Eht.
  - inversion Ht; subst pt. apply colname_eqb_eq in Eht. subst h.
    unfold remove_nth. simpl.
    destruct (colname_eqb t c) eqn:E.
    + apply colname_eqb_eq in E. congruence.
    + destruct (col_pos cols c); reflexivity.
  - destruct (col_pos cols t) as [pt' | ] eqn:Et; [ | easy ].
    inversion Ht; subst pt. rewrite remove_nth_cons. simpl.
    destruct (colname_eqb h c); [ reflexivity | ].
    rewrite (IH pt' eq_refl Hne).
    destruct (col_pos cols c) as [p | ] eqn:Ec; [ | reflexivity ].
    change (S p <? S pt')%nat with (p <? pt')%nat.
    destruct (Nat.ltb_spec p pt'); [ reflexivity | ].
    assert (p <> pt').
    { intros ->. apply col_pos_nth_error in Ec, Et. congruence. }
    destruct p as [ | p ]; [ lia | reflexivity ].
Qed.

Lemma lookup_app_l (cols l : list colname) (cs l' : list Z) (c : colname) :
  In c cols -> length cs = length cols ->
  lookup (cols ++ l) (cs ++ l') c = lookup cols cs c.
Proof.
  intros Hin Hlen. unfold lookup.
  destruct (col_pos_In cols c Hin) as [p Hp].
  rewrite (col_pos_app_l cols l c p Hp), Hp.
  apply app_nth1. apply col_pos_bound in Hp. lia.
Qed.

Lemma lookup_app_new (cols : list colname) (cs : list Z) (c : colname) (v : Z) :
  ~ In c cols -> length cs = length cols ->
  lookup (cols ++ [c]) (cs ++ [v]) c = v.
Proof.
  intros Hin Hlen. unfold lookup. rewrite (col_pos_app_new cols c Hin).
  rewrite <- Hlen. now rewrite nth_middle.
Qed.

Lemma lookup_remove_nth (cols : list colname) (cs : list Z) (c t : colname)
  (pt : nat) :
  col_pos cols t = Some pt -> c <> t ->
  lookup (remove_nth pt cols) (remove_nth pt cs) c = lookup cols cs c.
Proof.
  intros Ht Hne. unfold lookup. rewrite (col_pos_remove_nth cols c t pt Ht Hne).
  destruct (col_pos cols c) as [p | ] eqn:Ec; [ | reflexivity ].
  apply nth_remove_nth. intros ->.
  apply col_pos_nth_error in Ec, Ht. congruence.
Qed.

Lemma col_pos_rename (cols : list colname) (old new c : colname) :
  ~ In new cols -> c <> new ->
  col_pos (map (fun x => if colname_eqb x old then new else x) cols)
    (if colname_eqb c old then new else c)
  = col_pos cols c.
Proof.
  intros Hnew Hc. induction cols as [ | h cols IH ]; simpl; [ reflexivity | ].
  rewrite IH by (intros Hin; apply Hnew; now right).
  assert (Hh : h <> new) by (intros ->; apply Hnew; now left).
  assert (E : colname_eqb (if colname_eqb h old then new else h)
                (if colname_eqb c old then new else c) = colname_eqb h c).
  { destruct (colname_eqb h old) eqn:Eh, (colname_eqb c old) eqn:Ec.
    - apply colname_eqb_eq in Eh, Ec. subst.
      now rewrite !colname_eqb_refl.
    - apply colname_eqb_eq in Eh. subst h.
      destruct (colname_eqb new c) eqn:E1.
      + apply colname_eqb_eq in E1. congruence.
      + destruct (colname_eqb old c) eqn:E2; [ | reflexivity ].
        apply colname_eqb_eq in E2. subst c.
        now rewrite colname_eqb_refl in Ec.
    - apply colname_eqb_eq in Ec. subst c.
      rewrite Eh. destruct (colname_eqb h new) eqn:E1; [ | reflexivity ].
      apply colname_eqb_eq in E1. congruence.
    - reflexivity. }
  now rewrite E.
Qed.

Lemma lookup_rename (cols : list colname) (cs : list Z) (old new c : colname) :
  ~ In new cols -> c <> new ->
  lookup (map (fun x => if colname_eqb x old then new else x) cols) cs
    (if colname_eqb c old then new else c)
  = lookup cols cs c.
Proof.
  intros Hnew Hc. unfold lookup. now rewrite col_pos_rename.
Qed.

(** ** Rows through the steps of a pass *)

Lemma zip_rows_In (f : Row -> Z -> Row) (rs : list Row) (vs : list Z) (t : Row) :
  In t (zip_rows f rs vs) -> exists r v, In r rs /\ t = f r v.
Proof.
  revert vs. induction rs as [ | r rs IH ]; intros [ | v vs ]; simpl;
    try easy.
  intros [<- | H]; [ eauto | ].
  destruct (IH vs H) as [r' [v' [Hin ->]]]. eauto.
Qed.

Lemma mask_zip_rows_In (f : Row -> Z -> Row) (g : Row -> Z) (rs : list Row)
  (vs : list Z) (t : Row) :
  In t (mask (astype_bool (map g rs)) (zip_rows f rs vs)) ->
  exists r v, In r rs /\ g r <> 0 /\ t = f r v.
Proof.
  revert vs. induction rs as [ | r rs IH ]; intros [ | v vs ]; simpl;
    try easy.
  destruct (Z.eqb_spec (g r) 0) as [E | E]; simpl.
  - intros H. destruct (IH vs H) as [r' [v' [Hin [Hg ->]]]]. eauto 6.
  - intros [<- | H]; [ eauto 6 | ].
    destruct (IH vs H) as [r' [v' [Hin [Hg ->]]]]. eauto 6.
Qed.

Lemma mask_zip_rows_length (f : Row -> Z -> Row) (g : Row -> Z)
  (rs : list Row) (vs : list Z) :
  length vs = length rs ->
  length (mask (astype_bool (map g rs)) (zip_rows f rs vs))
  = length (filter (fun r => negb (g r =? 0)) rs).
Proof.
  revert vs. induction rs as [ | r rs IH ]; intros [ | v vs ]; simpl;
    try easy.
  intros H. destruct (g r =? 0); simpl; rewrite IH; lia.
Qed.

Lemma relabel_In (n : Z) (rs : list Row) (t : Row) :
  In t (relabel n rs) -> exists r, In r rs /\ cells t = cells r.
Proof.
  revert n. induction rs as [ | r rs IH ]; intros n; simpl; [ easy | ].
  intros [<- | H]; [ eauto | ].
  destruct (IH _ H) as [r' [Hin E]]. eauto.
Qed.

Lemma relabel_labels (n : Z) (rs : list Row) :
  map label (relabel n rs)
  = map (fun k => n + Z.of_nat k) (seq 0 (length rs)).
Proof.
  revert n. induction rs as [ | r rs IH ]; intros n; simpl; [ reflexivity | ].
  f_equal; [ lia | ].
  rewrite IH, <- seq_shift, map_map. apply map_ext. intros k. lia.
Qed.

Lemma StronglySorted_map {A B} (R : A -> A -> Prop) (R' : B -> B -> Prop)
  (f : A -> B) (l : list A) :
  (forall a b, In a l -> In b l -> R a b -> R' (f a) (f b)) ->
  StronglySorted R l -> StronglySorted R' (map f l).
Proof.
  intros Hf Hs. induction Hs as [ | a l Hl IH Ha ]; simpl; constructor.
  - apply IH. intros x y Hx Hy. apply Hf; now right.
  - rewrite Forall_forall in *. intros y Hy.
    apply in_map_iff in Hy as [x [<- Hx]].
    apply Hf; simpl; auto.
Qed.

Lemma StronglySorted_relabel (R R' : Row -> Row -> Prop) (n : Z)
  (l : list Row) :
  (forall a b n1 n2, In a l -> In b l -> R a b ->
     R' (mkRow n1 (cells a)) (mkRow n2 (cells b))) ->
  StronglySorted R l -> StronglySorted R' (relabel n l).
Proof.
  intros Hf Hs. revert n.
  induction Hs as [ | a l Hl IH Ha ]; intros n; simpl; constructor.
  - apply IH. intros x y n1 n2 Hx Hy. apply Hf; now right.
  - rewrite Forall_forall in *. intros y Hy.
    assert (exists x, In x l /\ y = mkRow (label y) (cells x)) as [x [Hx ->]].
    { clear - Hy. revert n Hy. induction l as [ | r l IHl ]; intros n;
        simpl; [ easy | ].
      intros [<- | H]; [ eauto | ].
      destruct (IHl _ H) as [x [Hx E]]. eauto. }
    apply Hf; simpl; auto.
Qed.

Lemma StronglySorted_zip_rows (R R' : Row -> Row -> Prop)
  (f : Row -> Z -> Row) (l : list Row) (vs : list Z) :
  (forall a b v w, In a l -> In b l -> R a b -> R' (f a v) (f b w)) ->
  StronglySorted R l -> StronglySorted R' (zip_rows f l vs).
Proof.
  intros Hf Hs. revert vs.
  induction Hs as [ | a l Hl IH Ha ]; intros [ | v vs ]; simpl;
    try constructor.
  - apply IH. intros x y v' w' Hx Hy. apply Hf; now right.
  - rewrite Forall_forall in *. intros y Hy.
    apply zip_rows_In in Hy as [x [w [Hx ->]]].
    apply Hf; simpl; auto.
Qed.

Lemma zip_rows_map (f : Row -> Z -> Row) (g : Row -> Row) (l : list Row)
  (vs : list Z) :
  zip_rows f (map g l) vs = zip_rows (fun r v => f (g r) v) l vs.
Proof.
  revert vs. induction l as [ | r l IH ]; intros [ | v vs ]; simpl;
    try easy.
  now rewrite IH.
Qed.

Lemma sort_values_Ok (by_ : list colname) (asc : bool) (df df' : DataFrame) :
  sort_values by_ asc df = Ok df' ->
  df' = mkDF (columns df) (stable_sort (row_leb df by_ asc) (rows df)).
Proof.
  unfold sort_values, require_cols. destruct (forallb _ _); [ | discriminate ].
  intros H. now inversion H.
Qed.

Lemma remove_nth_keeps (cols : list colname) (c t : colname) (pt : nat) :
  col_pos cols t = Some pt -> c <> t -> In c cols ->
  In c (remove_nth pt cols).
Proof.
  intros Ht Hne Hin. destruct (col_pos_In cols c Hin) as [p Hp].
  pose proof (col_pos_remove_nth cols c t pt Ht Hne) as H. rewrite Hp in H.
  now apply col_pos_Some_In in H.
Qed.

Lemma remove_nth_drops (cols : list colname) (t : colname) (pt : nat) :
  NoDup cols -> col_pos cols t = Some pt -> ~ In t (remove_nth pt cols).
Proof.
  revert pt. induction cols as [ | h cols IH ]; simpl; [ easy | ].
  intros pt Hnd. inversion Hnd as [ | ? ? Hh Hc ]; subst.
  destruct (colname_eqb h t) eqn:E.
  - intros H. inversion H. apply colname_eqb_eq in E. subst h.
    unfold remove_nth. simpl. exact Hh.
  - destruct (col_pos cols t) as [p | ] eqn:Ep; [ | easy ].
    intros H. inversion H. rewrite remove_nth_cons. simpl.
    intros [-> | Hin].
    + now rewrite colname_eqb_refl in E.
    + now apply (IH p Hc eq_refl).
Qed.

(** The cell of a result row under a column that is kept: the q-value
    column is appended, the label column removed, the score column
    renamed, the PEP column appended. *)
Lemma result_cell (cols : list colname) (cs : list Z) (score target c : colname)
  (pt : nat) (q v : Z) :
  length cs = length cols ->
  ~ In (CStr "mokapot q-value") cols ->
  ~ In (CStr "mokapot score") cols ->
  ~ In (CStr "mokapot PEP") cols ->
  col_pos (cols ++ [CStr "mokapot q-value"]) target = Some pt ->
  In c cols -> c <> target ->
  lookup
    (map (fun x => if colname_eqb x score then CStr "mokapot score" else x)
       (remove_nth pt (cols ++ [CStr "mokapot q-value"]))
     ++ [CStr "mokapot PEP"])
    (remove_nth pt (cs ++ [q]) ++ [v])
    (if colname_eqb c score then CStr "mokapot score" else c)
  = lookup cols cs c.
Proof.
  intros Hlen HQ HMS HPEP Hpt Hc Hne.
  set (L := cols ++ [CStr "mokapot q-value"]) in *.
  assert (HcL : In c L) by (apply in_or_app; now left).
  assert (HMSL : ~ In (CStr "mokapot score") L).
  { intros H. apply in_app_or in H as [H | [H | []]]; [ auto | discriminate ]. }
  assert (Hbound : (pt < length L)%nat) by now apply col_pos_bound in Hpt.
  assert (HlenL : length (cs ++ [q]) = length L).
  { unfold L. rewrite !length_app. simpl. lia. }
  rewrite lookup_app_l.
  - rewrite lookup_rename.
    + rewrite (lookup_remove_nth L (cs ++ [q]) c target pt Hpt Hne).
      unfold L. now apply lookup_app_l.
    + intros H. apply remove_nth_In in H. auto.
    + intros ->. auto.
  - apply in_map_iff. exists c. split; [ reflexivity | ].
    now apply (remove_nth_keeps L c target pt).
  - rewrite length_map.
    pose proof (remove_nth_length pt L Hbound).
    assert (pt < length (cs ++ [q]))%nat by lia.
    pose proof (remove_nth_length pt (cs ++ [q]) H0). lia.
Qed.

(** The table one pass of the linear loop stores, written out. *)
Lemma linear_assign_level_Ok (E : Externals) (self : LinearConfidence.t)
  (desc : bool) (data data_q table : DataFrame) :
  (forall c, In c reserved_names -> ~ In c (columns data)) ->
  outcome (LinearConfidence.assign_level E self desc data) = Ok (data_q, table) ->
  exists (qvals pep : list Z) (pt : nat),
    In (Confidence._score_column (LinearConfidence.base self)) (columns data) /\
    In (LinearConfidence._target_column self) (columns data) /\
    length qvals = nrows data /\
    col_pos (columns data ++ [CStr "mokapot q-value"])
      (LinearConfidence._target_column self) = Some pt /\
    table =
      mkDF
        (map (fun x =>
                if colname_eqb x (Confidence._score_column (LinearConfidence.base self))
                then CStr "mokapot score" else x)
           (remove_nth pt (columns data ++ [CStr "mokapot q-value"]))
         ++ [CStr "mokapot PEP"])
        (zip_rows
           (fun r v => mkRow (label r) (remove_nth pt (cells r) ++ [v]))
           (relabel 0
              (stable_sort
                 (row_leb (mkDF (columns data ++ [CStr "mokapot q-value"]) [])
                    [Confidence._score_column (LinearConfidence.base self)]
                    (negb desc))
                 (mask
                    (astype_bool
                       (map (fun r => get data r (LinearConfidence._target_column self))
                          (rows data)))
                    (zip_rows (fun r v => mkRow (label r) (cells r ++ [v]))
                       (rows data) qvals))))
           pep) /\
    length pep
    = length (filter
                (fun r => negb (get data r (LinearConfidence._target_column self) =? 0))
                (rows data)).
Proof.
  intros Hres. unfold LinearConfidence.assign_level. cbv zeta.
  set (score := Confidence._score_column (LinearConfidence.base self)).
  set (target := LinearConfidence._target_column self).
  assert (HQ : ~ In (CStr "mokapot q-value") (columns data))
    by (apply Hres; simpl; auto).
  assert (HMS : ~ In (CStr "mokapot score") (columns data))
    by (apply Hres; simpl; auto).
  assert (HPEP : ~ In (CStr "mokapot PEP") (columns data))
    by (apply Hres; simpl; auto).
  lift_step.
  destruct (column_values score data) as [scores | ] eqn:Hs; [ | easy ].
  lift_step.
  destruct (column_values target data) as [labels | ] eqn:Hl; [ | easy ].
  apply column_values_Ok in Hs as [Hscore _].
  apply column_values_Ok in Hl as [Htarget ->].
  lift_step.
  destruct (outcome (call_tdc _ _ _ _)) as [qvals | ]; [ | easy ].
  lift_step.
  destruct (setitem _ qvals data) as [dq | ] eqn:Hq; [ | easy ].
  pose proof (setitem_Ok _ _ _ _ Hq) as [Hqlen _].
  unfold setitem in Hq. rewrite Hqlen, Nat.eqb_refl in Hq.
  rewrite (proj2 (col_pos_None _ _) HQ) in Hq. inversion Hq; subst dq; clear Hq.
  lift_step.
  destruct (sort_values _ _ _) as [sorted | ] eqn:Hsort; [ | easy ].
  apply sort_values_Ok in Hsort. subst sorted.
  lift_step. unfold drop, reset_index. cbn [columns rows loc_mask].
  destruct (col_pos (columns data ++ [CStr "mokapot q-value"]) target)
    as [pt | ] eqn:Hpt; [ | easy ].
  lift_step.
  destruct (outcome (call_getQvaluesFromScores _ _ _)) as [[q pep] | ];
    [ | easy ].
  lift_step. cbn [snd].
  match goal with
  | |- context [setitem _ pep ?d] =>
      destruct (setitem (CStr "mokapot PEP") pep d) as [tbl | ] eqn:Hp;
        [ | easy ]
  end.
  pose proof (setitem_Ok _ _ _ _ Hp) as [Hplen _].
  unfold setitem in Hp. rewrite Hplen, Nat.eqb_refl in Hp.
  unfold rename in Hp, Hplen. cbn [columns rows nrows] in Hp, Hplen.
  match type of Hp with
  | context [col_pos ?cs (CStr "mokapot PEP")] =>
      assert (Hnone : col_pos cs (CStr "mokapot PEP") = None)
  end.
  { apply col_pos_None. intros H. apply in_map_iff in H as [x [Hx Hin]].
    apply remove_nth_In in Hin.
    destruct (colname_eqb x score); [ discriminate Hx | ]. subst x.
    apply in_app_or in Hin as [Hin | [Hin | []]]; [ auto | discriminate ]. }
  rewrite Hnone in Hp. inversion Hp; subst tbl; clear Hp.
  unfold ret, outcome. cbn [snd]. intros H. inversion H; subst; clear H.
  exists qvals, pep, pt.
  split; [ exact Hscore | ]. split; [ exact Htarget | ].
  split; [ exact Hqlen | ]. split; [ reflexivity | ].
  split.
  - f_equal. rewrite zip_rows_map. reflexivity.
  - unfold nrows in Hplen. cbn [rows] in Hplen.
    rewrite length_map, relabel_length in Hplen. rewrite Hplen.
    rewrite (Permutation_length (stable_sort_perm _ _)).
    now apply mask_zip_rows_length.
Qed.

Lemma StronglySorted_In_impl {A} (R R' : A -> A -> Prop) (l : list A) :
  (forall a b, In a l -> In b l -> R a b -> R' a b) ->
  StronglySorted R l -> StronglySorted R' l.
Proof.
  intros H Hs. rewrite <- (map_id l). now apply (StronglySorted_map R R' id).
Qed.

Lemma zip_rows_map_value {B} (f : Row -> Z -> Row) (h : Row -> B)
  (h' : Row -> Z -> B) (xs : list Row) (vs : list Z) :
  (forall x v, In x xs -> h (f x v) = h' x v) ->
  map h (zip_rows f xs vs) = map (fun p => h' (fst p) (snd p)) (combine xs vs).
Proof.
  revert vs. induction xs as [ | x xs IH ]; intros [ | v vs ] H; simpl;
    try reflexivity.
  rewrite H by now left. f_equal. apply IH. intros y w Hy. apply H. now right.
Qed.

Lemma combine_map_snd {A B} (xs : list A) (vs : list B) :
  length vs = length xs -> map snd (combine xs vs) = vs.
Proof.
  revert vs. induction xs as [ | x xs IH ]; intros [ | v vs ]; simpl;
    try easy.
  intros H. f_equal. apply IH. lia.
Qed.

Lemma combine_map_fst {A B} (xs : list A) (vs : list B) :
  length vs = length xs -> map fst (combine xs vs) = xs.
Proof.
  revert vs. induction xs as [ | x xs IH ]; intros [ | v vs ]; simpl;
    try easy.
  intros H. f_equal. apply IH. lia.
Qed.

Lemma relabel_map_cells {B} (h : list Z -> B) (n : Z) (rs : list Row) :
  map (fun r => h (cells r)) (relabel n rs) = map (fun r => h (cells r)) rs.
Proof.
  revert n. induction rs as [ | r rs IH ]; intros n; simpl;
    [ reflexivity | ].
  now rewrite IH.
Qed.

Lemma mask_zip_rows_map {B} (f : Row -> Z -> Row) (g : Row -> Z)
  (h : Row -> B) (rs : list Row) (vs : list Z) :
  map h (mask (astype_bool (map g rs)) (zip_rows f rs vs))
  = map (fun p => h (f (fst p) (snd p)))
      (filter (fun p => negb (g (fst p) =? 0)) (combine rs vs)).
Proof.
  revert vs. induction rs as [ | r rs IH ]; intros [ | v vs ]; simpl;
    try reflexivity.
  destruct (g r =? 0); simpl; now rewrite IH.
Qed.

Lemma combine_filter_fst {A B C} (f : A -> C) (p : A -> bool)
  (xs : list A) (vs : list B) :
  length vs = length xs ->
  map (fun q => f (fst q)) (filter (fun q => p (fst q)) (combine xs vs))
  = map f (filter p xs).
Proof.
  revert vs. induction xs as [ | x xs IH ]; intros [ | v vs ]; simpl;
    try easy.
  intros H. destruct (p x); simpl; rewrite IH by lia; reflexivity.
Qed.

(** One pass of the linear loop over a well-formed frame with distinct
    column names, none of them a name of the result table, and with a
    score column that is not the label column, stores a table as C6
    describes it. *)
Lemma linear_assign_level_table (E : Externals) (self : LinearConfidence.t)
  (desc : bool) (data data_q table : DataFrame) :
  wf_frame data ->
  NoDup (columns data) ->
  (forall c, In c reserved_names -> ~ In c (columns data)) ->
  Confidence._score_column (LinearConfidence.base self)
    <> LinearConfidence._target_column self ->
  outcome (LinearConfidence.assign_level E self desc data) = Ok (data_q, table) ->
  result_table_ok (Confidence._score_column (LinearConfidence.base self))
    (LinearConfidence._target_column self) desc data table.
Proof.
  intros Hwf Hnd Hres Hne Hout.
  destruct (linear_assign_level_Ok E self desc data data_q table Hres Hout)
    as [qvals [pep [pt [Hscore [Htarget [Hqlen [Hpt [-> Hplen]]]]]]]].
  set (score := Confidence._score_column (LinearConfidence.base self)) in *.
  set (target := LinearConfidence._target_column self) in *.
  assert (HQ : ~ In (CStr "mokapot q-value") (columns data))
    by (apply Hres; simpl; auto).
  assert (HMS : ~ In (CStr "mokapot score") (columns data))
    by (apply Hres; simpl; auto).
  assert (HPEP : ~ In (CStr "mokapot PEP") (columns data))
    by (apply Hres; simpl; auto).
  set (L := columns data ++ [CStr "mokapot q-value"]) in *.
  set (ren := fun x => if colname_eqb x score then CStr "mokapot score" else x).
  set (rows_q := zip_rows (fun r v => mkRow (label r) (cells r ++ [v]))
                   (rows data) qvals) in *.
  set (kept := mask (astype_bool (map (fun r => get data r target) (rows data)))
                 rows_q) in *.
  set (S := stable_sort (row_leb (mkDF L []) [score] (negb desc)) kept) in *.
  assert (HndL : NoDup L).
  { unfold L. apply NoDup_app; [ exact Hnd | repeat constructor; easy | ].
    intros x Hx [<- | []]. auto. }
  assert (Hkept : forall s, In s kept ->
            exists r q, In r (rows data) /\ get data r target <> 0 /\
                        cells s = cells r ++ [q]).
  { intros s Hs. apply mask_zip_rows_In in Hs as [r [q [Hr [Hg ->]]]].
    exists r, q. auto. }
  assert (HS : forall s, In s S ->
            exists r q, In r (rows data) /\ get data r target <> 0 /\
                        cells s = cells r ++ [q]).
  { intros s Hs. apply Hkept.
    exact (Permutation_in s
             (stable_sort_perm (row_leb (mkDF L []) [score] (negb desc)) kept)
             Hs). }
  assert (Hwfr : forall r, In r (rows data) ->
            length (cells r) = length (columns data)).
  { now apply Forall_forall. }
  assert (Hcell : forall r q v c, In r (rows data) -> In c (columns data) ->
            c <> target ->
            lookup (map ren (remove_nth pt L) ++ [CStr "mokapot PEP"])
              (remove_nth pt (cells r ++ [q]) ++ [v]) (ren c)
            = get data r c).
  { intros r q v c Hr Hc Hct. rewrite get_lookup. unfold ren, L.
    apply (result_cell (columns data) (cells r) score target c pt q v); auto. }
  assert (Hlen_pep : length pep = length (relabel 0 S)).
  { rewrite relabel_length. unfold S.
    rewrite (Permutation_length (stable_sort_perm _ _)).
    unfold kept, rows_q. rewrite mask_zip_rows_length by exact Hqlen.
    exact Hplen. }
  unfold result_table_ok. cbn [columns rows].
  split; [ | split; [ | split; [ | split; [ | split; [ | split;
    [ | split; [ | split; [ | split ] ] ] ] ] ] ] ].
  - (* the label column is gone *)
    intros H. apply in_app_or in H as [H | [H | []]].
    + apply in_map_iff in H as [x [Hx Hin]]. unfold ren in Hx.
      destruct (colname_eqb x score).
      * rewrite <- Hx in Htarget. auto.
      * subst x. now apply (remove_nth_drops L target pt HndL Hpt).
    + rewrite <- H in Htarget. auto.
  - (* the score column has no entry under its old name *)
    intros H. apply in_app_or in H as [H | [H | []]].
    + apply in_map_iff in H as [x [Hx Hin]]. unfold ren in Hx.
      destruct (colname_eqb x score) eqn:Ex.
      * rewrite <- Hx in Hscore. auto.
      * subst x. now rewrite colname_eqb_refl in Ex.
    + rewrite <- H in Hscore. auto.
  - (* "mokapot score" *)
    apply in_or_app. left. apply in_map_iff. exists score. split.
    + unfold ren. now rewrite colname_eqb_refl.
    + apply (remove_nth_keeps L score target pt Hpt Hne).
      apply in_or_app. now left.
  - (* "mokapot q-value" *)
    apply in_or_app. left. apply in_map_iff.
    exists (CStr "mokapot q-value"). split.
    + unfold ren. destruct (colname_eqb _ score) eqn:Ex; [ | reflexivity ].
      apply colname_eqb_eq in Ex. rewrite <- Ex in Hscore. elim (HQ Hscore).
    + apply (remove_nth_keeps L _ target pt Hpt).
      * intros Ex. rewrite <- Ex in Htarget. auto.
      * apply in_or_app. right. now left.
  - (* "mokapot PEP" *)
    apply in_or_app. right. now left.
  - (* the index *)
    unfold index, nrows. cbn [rows].
    rewrite zip_rows_labels by (auto || exact Hlen_pep).
    rewrite zip_rows_length by exact Hlen_pep.
    rewrite relabel_labels, relabel_length. reflexivity.
  - (* the order *)
    unfold sorted_by. cbn [rows].
    apply (StronglySorted_zip_rows
             (fun a b => (exists ra qa, In ra (rows data) /\ cells a = cells ra ++ [qa]) /\
                         (exists rb qb, In rb (rows data) /\ cells b = cells rb ++ [qb]) /\
                         if desc then lookup L (cells b) score <= lookup L (cells a) score
                         else lookup L (cells a) score <= lookup L (cells b) score)).
    + intros a b v w _ _ [[ra [qa [Hra Ea]]] [[rb [qb [Hrb Eb]]] Hord]].
      rewrite !get_lookup. cbn [columns cells].
      rewrite Ea, Eb in *.
      replace (CStr "mokapot score") with (ren score)
        by (unfold ren; now rewrite colname_eqb_refl).
      rewrite !Hcell by auto.
      unfold L in Hord. rewrite !lookup_app_l in Hord by auto.
      now rewrite !get_lookup.
    + apply (StronglySorted_relabel
               (fun a b => row_leb (mkDF L []) [score] (negb desc) a b = true
                           /\ In a S /\ In b S)).
      * intros a b n1 n2 Ha Hb [Hab _]. cbn [cells].
        destruct (HS a Ha) as [ra [qa [Hra [_ Ea]]]].
        destruct (HS b Hb) as [rb [qb [Hrb [_ Eb]]]].
        split; [ eauto | ]. split; [ eauto | ].
        unfold row_leb, key_of in Hab. simpl in Hab.
        rewrite !get_lookup in Hab. cbn [columns] in Hab.
        destruct desc; simpl in Hab; now apply lex_leb_single in Hab.
      * apply (StronglySorted_In_impl
                 (fun a b => row_leb (mkDF L []) [score] (negb desc) a b = true)).
        -- auto.
        -- apply stable_sort_sorted.
           ++ intros a b. unfold row_leb. destruct (negb desc); apply lex_leb_total.
           ++ intros a b c. unfold row_leb.
              destruct (negb desc); intros H1 H2; eapply lex_leb_trans; eauto.
  - (* as many rows as rows with a true label *)
    unfold nrows. cbn [rows]. rewrite zip_rows_length by exact Hlen_pep.
    rewrite <- Hlen_pep. exact Hplen.
  - (* every row is a row with a true label *)
    intros t Ht. apply zip_rows_In in Ht as [x [v [Hx ->]]].
    apply relabel_In in Hx as [s [Hs Ex]].
    destruct (HS s Hs) as [r [q [Hr [Hg Es]]]].
    exists r. split; [ exact Hr | ]. split; [ exact Hg | ].
    rewrite !get_lookup. cbn [columns cells]. rewrite Ex, Es.
    split.
    + replace (CStr "mokapot score") with (ren score)
        by (unfold ren; now rewrite colname_eqb_refl).
      now apply Hcell.
    + intros c Hc Hct Hcs.
      replace c with (ren c) at 1.
      * rewrite get_lookup. now apply Hcell.
      * unfold ren. destruct (colname_eqb c score) eqn:Ec; [ | reflexivity ].
        apply colname_eqb_eq in Ec. contradiction.
  - (* the rows correspond one to one *)
    cbv zeta.
    set (cs := filter (fun c => negb (colname_eqb c target)) (columns data)).
    assert (Hcs : forall c, In c cs -> In c (columns data) /\ c <> target).
    { intros c Hc. apply filter_In in Hc as [Hc Hb]. split; [ exact Hc | ].
      intros ->. now rewrite colname_eqb_refl in Hb. }
    rewrite (zip_rows_map_value _ _
               (fun x _ => map (fun c => lookup L (cells x) c) cs)).
    + change (fun p : Row * Z => map (fun c => lookup L (cells (fst p)) c) cs)
        with (fun p : Row * Z =>
                (fun r => map (fun c => lookup L (cells r) c) cs) (fst p)).
      rewrite <- (map_map fst).
      rewrite combine_map_fst by exact Hlen_pep.
      rewrite (relabel_map_cells (fun cells => map (fun c => lookup L cells c) cs)).
      eapply Permutation_trans.
      * apply Permutation_map. apply stable_sort_perm.
      * unfold kept, rows_q. rewrite mask_zip_rows_map.
        rewrite <- (combine_filter_fst (key_of data cs)
                      (fun r => negb (get data r target =? 0))
                      (rows data) qvals Hqlen).
        erewrite map_ext_in; [ apply Permutation_refl | ].
        intros [r v] Hin. apply filter_In in Hin as [Hin _].
        apply in_combine_l in Hin. cbn [fst snd cells].
        unfold key_of. apply map_ext_in. intros c Hc.
        destruct (Hcs c Hc) as [Hcd _].
        unfold L. rewrite lookup_app_l by auto. now rewrite get_lookup.
    + intros x v Hx. apply relabel_In in Hx as [s0 [Hs0 Ex]].
      destruct (HS s0 Hs0) as [r [q [Hr [_ Es]]]].
      unfold key_of. rewrite map_map. apply map_ext_in. intros c Hc.
      destruct (Hcs c Hc) as [Hcd Hct].
      rewrite get_lookup. cbn [columns cells]. rewrite Ex, Es.
      fold (ren c). rewrite Hcell by auto.
      unfold L. rewrite lookup_app_l by auto. now rewrite get_lookup.
Qed.

(** ** The tables of a linear construction *)

Lemma setitem_append (name : colname) (vals : list Z) (df df' : DataFrame) :
  ~ In name (columns df) -> wf_frame df ->
  setitem name vals df = Ok df' ->
  columns df' = columns df ++ [name] /\ wf_frame df'.
Proof.
  intros Hnew Hwf H. unfold setitem in H.
  destruct (Nat.eqb _ _); [ | discriminate ].
  rewrite (proj2 (col_pos_None _ _) Hnew) in H. inversion H; subst; clear H.
  split; [ reflexivity | ].
  unfold wf_frame in *. cbn [columns rows]. apply Forall_forall.
  intros t Ht. apply zip_rows_In in Ht as [r [v [Hr ->]]]. cbn [cells].
  rewrite Forall_forall in Hwf. rewrite !length_app, (Hwf r Hr). reflexivity.
Qed.

Lemma last_column_app (df : DataFrame) (cols : list colname) (c : colname) :
  columns df = cols ++ [c] -> last_column df = Ok c.
Proof.
  intros H. unfold last_column. now rewrite H, rev_unit.
Qed.

Lemma loc_rows_incl (idx : list Z) (rs sel : list Row) :
  loc_rows idx rs = Ok sel -> forall s, In s sel -> In s rs.
Proof.
  revert sel. induction idx as [ | l idx IH ]; simpl; intros sel.
  - intros H. now inversion H.
  - destruct (filter (fun r => label r =? l) rs) as [ | m ms ] eqn:Ef;
      [ discriminate | ].
    intros H. apply rbind_Ok in H as [rest [Hrest H]]. inversion H; subst.
    intros s Hs. change (In s ((m :: ms) ++ rest)) in Hs.
    apply in_app_or in Hs as [Hs | Hs].
    + rewrite <- Ef in Hs. now apply filter_In in Hs.
    + now apply (IH rest).
Qed.

Lemma loc_wf (idx : list Z) (df df' : DataFrame) :
  loc idx df = Ok df' -> wf_frame df ->
  columns df' = columns df /\ wf_frame df'.
Proof.
  unfold loc. intros H Hwf. apply rbind_Ok in H as [rs [Hrs H]].
  inversion H; subst; clear H. split; [ reflexivity | ].
  unfold wf_frame in *. cbn [columns rows]. rewrite Forall_forall in *.
  intros s Hs. apply Hwf. now apply (loc_rows_incl idx (rows df) rs).
Qed.

(** What the constructor has set up when the competition on spectra is
    over, for a well-formed dataset whose two new columns are appended. *)
Lemma linear_init_tdc_Ok (rng : list nat) (psms : PsmDataset.t)
  (scores : list Z) (self : LinearConfidence.t) :
  well_formed_dataset psms -> appends_new_columns psms ->
  LinearConfidence.init_tdc rng psms scores = Ok self ->
  columns (Confidence._data (LinearConfidence.base self))
    = columns (PsmDataset.metadata psms)
      ++ [Confidence._score_column (LinearConfidence.base self);
          LinearConfidence._target_column self] /\
  wf_frame (Confidence._data (LinearConfidence.base self)) /\
  Confidence._score_column (LinearConfidence.base self)
    = CInt (Z.of_nat (length (PsmDataset.columns psms))) /\
  LinearConfidence._target_column self
    = CInt (Z.of_nat (S (length (columns (PsmDataset.metadata psms))))) /\
  Confidence._confidence_estimates (LinearConfidence.base self) = [].
Proof.
  intros [Hwf [Hnd Hres]] [Hs [Hl Hsl]] H.
  unfold LinearConfidence.init_tdc, Confidence.__init__ in H.
  apply rbind_Ok in H as [b [Hb H]].
  apply rbind_Ok in Hb as [data [Hdata Hb]].
  destruct (setitem_append _ _ _ _ Hs Hwf Hdata) as [Hcols Hwf1].
  rewrite (last_column_app data _ _ Hcols) in Hb. simpl in Hb.
  inversion Hb; subst b; clear Hb. cbn [Confidence._data] in H.
  apply rbind_Ok in H as [data' [Hdata' H]].
  assert (Hlen : length (columns data)
                 = S (length (columns (PsmDataset.metadata psms)))).
  { rewrite Hcols, length_app. simpl. lia. }
  rewrite Hlen in Hdata'.
  assert (Hnew : ~ In (CInt (Z.of_nat (S (length (columns (PsmDataset.metadata psms))))))
                   (columns data)).
  { rewrite Hcols. intros Hin. apply in_app_or in Hin as [Hin | [Hin | []]];
      [ auto | ]. now apply Hsl. }
  destruct (setitem_append _ _ _ _ Hnew Hwf1 Hdata') as [Hcols' Hwf2].
  rewrite (last_column_app data' _ _ Hcols') in H. simpl in H.
  apply rbind_Ok in H as [u [_ H]].
  apply rbind_Ok in H as [b' [Hb' H]]. inversion H; subst self; clear H.
  unfold Confidence._perform_tdc in Hb'. cbn in Hb'.
  apply rbind_Ok in Hb' as [idx [_ Hb']].
  apply rbind_Ok in Hb' as [d [Hd Hb']]. inversion Hb'; subst b'; clear Hb'.
  destruct (loc_wf idx data' d Hd Hwf2) as [Hcd Hwfd].
  cbn. rewrite Hcd, Hcols', Hcols, <- app_assoc.
  repeat split; auto.
Qed.

Lemma linear_level_frames_wf (rng : list nat) (self : LinearConfidence.t)
  (frames : DataFrame * DataFrame) :
  wf_frame (Confidence._data (LinearConfidence.base self)) ->
  LinearConfidence.level_frames rng self = Ok frames ->
  fst frames = Confidence._data (LinearConfidence.base self) /\
  columns (snd frames) = columns (Confidence._data (LinearConfidence.base self)) /\
  wf_frame (snd frames).
Proof.
  intros Hwf H. unfold LinearConfidence.level_frames in H.
  apply rbind_Ok in H as [idx [_ H]].
  apply rbind_Ok in H as [peptides [Hp H]]. inversion H; subst; clear H.
  destruct (loc_wf idx _ peptides Hp Hwf) as [Hc Hw]. auto.
Qed.

(** For every successful construction of LinearConfidence from a
    well-formed dataset whose score and label columns are appended under
    new names, the tables stored under "psms" and "peptides" are as C6
    describes them, for the PSM-level frame and the peptide-level frame. *)
Theorem linear_result_tables (E : Externals) (rng1 rng2 : list nat)
  (psms : PsmDataset.t) (scores : list Z) (desc : bool)
  (final : LinearConfidence.t) :
  well_formed_dataset psms -> appends_new_columns psms ->
  outcome (LinearConfidence.__init__ E rng1 rng2 psms scores desc) = Ok final ->
  exists (self : LinearConfidence.t) (frames : DataFrame * DataFrame)
         (t1 t2 : DataFrame),
    LinearConfidence.init_tdc rng1 psms scores = Ok self /\
    LinearConfidence.level_frames rng2 self = Ok frames /\
    Confidence.levels (LinearConfidence.base final)
      = ["psms"; "peptides"]%string /\
    Confidence.__getattr__ (LinearConfidence.base final) "psms" = Ok t1 /\
    Confidence.__getattr__ (LinearConfidence.base final) "peptides" = Ok t2 /\
    result_table_ok (Confidence._score_column (LinearConfidence.base self))
      (LinearConfidence._target_column self) desc (fst frames) t1 /\
    result_table_ok (Confidence._score_column (LinearConfidence.base self))
      (LinearConfidence._target_column self) desc (snd frames) t2.
Proof.
  intros Hwfd Hnew Hout.
  unfold LinearConfidence.__init__ in Hout.
  rewrite outcome_bind, outcome_lift in Hout.
  destruct (LinearConfidence.init_tdc rng1 psms scores) as [self | ] eqn:Hinit;
    [ | discriminate ].
  destruct (linear_init_tdc_Ok rng1 psms scores self Hwfd Hnew Hinit)
    as [Hcols [Hwf [Hscore [Htarget Hest]]]].
  unfold LinearConfidence._assign_confidence in Hout.
  rewrite outcome_bind, outcome_lift in Hout.
  destruct (LinearConfidence.level_frames rng2 self) as [frames | ] eqn:Hframes;
    [ | discriminate ].
  destruct (linear_level_frames_wf rng2 self frames Hwf Hframes)
    as [Hfst [Hsndc Hsndwf]].
  rewrite outcome_bind in Hout.
  destruct (outcome (LinearConfidence.assign_level E self desc (fst frames)))
    as [[dq1 t1] | ] eqn:H1; [ | discriminate ].
  rewrite outcome_bind in Hout.
  match type of Hout with
  | context [LinearConfidence.assign_level E ?s desc (snd frames)] =>
      destruct (outcome (LinearConfidence.assign_level E s desc (snd frames)))
        as [[dq2 t2] | ] eqn:H2; [ | discriminate ]
  end.
  unfold ret, outcome in Hout. cbn [snd fst] in Hout.
  inversion Hout; subst final; clear Hout.
  destruct Hwfd as [_ [Hnd Hres]]. destruct Hnew as [Hs [Hl Hsl]].
  assert (Hne : Confidence._score_column (LinearConfidence.base self)
                <> LinearConfidence._target_column self).
  { rewrite Hscore, Htarget. exact Hsl. }
  assert (Hnd' : NoDup (columns (Confidence._data (LinearConfidence.base self)))).
  { rewrite Hcols, Hscore, Htarget. apply NoDup_app; [ exact Hnd | | ].
    - constructor; [ | repeat constructor; easy ].
      intros [H | []]. now apply Hsl.
    - intros x Hx [<- | [<- | []]]; auto. }
  assert (Hres' : forall c, In c reserved_names ->
            ~ In c (columns (Confidence._data (LinearConfidence.base self)))).
  { intros c Hc Hin. rewrite Hcols, Hscore, Htarget in Hin.
    apply in_app_or in Hin as [Hin | [Hin | [Hin | []]]].
    - now apply (Hres c).
    - subst c. simpl in Hc. intuition discriminate.
    - subst c. simpl in Hc. intuition discriminate. }
  exists self, frames, t1, t2.
  split; [ reflexivity | ]. split; [ exact Hframes | ].
  cbn. unfold Confidence.levels, Confidence.__getattr__. cbn. rewrite Hest. cbn.
  split; [ reflexivity | ]. split; [ reflexivity | ]. split; [ reflexivity | ].
  split.
  - apply (linear_assign_level_table E self desc (fst frames) dq1 t1);
      rewrite ?Hfst; auto.
    now rewrite <- Hfst.
  - apply (linear_assign_level_table E _ desc (snd frames) dq2 t2) in H2;
      rewrite ?Hsndc; auto.
Qed.

Lemma sample_linear_well_formed : well_formed_dataset sample_linear.
Proof.
  split; [ | split ].
  - unfold wf_frame. simpl. repeat constructor.
  - simpl. repeat constructor; simpl; intuition discriminate.
  - simpl. intros c [<- | [<- | [<- | []]]]; intuition discriminate.
Qed.

Lemma sample_linear_appends : appends_new_columns sample_linear.
Proof.
  unfold appends_new_columns. simpl.
  repeat split; intuition discriminate.
Qed.

(** The sample dataset: the construction succeeds and stores both tables. *)
Lemma linear_result_tables_witness :
  exists (final self : LinearConfidence.t) (frames : DataFrame * DataFrame)
         (t1 t2 : DataFrame),
    outcome (LinearConfidence.__init__ sample_externals [3; 1; 4]%nat
               [2; 7]%nat sample_linear sample_scores true) = Ok final /\
    LinearConfidence.init_tdc [3; 1; 4]%nat sample_linear sample_scores
      = Ok self /\
    LinearConfidence.level_frames [2; 7]%nat self = Ok frames /\
    Confidence.levels (LinearConfidence.base final)
      = ["psms"; "peptides"]%string /\
    Confidence.__getattr__ (LinearConfidence.base final) "psms" = Ok t1 /\
    Confidence.__getattr__ (LinearConfidence.base final) "peptides" = Ok t2 /\
    result_table_ok (Confidence._score_column (LinearConfidence.base self))
      (LinearConfidence._target_column self) true (fst frames) t1 /\
    result_table_ok (Confidence._score_column (LinearConfidence.base self))
      (LinearConfidence._target_column self) true (snd frames) t2.
Proof.
  destruct (outcome (LinearConfidence.__init__ sample_externals [3; 1; 4]%nat
                       [2; 7]%nat sample_linear sample_scores true))
    as [final | e] eqn:Hout; [ | vm_compute in Hout; discriminate Hout ].
  exists final.
  destruct (linear_result_tables sample_externals [3; 1; 4]%nat [2; 7]%nat
              sample_linear sample_scores true final
              sample_linear_well_formed sample_linear_appends Hout)
    as [self [frames [t1 [t2 H]]]].
  exists self, frames, t1, t2. split; [ reflexivity | exact H ].
Defined.

(** ** Row counts of the two levels *)

Lemma mask_astype_length {A} (g : Row -> Z) (rs : list Row) (l : list A) :
  length l = length rs ->
  length (mask (astype_bool (map g rs)) l)
  = length (filter (fun r => negb (g r =? 0)) rs).
Proof.
  revert l. induction rs as [ | r rs IH ]; intros [ | x l ]; simpl;
    try easy.
  intros H. destruct (g r =? 0); simpl; rewrite IH; lia.
Qed.

(** The table of a pass has one row per row of the frame with a true
    label. *)
Lemma linear_assign_level_nrows (E : Externals) (self : LinearConfidence.t)
  (desc : bool) (data data_q table : DataFrame) :
  outcome (LinearConfidence.assign_level E self desc data) = Ok (data_q, table) ->
  nrows table
  = length (filter
              (fun r => negb (get data r (LinearConfidence._target_column self) =? 0))
              (rows data)).
Proof.
  unfold LinearConfidence.assign_level. cbv zeta.
  lift_step.
  destruct (column_values _ data) as [scores | ] eqn:Hs; [ | easy ].
  lift_step.
  destruct (column_values (LinearConfidence._target_column self) data)
    as [labels | ] eqn:Hl; [ | easy ].
  apply column_values_Ok in Hl as [_ ->].
  lift_step.
  destruct (outcome (call_tdc _ _ _ _)) as [qvals | ]; [ | easy ].
  lift_step.
  destruct (setitem _ qvals data) as [dq | ] eqn:Hq; [ | easy ].
  lift_step.
  destruct (sort_values _ _ _) as [sorted | ] eqn:Hsort; [ | easy ].
  lift_step.
  destruct (drop _ _) as [dropped | ] eqn:Hdrop; [ | easy ].
  lift_step.
  destruct (outcome (call_getQvaluesFromScores _ _ _)) as [qp | ]; [ | easy ].
  lift_step.
  destruct (setitem _ (snd qp) _) as [tbl | ] eqn:Hp; [ | easy ].
  unfold ret, outcome. cbn [snd]. intros H. inversion H; subst; clear H.
  apply setitem_Ok in Hp as [_ [_ Hp]]. rewrite Hp.
  unfold rename, nrows. cbn [rows]. fold (nrows dropped).
  apply drop_nrows in Hdrop. rewrite Hdrop.
  unfold reset_index, nrows. cbn [rows]. rewrite relabel_length.
  apply sort_values_nrows in Hsort. unfold nrows in Hsort. rewrite Hsort.
  unfold loc_mask. cbn [rows].
  apply setitem_Ok in Hq as [_ [_ Hq]].
  now apply mask_astype_length.
Qed.

Lemma linear_init_tdc_estimates (rng : list nat) (psms : PsmDataset.t)
  (scores : list Z) (self : LinearConfidence.t) :
  LinearConfidence.init_tdc rng psms scores = Ok self ->
  Confidence._confidence_estimates (LinearConfidence.base self) = [].
Proof.
  intros H. unfold LinearConfidence.init_tdc, Confidence.__init__ in H.
  apply rbind_Ok in H as [b [Hb H]].
  apply rbind_Ok in Hb as [data [_ Hb]].
  apply rbind_Ok in Hb as [sc [_ Hb]]. inversion Hb; subst b; clear Hb.
  apply rbind_Ok in H as [data' [_ H]].
  apply rbind_Ok in H as [tc [_ H]].
  apply rbind_Ok in H as [u [_ H]].
  apply rbind_Ok in H as [b' [Hb' H]]. inversion H; subst self; clear H.
  unfold Confidence._perform_tdc in Hb'.
  apply rbind_Ok in Hb' as [idx [_ Hb']].
  apply rbind_Ok in Hb' as [d [_ Hb']]. now inversion Hb'.
Qed.

(** A successful construction has run both passes and stored their
    tables. *)
Lemma linear_init_Ok (E : Externals) (rng1 rng2 : list nat)
  (psms : PsmDataset.t) (scores : list Z) (desc : bool)
  (final : LinearConfidence.t) :
  outcome (LinearConfidence.__init__ E rng1 rng2 psms scores desc) = Ok final ->
  exists self frames t1 t2,
    LinearConfidence.init_tdc rng1 psms scores = Ok self /\
    LinearConfidence.level_frames rng2 self = Ok frames /\
    Confidence.__getattr__ (LinearConfidence.base final) "psms" = Ok t1 /\
    Confidence.__getattr__ (LinearConfidence.base final) "peptides" = Ok t2 /\
    nrows t1
    = length (filter
                (fun r => negb (get (fst frames) r
                                  (LinearConfidence._target_column self) =? 0))
                (rows (fst frames))) /\
    nrows t2
    = length (filter
                (fun r => negb (get (snd frames) r
                                  (LinearConfidence._target_column self) =? 0))
                (rows (snd frames))).
Proof.
  intros Hout. unfold LinearConfidence.__init__ in Hout.
  rewrite outcome_bind, outcome_lift in Hout.
  destruct (LinearConfidence.init_tdc rng1 psms scores) as [self | ] eqn:Hinit;
    [ | discriminate ].
  pose proof (linear_init_tdc_estimates rng1 psms scores self Hinit) as Hest.
  unfold LinearConfidence._assign_confidence in Hout.
  rewrite outcome_bind, outcome_lift in Hout.
  destruct (LinearConfidence.level_frames rng2 self) as [frames | ] eqn:Hframes;
    [ | discriminate ].
  rewrite outcome_bind in Hout.
  destruct (outcome (LinearConfidence.assign_level E self desc (fst frames)))
    as [[dq1 t1] | ] eqn:H1; [ | discriminate ].
  rewrite outcome_bind in Hout.
  match type of Hout with
  | context [LinearConfidence.assign_level E ?s desc (snd frames)] =>
      destruct (outcome (LinearConfidence.assign_level E s desc (snd frames)))
        as [[dq2 t2] | ] eqn:H2; [ | discriminate ]
  end.
  unfold ret, outcome in Hout. cbn [snd fst] in Hout.
  inversion Hout; subst final; clear Hout.
  exists self, frames, t1, t2.
  split; [ reflexivity | ]. split; [ exact Hframes | ].
  unfold Confidence.__getattr__. cbn. rewrite Hest. cbn.
  split; [ reflexivity | ]. split; [ reflexivity | ].
  split.
  - exact (linear_assign_level_nrows E self desc (fst frames) dq1 t1 H1).
  - exact (linear_assign_level_nrows E _ desc (snd frames) dq2 t2 H2).
Qed.

Lemma filter_length_incl (p : Row -> bool) (l l' : list Row) :
  NoDup l -> (forall r, In r l -> In r l') ->
  (length (filter p l) <= length (filter p l'))%nat.
Proof.
  intros Hnd Hincl. apply NoDup_incl_length.
  - now apply NoDup_filter.
  - intros r Hr. apply filter_In in Hr as [Hr Hp]. apply filter_In. auto.
Qed.

(** For every dataset whose table has distinct index labels, once the
    constructor has run the competition on spectra and
    [_assign_confidence] has derived the peptide-level table from the
    PSM-level one, the peptide-level table has no more rows than the
    PSM-level table; and when the construction succeeds, the table stored
    under "peptides" has no more rows than the table stored under
    "psms". *)
Theorem peptide_rows_le_psm_rows (E : Externals) (rng1 rng2 : list nat)
  (psms : PsmDataset.t) (scores : list Z) (desc : bool)
  (self : LinearConfidence.t) (frames : DataFrame * DataFrame) :
  unique_index (PsmDataset.metadata psms) ->
  LinearConfidence.init_tdc rng1 psms scores = Ok self ->
  LinearConfidence.level_frames rng2 self = Ok frames ->
  (nrows (snd frames) <= nrows (fst frames))%nat /\
  (forall final,
     outcome (LinearConfidence.__init__ E rng1 rng2 psms scores desc)
       = Ok final ->
     exists t1 t2,
       Confidence.__getattr__ (LinearConfidence.base final) "psms" = Ok t1 /\
       Confidence.__getattr__ (LinearConfidence.base final) "peptides" = Ok t2 /\
       (nrows t2 <= nrows t1)%nat).
Proof.
  intros Hu Hinit Hframes.
  pose proof (linear_init_tdc_unique rng1 psms scores self Hu Hinit) as Hu'.
  pose proof (linear_level_frames_unique rng2 self frames Hu' Hframes) as Hf.
  split.
  - rewrite Hf. simpl. apply competition_rows_length.
  - intros final Hout.
    destruct (linear_init_Ok E rng1 rng2 psms scores desc final Hout)
      as [self' [frames' [t1 [t2 [Hi [Hfr [H1 [H2 [Hn1 Hn2]]]]]]]]].
    rewrite Hinit in Hi. inversion Hi; subst self'; clear Hi.
    rewrite Hframes in Hfr. inversion Hfr; subst frames'; clear Hfr.
    exists t1, t2. split; [ exact H1 | ]. split; [ exact H2 | ].
    rewrite Hn1, Hn2, Hf. cbn [fst snd rows].
    apply filter_length_incl.
    + apply (NoDup_map_inv label). now apply competition_rows_labels.
    + apply competition_rows_incl.
Qed.

(** The sample dataset has distinct index labels: three spectra give
    three PSM rows and three peptides, and the construction succeeds. *)
Lemma peptide_rows_le_psm_rows_witness :
  exists (self : LinearConfidence.t) (frames : DataFrame * DataFrame),
    LinearConfidence.init_tdc [3; 1; 4]%nat sample_linear sample_scores
      = Ok self /\
    LinearConfidence.level_frames [2; 7]%nat self = Ok frames /\
    (nrows (snd frames) <= nrows (fst frames))%nat /\
    (forall final,
       outcome (LinearConfidence.__init__ sample_externals [3; 1; 4]%nat
                  [2; 7]%nat sample_linear sample_scores true) = Ok final ->
       exists t1 t2,
         Confidence.__getattr__ (LinearConfidence.base final) "psms" = Ok t1 /\
         Confidence.__getattr__ (LinearConfidence.base final) "peptides"
           = Ok t2 /\
         (nrows t2 <= nrows t1)%nat).
Proof.
  destruct (LinearConfidence.init_tdc [3; 1; 4]%nat sample_linear sample_scores)
    as [self | e] eqn:Hself; [ | discriminate Hself ].
  destruct (LinearConfidence.level_frames [2; 7]%nat self)
    as [frames | e] eqn:Hframes;
    [ | vm_compute in Hself; inversion Hself; subst self;
        discriminate Hframes ].
  exists self, frames. split; [ reflexivity | ]. split; [ exact Hframes | ].
  apply (peptide_rows_le_psm_rows sample_externals [3; 1; 4]%nat [2; 7]%nat
           sample_linear sample_scores true self frames).
  - unfold unique_index, index. simpl.
    repeat (constructor; [ simpl; intuition discriminate | ]). constructor.
  - exact Hself.
  - exact Hframes.
Defined.

(** C8 at a failing input.  The two matches of the dataset carry the same
    index label 0; they are on two spectra and have two peptides, one a
    target and one a decoy.  The competition on spectra selects the label
    0 once per spectrum and [.loc] returns both rows for each: the
    PSM-level table has four rows for two spectra.  The competition on
    peptides selects the label 0 once per peptide and [.loc] returns the
    four rows for each: the peptide-level table has eight rows, more than
    the PSM-level table.  The construction succeeds, with primitives that
    reject an empty sample, and stores two rows under "psms" and four
    under "peptides". *)
Theorem peptide_rows_exceed_psm_rows_repeated_index :
  exists (self final : LinearConfidence.t) (frames : DataFrame * DataFrame)
         (t1 t2 : DataFrame),
    nrows (PsmDataset.metadata repeated_label_dataset) = 2%nat /\
    LinearConfidence.init_tdc [] repeated_label_dataset [5; 3] = Ok self /\
    LinearConfidence.level_frames [] self = Ok frames /\
    fst frames = Confidence._data (LinearConfidence.base self) /\
    length (distinct_keys (fst frames) [CStr "scan"]) = 2%nat /\
    length (distinct_keys (fst frames) [CStr "peptide"]) = 2%nat /\
    nrows (fst frames) = 4%nat /\
    nrows (snd frames) = 8%nat /\
    outcome (LinearConfidence.__init__ sample_externals [] []
               repeated_label_dataset [5; 3] true) = Ok final /\
    Confidence.__getattr__ (LinearConfidence.base final) "psms" = Ok t1 /\
    Confidence.__getattr__ (LinearConfidence.base final) "peptides" = Ok t2 /\
    nrows t1 = 2%nat /\
    nrows t2 = 4%nat.
Proof.
  do 5 eexists.
  split; [ reflexivity | ].
  split; [ vm_compute; reflexivity | ].
  split; [ vm_compute; reflexivity | ].
  split; [ reflexivity | ].
  split; [ vm_compute; reflexivity | ].
  split; [ vm_compute; reflexivity | ].
  split; [ reflexivity | ]. split; [ reflexivity | ].
  split; [ vm_compute; reflexivity | ].
  split; [ vm_compute; reflexivity | ].
  split; [ vm_compute; reflexivity | ].
  split; reflexivity.
Qed.

(** * Further properties of the module *)

(** ** The competition, seen from its callers *)

(** What the rows a competition keeps have in common with the table. *)
Lemma competition_rows_spec (rng : list nat) (df : DataFrame)
  (by_cols : list colname) (max_col : colname) :
  NoDup (map (key_of df by_cols) (competition_rows rng df by_cols max_col)) /\
  length (competition_rows rng df by_cols max_col)
    = length (distinct_keys df by_cols) /\
  (forall r, In r (rows df) ->
     exists s, In s (competition_rows rng df by_cols max_col) /\
               key_of df by_cols s = key_of df by_cols r /\
               get df r max_col <= get df s max_col).
Proof.
  set (sorted := stable_sort (row_leb df (by_cols ++ [max_col]) true)
                   (shuffle rng (rows df))).
  assert (Hperm : Permutation sorted (rows df)).
  { unfold sorted. rewrite stable_sort_perm. apply shuffle_perm. }
  unfold competition_rows. fold sorted.
  split; [ apply keep_last_keys_NoDup | ]. split.
  - rewrite keep_last_length. unfold distinct_keys.
    apply nodup_length_perm. now apply Permutation_map.
  - intros r Hr.
    assert (Hsorted : StronglySorted
              (fun a b => row_leb df (by_cols ++ [max_col]) true a b = true)
              sorted).
    { apply stable_sort_sorted.
      - intros a b. apply lex_leb_total.
      - intros a b c. apply lex_leb_trans. }
    apply (Permutation_in r (Permutation_sym Hperm)) in Hr.
    destruct (keep_last_covers _ (key_of df by_cols) sorted Hsorted r Hr)
      as [s [Hs [Hk Hrel]]].
    exists s. repeat split; try assumption.
    destruct Hrel as [-> | Hle]; [ lia | ].
    unfold row_leb, key_of in Hle. rewrite !map_app in Hle. simpl in Hle.
    unfold key_of in Hk. rewrite Hk in Hle.
    now apply lex_leb_app_last in Hle.
Qed.

(** Every kept row wins its group. *)
Lemma competition_rows_max (rng : list nat) (df : DataFrame)
  (by_cols : list colname) (max_col : colname) (s r : Row) :
  In s (competition_rows rng df by_cols max_col) -> In r (rows df) ->
  key_of df by_cols r = key_of df by_cols s ->
  get df r max_col <= get df s max_col.
Proof.
  intros Hs Hr Hk.
  destruct (competition_rows_spec rng df by_cols max_col) as [Hnd [_ Hcov]].
  destruct (Hcov r Hr) as [s' [Hs' [Hk' Hle]]].
  assert (s' = s); [ | now subst ].
  apply (NoDup_map_inj_on (key_of df by_cols) _ s' s Hnd Hs' Hs). congruence.
Qed.

(** On a table with distinct index labels, [_perform_tdc] leaves the
    columns, the score column and the stored tables as they are, and
    replaces the table by a selection of its rows: one row per distinct
    value of the key columns, the one with the highest score of its
    group; the index stays free of repetitions. *)
Theorem perform_tdc_keeps_best_row_per_key (rng : list nat)
  (self self1 : Confidence.t) (psm_columns : list colname) :
  unique_index (Confidence._data self) ->
  Confidence._perform_tdc rng self psm_columns = Ok self1 ->
  columns (Confidence._data self1) = columns (Confidence._data self) /\
  Confidence._score_column self1 = Confidence._score_column self /\
  Confidence._confidence_estimates self1 = Confidence._confidence_estimates self /\
  unique_index (Confidence._data self1) /\
  (forall s, In s (rows (Confidence._data self1)) ->
             In s (rows (Confidence._data self))) /\
  NoDup (map (key_of (Confidence._data self) psm_columns)
           (rows (Confidence._data self1))) /\
  nrows (Confidence._data self1)
    = length (distinct_keys (Confidence._data self) psm_columns) /\
  (forall r, In r (rows (Confidence._data self)) ->
     exists s, In s (rows (Confidence._data self1)) /\
               key_of (Confidence._data self) psm_columns s
                 = key_of (Confidence._data self) psm_columns r /\
               get (Confidence._data self) r (Confidence._score_column self)
                 <= get (Confidence._data self) s (Confidence._score_column self)).
Proof.
  intros Hu H.
  destruct (perform_tdc_unique rng self self1 psm_columns Hu H) as [_ ->].
  destruct (competition_rows_spec rng (Confidence._data self) psm_columns
              (Confidence._score_column self)) as [Hnd [Hlen Hcov]].
  cbn. repeat split; try assumption.
  - now apply competition_rows_labels.
  - apply competition_rows_incl.
Qed.

(** The sample table, keyed by spectrum. *)
Lemma perform_tdc_keeps_best_row_per_key_witness :
  columns sample_competed = columns sample_scored /\
  CInt 2 = CInt 2 /\
  @nil (string * DataFrame) = [] /\
  unique_index sample_competed /\
  (forall s, In s (rows sample_competed) -> In s (rows sample_scored)) /\
  NoDup (map (key_of sample_scored [CStr "scan"]) (rows sample_competed)) /\
  nrows sample_competed = length (distinct_keys sample_scored [CStr "scan"]) /\
  (forall r, In r (rows sample_scored) ->
     exists s, In s (rows sample_competed) /\
               key_of sample_scored [CStr "scan"] s
                 = key_of sample_scored [CStr "scan"] r /\
               get sample_scored r (CInt 2) <= get sample_scored s (CInt 2)).
Proof.
  apply (perform_tdc_keeps_best_row_per_key [3; 1; 4]%nat
           (Confidence.mk sample_scored (CInt 2) [])
           (Confidence.mk sample_competed (CInt 2) [])
           [CStr "scan"]).
  - unfold unique_index, index. simpl.
    repeat (constructor; [ simpl; intuition discriminate | ]). constructor.
  - reflexivity.
Defined.

(** A key column or the value column that the table does not have makes
    [_groupby_max] raise KeyError, and [_perform_tdc] with it, whatever
    the rows are. *)
Theorem tdc_missing_column_is_key_error (rng : list nat) (self : Confidence.t)
  (psm_columns : list colname) (c : colname) :
  In c (psm_columns ++ [Confidence._score_column self]) ->
  ~ In c (columns (Confidence._data self)) ->
  _groupby_max rng (Confidence._data self) psm_columns
    (Confidence._score_column self) = Err KeyError /\
  Confidence._perform_tdc rng self psm_columns = Err KeyError.
Proof.
  intros Hc Hmiss.
  assert (Hg : _groupby_max rng (Confidence._data self) psm_columns
                 (Confidence._score_column self) = Err KeyError).
  { unfold _groupby_max. rewrite groupby_max_frame_spec.
    destruct (forallb _ _) eqn:E; [ | reflexivity ].
    exfalso. apply Hmiss. rewrite forallb_forall in E.
    apply has_col_In. now apply E. }
  split; [ exact Hg | ].
  unfold Confidence._perform_tdc. now rewrite Hg.
Qed.

(** The sample table has no column "charge". *)
Lemma tdc_missing_column_is_key_error_witness :
  _groupby_max [] sample_scored [CStr "scan"; CStr "charge"] (CInt 2)
    = Err KeyError /\
  Confidence._perform_tdc [] (Confidence.mk sample_scored (CInt 2) [])
    [CStr "scan"; CStr "charge"] = Err KeyError.
Proof.
  apply (tdc_missing_column_is_key_error []
           (Confidence.mk sample_scored (CInt 2) [])
           [CStr "scan"; CStr "charge"] (CStr "charge")).
  - simpl. auto.
  - simpl. intros [H | [H | [H | []]]]; discriminate H.
Defined.

(** When no two rows of a group share a value, the rows a competition
    keeps do not depend on the shuffle. *)
Lemma competition_rows_no_ties (rng rng' : list nat) (df : DataFrame)
  (by_cols : list colname) (max_col : colname) :
  (forall r r', In r (rows df) -> In r' (rows df) ->
     key_of df by_cols r = key_of df by_cols r' ->
     get df r max_col = get df r' max_col -> r = r') ->
  competition_rows rng df by_cols max_col
  = competition_rows rng' df by_cols max_col.
Proof.
  intros Hties.
  destruct (competition_rows_spec rng df by_cols max_col) as [Hnd [_ Hcov]].
  destruct (competition_rows_spec rng' df by_cols max_col) as [Hnd' [_ Hcov']].
  assert (Hsub : forall g g' s,
            In s (competition_rows g df by_cols max_col) ->
            In s (competition_rows g' df by_cols max_col)).
  { intros g g' s Hs.
    destruct (competition_rows_spec g' df by_cols max_col) as [_ [_ Hc]].
    pose proof (competition_rows_incl g df by_cols max_col s Hs) as Hr.
    destruct (Hc s Hr) as [s' [Hs' [Hk Hle]]].
    pose proof (competition_rows_incl g' df by_cols max_col s' Hs') as Hr'.
    pose proof (competition_rows_max g df by_cols max_col s s' Hs Hr' Hk) as Hge.
    assert (s' = s); [ | now subst ].
    apply Hties; auto. lia. }
  apply (sorted_perm_unique
           (fun a b => row_leb df (by_cols ++ [max_col]) true a b = true)).
  - apply competition_rows_sorted.
  - apply competition_rows_sorted.
  - apply NoDup_Permutation.
    + now apply (NoDup_map_inv (key_of df by_cols)).
    + now apply (NoDup_map_inv (key_of df by_cols)).
    + intros s. split; apply Hsub.
  - intros a b Ha Hb Hab Hba. unfold row_leb in Hab, Hba.
    pose proof (lex_leb_antisym _ _ Hab Hba) as E.
    unfold key_of in E. rewrite !map_app in E.
    apply app_inj_tail in E as [E _].
    now apply (NoDup_map_inj_on (key_of df by_cols) _ a b Hnd).
Qed.

(** When no two rows with the same key have the same value, the result of
    [_groupby_max] is the same for every outcome of the shuffle: the
    random tie-break only matters for ties. *)
Theorem groupby_max_no_ties_deterministic (rng rng' : list nat)
  (df : DataFrame) (by_cols : list colname) (max_col : colname) :
  (forall r r', In r (rows df) -> In r' (rows df) ->
     key_of df by_cols r = key_of df by_cols r' ->
     get df r max_col = get df r' max_col -> r = r') ->
  _groupby_max rng df by_cols max_col = _groupby_max rng' df by_cols max_col.
Proof.
  intros Hties. unfold _groupby_max. rewrite !groupby_max_frame_spec.
  now rewrite (competition_rows_no_ties rng rng' df by_cols max_col Hties).
Qed.

(** The scores of the sample table differ within every spectrum. *)
Lemma groupby_max_no_ties_deterministic_witness :
  _groupby_max [3; 1; 4]%nat sample_scored [CStr "scan"] (CInt 2)
  = _groupby_max [0; 2; 1; 1]%nat sample_scored [CStr "scan"] (CInt 2).
Proof.
  apply (groupby_max_no_ties_deterministic [3; 1; 4]%nat [0; 2; 1; 1]%nat
           sample_scored [CStr "scan"] (CInt 2)).
  intros r r' Hr Hr' Hk Hv. simpl in Hr, Hr'.
  destruct Hr as [<- | [<- | [<- | [<- | [<- | []]]]]];
    destruct Hr' as [<- | [<- | [<- | [<- | [<- | []]]]]];
    try reflexivity; vm_compute in Hk; vm_compute in Hv; discriminate.
Defined.

(** ** The base constructor *)

Lemma zip_rows_append_new (cols : list colname) (name : colname)
  (rs : list Row) (vs : list Z) :
  ~ In name cols ->
  Forall (fun r => length (cells r) = length cols) rs ->
  length vs = length rs ->
  map (fun r => lookup (cols ++ [name]) (cells r) name)
    (zip_rows (fun r v => mkRow (label r) (cells r ++ [v])) rs vs) = vs.
Proof.
  intros Hnew Hwf. revert vs.
  induction Hwf as [ | r rs Hr Hwf IH ]; intros [ | v vs ]; simpl;
    try easy.
  intros H. rewrite lookup_app_new by assumption. f_equal. apply IH. lia.
Qed.

Lemma zip_rows_append_old (cols : list colname) (name c : colname)
  (rs : list Row) (vs : list Z) :
  In c cols ->
  Forall (fun r => length (cells r) = length cols) rs ->
  length vs = length rs ->
  map (fun r => lookup (cols ++ [name]) (cells r) c)
    (zip_rows (fun r v => mkRow (label r) (cells r ++ [v])) rs vs)
  = map (fun r => lookup cols (cells r) c) rs.
Proof.
  intros Hc Hwf. revert vs.
  induction Hwf as [ | r rs Hr Hwf IH ]; intros [ | v vs ]; simpl;
    try easy.
  intros H. rewrite lookup_app_l by assumption. f_equal. apply IH. lia.
Qed.

(** When the table has no column named [len(psms.columns)] yet and there
    is one score per row, [Confidence.__init__] succeeds: the scores
    become a new last column under that name, in row order, which is the
    score column; the index and the metadata cells are untouched and no
    level is stored. *)
Theorem confidence_init_appends_scores (psms : PsmDataset.t) (scores : list Z) :
  wf_frame (PsmDataset.metadata psms) ->
  ~ In (CInt (Z.of_nat (length (PsmDataset.columns psms))))
      (columns (PsmDataset.metadata psms)) ->
  length scores = nrows (PsmDataset.metadata psms) ->
  exists self,
    Confidence.__init__ psms scores = Ok self /\
    Confidence._score_column self
      = CInt (Z.of_nat (length (PsmDataset.columns psms))) /\
    columns (Confidence._data self)
      = columns (PsmDataset.metadata psms) ++ [Confidence._score_column self] /\
    index (Confidence._data self) = index (PsmDataset.metadata psms) /\
    Confidence.levels self = [] /\
    map (fun r => get (Confidence._data self) r (Confidence._score_column self))
      (rows (Confidence._data self)) = scores /\
    (forall c, In c (columns (PsmDataset.metadata psms)) ->
       map (fun r => get (Confidence._data self) r c) (rows (Confidence._data self))
       = map (fun r => get (PsmDataset.metadata psms) r c)
           (rows (PsmDataset.metadata psms))).
Proof.
  intros Hwf Hnew Hlen.
  set (name := CInt (Z.of_nat (length (PsmDataset.columns psms)))) in *.
  set (md := PsmDataset.metadata psms) in *.
  assert (Hset : setitem name scores md
                 = Ok (mkDF (columns md ++ [name])
                         (zip_rows (fun r v => mkRow (label r) (cells r ++ [v]))
                            (rows md) scores))).
  { unfold setitem. rewrite Hlen, Nat.eqb_refl.
    now rewrite (proj2 (col_pos_None _ _) Hnew). }
  eexists. split.
  - unfold Confidence.__init__. fold name md. rewrite Hset. simpl.
    erewrite last_column_app by reflexivity. reflexivity.
  - cbn. split; [ reflexivity | ]. split; [ reflexivity | ].
    split; [ now apply zip_rows_labels | ]. split; [ reflexivity | ].
    split.
    + apply (zip_rows_append_new (columns md) name); assumption.
    + intros c Hc.
      apply (zip_rows_append_old (columns md) name c); assumption.
Qed.

(** The sample dataset and its five scores. *)
Lemma confidence_init_appends_scores_witness :
  exists self,
    Confidence.__init__ sample_linear sample_scores = Ok self /\
    Confidence._score_column self = CInt 2 /\
    columns (Confidence._data self)
      = columns sample_metadata ++ [Confidence._score_column self] /\
    index (Confidence._data self) = index sample_metadata /\
    Confidence.levels self = [] /\
    map (fun r => get (Confidence._data self) r (Confidence._score_column self))
      (rows (Confidence._data self)) = sample_scores /\
    (forall c, In c (columns sample_metadata) ->
       map (fun r => get (Confidence._data self) r c) (rows (Confidence._data self))
       = map (fun r => get sample_metadata r c) (rows sample_metadata)).
Proof.
  apply (confidence_init_appends_scores sample_linear sample_scores).
  - unfold wf_frame. simpl. repeat constructor.
  - simpl. intros [H | [H | []]]; discriminate H.
  - reflexivity.
Defined.

(** A score vector that is not as long as a table with at least one row
    makes the column assignment raise ValueError: the base constructor
    fails, and both pipelines fail before any primitive is called. *)
Theorem init_length_mismatch_is_value_error (E : Externals)
  (rng1 rng2 : list nat) (psms : PsmDataset.t) (scores : list Z)
  (desc : bool) :
  (0 < nrows (PsmDataset.metadata psms))%nat ->
  length scores <> nrows (PsmDataset.metadata psms) ->
  Confidence.__init__ psms scores = Err ValueError /\
  LinearConfidence.__init__ E rng1 rng2 psms scores desc = ([], Err ValueError) /\
  CrossLinkedConfidence.__init__ E rng1 rng2 psms scores desc
    = ([], Err ValueError).
Proof.
  intros _ Hlen.
  assert (H : Confidence.__init__ psms scores = Err ValueError).
  { unfold Confidence.__init__, setitem.
    apply Nat.eqb_neq in Hlen. now rewrite Hlen. }
  split; [ exact H | ]. split.
  - unfold LinearConfidence.__init__, LinearConfidence.init_tdc.
    now rewrite H.
  - unfold CrossLinkedConfidence.__init__, CrossLinkedConfidence.init_tdc.
    now rewrite H.
Qed.

(** Four scores for the five sample matches. *)
Lemma init_length_mismatch_is_value_error_witness :
  Confidence.__init__ sample_linear [5; 3; 2; 7] = Err ValueError /\
  LinearConfidence.__init__ sample_externals [] [] sample_linear [5; 3; 2; 7]
    true = ([], Err ValueError) /\
  CrossLinkedConfidence.__init__ sample_externals [] [] sample_linear
    [5; 3; 2; 7] true = ([], Err ValueError).
Proof.
  apply (init_length_mismatch_is_value_error sample_externals [] []
           sample_linear [5; 3; 2; 7] true).
  - unfold nrows. simpl. lia.
  - unfold nrows. simpl. discriminate.
Defined.

(** ** Storing and reading levels *)

Lemma dict_get_set {V} (k k' : string) (v : V) (d : list (string * V)) :
  dict_get k' (dict_set k v d) = if String.eqb k k' then Some v else dict_get k' d.
Proof.
  induction d as [ | [k0 v0] d IH ]; simpl.
  - reflexivity.
  - destruct (String.eqb_spec k0 k) as [-> | Hne]; simpl.
    + destruct (String.eqb_spec k k'); reflexivity.
    + rewrite IH. destruct (String.eqb_spec k0 k') as [-> | ]; [ | reflexivity ].
      destruct (String.eqb_spec k k'); [ congruence | reflexivity ].
Qed.

Lemma dict_set_keys {V} (k : string) (v : V) (d : list (string * V)) :
  map fst (dict_set k v d)
  = if in_dec string_dec k (map fst d) then map fst d else map fst d ++ [k].
Proof.
  induction d as [ | [k0 v0] d IH ]; simpl; [ reflexivity | ].
  destruct (String.eqb_spec k0 k) as [-> | Hne]; simpl.
  - destruct (string_dec k k); [ reflexivity | congruence ].
  - rewrite IH. destruct (string_dec k0 k); [ congruence | ].
    destruct (in_dec string_dec k (map fst d)); reflexivity.
Qed.

(** A table stored under a level is the table attribute access returns
    for that level, the other levels read as before, and the list of
    levels keeps its order: a new level goes to the end, a level that is
    stored again keeps its place. *)
Theorem getattr_returns_stored_table (self : Confidence.t)
  (level attr : string) (table : DataFrame) :
  Confidence.__getattr__ (Confidence.set_estimate self level table) attr
  = (if String.eqb level attr then Ok table
     else Confidence.__getattr__ self attr) /\
  Confidence.levels (Confidence.set_estimate self level table)
  = (if in_dec string_dec level (Confidence.levels self)
     then Confidence.levels self
     else Confidence.levels self ++ [level]).
Proof.
  split.
  - unfold Confidence.__getattr__, Confidence.set_estimate. cbn.
    rewrite dict_get_set. now destruct (String.eqb level attr).
  - unfold Confidence.levels, Confidence.set_estimate. cbn.
    apply dict_set_keys.
Qed.

(** Attribute access succeeds exactly on the computed levels. *)
Theorem getattr_succeeds_iff_level (self : Confidence.t) (attr : string) :
  (exists table, Confidence.__getattr__ self attr = Ok table)
  <-> In attr (Confidence.levels self).
Proof.
  unfold Confidence.__getattr__, Confidence.levels.
  induction (Confidence._confidence_estimates self) as [ | [k v] d IH ]; simpl.
  - split; [ intros [t H]; discriminate | easy ].
  - destruct (String.eqb_spec k attr) as [-> | Hne].
    + split; [ auto | eauto ].
    + rewrite IH. split; [ auto | intros [H | H]; [ congruence | exact H ] ].
Qed.

(** ** Export *)

(** The path the loop of [to_txt] builds for a level. *)
Lemma to_txt_loop_Ok (E : Externals) (file_base sep : string)
  (items : list (string * DataFrame)) (out_files paths : list string) :
  outcome (Confidence.to_txt_loop E file_base sep items out_files) = Ok paths ->
  paths = out_files ++
          map (fun item => (file_base ++ "." ++ fst item ++ ".txt")%string) items.
Proof.
  revert out_files. induction items as [ | [level table] items IH ];
    intros out_files; cbn [Confidence.to_txt_loop].
  - unfold ret, outcome. cbn. intros H. inversion H. now rewrite app_nil_r.
  - rewrite outcome_bind.
    destruct (outcome (call_to_csv _ _ _ _)); [ | discriminate ].
    intros H. apply IH in H. rewrite H, <- app_assoc. reflexivity.
Qed.

Lemma to_txt_loop_fails (E : Externals) (file_base sep : string)
  (before after : list (string * DataFrame)) (level : string)
  (table : DataFrame) (out_files : list string) (e : exn) :
  (forall l t, In (l, t) before ->
     to_csv E t (file_base ++ "." ++ l ++ ".txt")%string sep = Ok tt) ->
  to_csv E table (file_base ++ "." ++ level ++ ".txt")%string sep = Err e ->
  Confidence.to_txt_loop E file_base sep (before ++ (level, table) :: after)
    out_files
  = (map (fun item => Call_to_csv (snd item)
                        (file_base ++ "." ++ fst item ++ ".txt")%string sep)
       (before ++ [(level, table)]),
     Err e).
Proof.
  revert out_files. induction before as [ | [l t] before IH ];
    intros out_files Hok Hfail.
  - cbn [app Confidence.to_txt_loop map fst snd].
    unfold bind, call_to_csv. now rewrite Hfail.
  - pose proof (Hok l t (or_introl eq_refl)) as Hw.
    specialize (IH (out_files ++ [(file_base ++ "." ++ l ++ ".txt")%string])
                  (fun l' t' Hin => Hok l' t' (or_intror Hin)) Hfail).
    cbn [app Confidence.to_txt_loop map fst snd].
    unfold bind at 1. unfold call_to_csv at 1. rewrite Hw, IH. reflexivity.
Qed.

(** [to_txt] stops at the first write that fails: the files of the levels
    before it have been written, the failing write has been attempted,
    no later level is touched, and the error reaches the caller in place
    of the list of paths. *)
Theorem to_txt_stops_at_first_failure (E : Externals) (self : Confidence.t)
  (dest_dir file_root : option string) (sep : string)
  (before after : list (string * DataFrame)) (level : string)
  (table : DataFrame) (e : exn) :
  Confidence._confidence_estimates self = before ++ (level, table) :: after ->
  (forall l t, In (l, t) before ->
     to_csv E t (expected_path dest_dir file_root l) sep = Ok tt) ->
  to_csv E table (expected_path dest_dir file_root level) sep = Err e ->
  Confidence.to_txt E self dest_dir file_root sep
  = (map (fun item => Call_to_csv (snd item)
                        (expected_path dest_dir file_root (fst item)) sep)
       (before ++ [(level, table)]),
     Err e).
Proof.
  intros Hitems Hok Hfail. unfold Confidence.to_txt. cbv zeta.
  rewrite Hitems. rewrite (to_txt_loop_fails E _ sep before after level table [] e).
  - f_equal. apply map_ext. intros item. now rewrite to_txt_path.
  - intros l t Hin. rewrite to_txt_path. now apply Hok.
  - rewrite to_txt_path. exact Hfail.
Qed.

(** Three levels, of which the second cannot be written. *)
Lemma to_txt_stops_at_first_failure_witness :
  Confidence.to_txt failing_csv_externals three_level_store
    (Some "out"%string) None ","%string
  = ([Call_to_csv sample_competed "out/mokapot.psms.txt" ",";
      Call_to_csv sample_competed "out/mokapot.peptides.txt" ","]%string,
     Err (ExternalError 3)).
Proof.
  apply (to_txt_stops_at_first_failure failing_csv_externals three_level_store
           (Some "out"%string) None ","%string
           [("psms"%string, sample_competed)]
           [("proteins"%string, sample_metadata)]
           "peptides"%string sample_competed (ExternalError 3)).
  - reflexivity.
  - intros l t [H | []]. inversion H. reflexivity.
  - reflexivity.
Defined.

(** A file root that starts with a slash makes [os.path.join] drop the
    directory: [to_txt] then does exactly what it does without
    [dest_dir], and writes outside the directory it was given. *)
Theorem to_txt_absolute_root_ignores_dest_dir (E : Externals)
  (self : Confidence.t) (dir root sep : string) :
  startswith_sep root = true ->
  Confidence.to_txt E self (Some dir) (Some root) sep
  = Confidence.to_txt E self None (Some root) sep.
Proof.
  intros Hroot. unfold Confidence.to_txt. cbv zeta.
  assert (H : os_path_join dir (root ++ "." ++ "mokapot")%string
              = (root ++ "." ++ "mokapot")%string).
  { unfold os_path_join. destruct root as [ | c root ]; [ discriminate | ].
    cbn in Hroot |- *. now rewrite Hroot. }
  now rewrite H.
Qed.

(** The root "/tmp/run" with the directory "out". *)
Lemma to_txt_absolute_root_ignores_dest_dir_witness :
  Confidence.to_txt sample_externals crosslinked_store (Some "out"%string)
    (Some "/tmp/run"%string) ","%string
  = Confidence.to_txt sample_externals crosslinked_store None
      (Some "/tmp/run"%string) ","%string.
Proof.
  apply (to_txt_absolute_root_ignores_dest_dir sample_externals
           crosslinked_store "out" "/tmp/run" ",").
  reflexivity.
Defined.

Lemma string_length_app (a b : string) :
  String.length (a ++ b) = (String.length a + String.length b)%nat.
Proof.
  induction a as [ | c a IH ]; simpl; [ reflexivity | ]. now rewrite IH.
Qed.

Lemma string_app_inv_head (p a b : string) :
  (p ++ a = p ++ b)%string -> a = b.
Proof.
  induction p as [ | c p IH ]; simpl; [ easy | ].
  intros H. inversion H. auto.
Qed.

Lemma string_app_inv_tail (a b s : string) :
  (a ++ s = b ++ s)%string -> a = b.
Proof.
  revert b. induction a as [ | c a IH ]; intros [ | c' b ]; simpl; intros H.
  - reflexivity.
  - apply (f_equal String.length) in H. simpl in H.
    rewrite string_length_app in H. lia.
  - apply (f_equal String.length) in H. simpl in H.
    rewrite string_length_app in H. lia.
  - inversion H. f_equal. now apply IH.
Qed.

Lemma NoDup_map_injective {A B} (f : A -> B) (l : list A) :
  (forall a b, f a = f b -> a = b) -> NoDup l -> NoDup (map f l).
Proof.
  intros Hinj Hnd. induction Hnd as [ | x l Hx Hnd IH ]; simpl; constructor.
  - intros Hin. apply in_map_iff in Hin as [y [Hy Hin]].
    apply Hinj in Hy. now subst.
  - exact IH.
Qed.

(** When [to_txt] succeeds on a store whose levels are distinct, as the
    keys of a dict are, the paths it returns are distinct, one per level
    and in the order of the levels: no level overwrites the file of
    another. *)
Theorem to_txt_paths_distinct (E : Externals) (self : Confidence.t)
  (dest_dir file_root : option string) (sep : string) (paths : list string) :
  NoDup (Confidence.levels self) ->
  outcome (Confidence.to_txt E self dest_dir file_root sep) = Ok paths ->
  paths = map (expected_path dest_dir file_root) (Confidence.levels self) /\
  NoDup paths.
Proof.
  intros Hnd Hout. unfold Confidence.to_txt in Hout. cbv zeta in Hout.
  apply to_txt_loop_Ok in Hout. rewrite app_nil_l in Hout.
  assert (Hp : paths = map (expected_path dest_dir file_root)
                         (Confidence.levels self)).
  { rewrite Hout. unfold Confidence.levels. rewrite map_map.
    apply map_ext. intros item. now rewrite to_txt_path. }
  split; [ exact Hp | ]. rewrite Hp.
  apply NoDup_map_injective; [ | exact Hnd ].
  intros a b Hab. rewrite <- !to_txt_path in Hab.
  apply string_app_inv_head in Hab. apply string_app_inv_head in Hab.
  now apply string_app_inv_tail in Hab.
Qed.

(** The two levels of a cross-linked store. *)
Lemma to_txt_paths_distinct_witness :
  ["out/run.mokapot.csms.txt"; "out/run.mokapot.peptide_pairs.txt"]%string
  = map (expected_path (Some "out"%string) (Some "run"%string))
      (Confidence.levels crosslinked_store) /\
  NoDup ["out/run.mokapot.csms.txt"; "out/run.mokapot.peptide_pairs.txt"]%string.
Proof.
  apply (to_txt_paths_distinct sample_externals crosslinked_store
           (Some "out"%string) (Some "run"%string) ","%string).
  - simpl. repeat constructor; simpl; intuition discriminate.
  - reflexivity.
Defined.

(** ** The linear pipeline: what the primitives are called with *)

Lemma mask_map_filter {A} (g : Row -> Z) (f : Row -> A) (rs : list Row) :
  mask (astype_bool (map g rs)) (map f rs)
  = map f (filter (fun r => negb (g r =? 0)) rs).
Proof.
  induction rs as [ | r rs IH ]; simpl; [ reflexivity | ].
  destruct (g r =? 0); simpl; now rewrite IH.
Qed.

Lemma mask_invert_map_filter {A} (g : Row -> Z) (f : Row -> A) (rs : list Row) :
  mask (invert (astype_bool (map g rs))) (map f rs)
  = map f (filter (fun r => g r =? 0) rs).
Proof.
  induction rs as [ | r rs IH ]; simpl; [ reflexivity | ].
  destruct (g r =? 0); simpl; now rewrite IH.
Qed.

Lemma trace_call_tdc (E : Externals) (s : list Z) (t : list bool) (d : bool) :
  trace (call_tdc E s t d) = [Call_tdc s t d].
Proof. reflexivity. Qed.

Lemma outcome_call_tdc (E : Externals) (s : list Z) (t : list bool) (d : bool) :
  outcome (call_tdc E s t d) = qvalues_tdc E s t d.
Proof. reflexivity. Qed.

Lemma trace_call_pep (E : Externals) (p n : list Z) :
  trace (call_getQvaluesFromScores E p n) = [Call_getQvaluesFromScores p n].
Proof. reflexivity. Qed.

Lemma outcome_call_pep (E : Externals) (p n : list Z) :
  outcome (call_getQvaluesFromScores E p n)
  = qvality_getQvaluesFromScores E p n.
Proof. reflexivity. Qed.

(** The calls of one pass of the linear loop: none, the q-value call, or
    the q-value call and then the PEP call; both when the pass succeeds. *)
Lemma linear_assign_level_calls (E : Externals) (self : LinearConfidence.t)
  (desc : bool) (data : DataFrame) :
  exists c1 c2,
    linear_call_for (Confidence._score_column (LinearConfidence.base self))
      (LinearConfidence._target_column self) desc data c1 /\
    linear_call_for (Confidence._score_column (LinearConfidence.base self))
      (LinearConfidence._target_column self) desc data c2 /\
    (exists s t d, c1 = Call_tdc s t d) /\
    (exists p n, c2 = Call_getQvaluesFromScores p n) /\
    (trace (LinearConfidence.assign_level E self desc data) = [] \/
     trace (LinearConfidence.assign_level E self desc data) = [c1] \/
     trace (LinearConfidence.assign_level E self desc data) = [c1; c2]) /\
    (forall r, outcome (LinearConfidence.assign_level E self desc data) = Ok r ->
       trace (LinearConfidence.assign_level E self desc data) = [c1; c2]).
Proof.
  set (score := Confidence._score_column (LinearConfidence.base self)).
  set (target := LinearConfidence._target_column self).
  set (scores := map (fun r => get data r score) (rows data)).
  set (labels := map (fun r => get data r target) (rows data)).
  exists (Call_tdc scores (astype_bool labels) desc),
    (Call_getQvaluesFromScores (mask (astype_bool labels) scores)
       (mask (invert (astype_bool labels)) scores)).
  split; [ | split; [ | split; [ eauto | split; [ eauto | ] ] ] ].
  - simpl. split; [ reflexivity | ]. split; [ reflexivity | ].
    apply astype_bool_labels.
  - simpl. unfold scores, labels. split.
    + apply mask_map_filter.
    + apply mask_invert_map_filter.
  - unfold LinearConfidence.assign_level. cbv zeta.
    fold score target. lift_step.
    destruct (column_values score data) as [scores' | ] eqn:Hs;
      [ | cbn; split; [ auto | discriminate ] ].
    lift_step.
    destruct (column_values target data) as [labels' | ] eqn:Hl;
      [ | cbn; split; [ auto | discriminate ] ].
    apply column_values_Ok in Hs as [_ Hs].
    apply column_values_Ok in Hl as [_ Hl].
    fold scores in Hs. fold labels in Hl. subst scores' labels'.
    cbv beta iota. rewrite trace_bind, outcome_bind.
    rewrite !trace_call_tdc, !outcome_call_tdc.
    destruct (qvalues_tdc E _ _ _) as [qvals | ];
      [ | cbn; split; [ auto | discriminate ] ].
    lift_step. destruct (setitem _ qvals data);
      [ | cbn; split; [ auto | discriminate ] ].
    lift_step. destruct (sort_values _ _ _);
      [ | cbn; split; [ auto | discriminate ] ].
    lift_step. destruct (drop _ _);
      [ | cbn; split; [ auto | discriminate ] ].
    cbv beta iota. rewrite trace_bind, outcome_bind.
    rewrite !trace_call_pep, !outcome_call_pep.
    destruct (qvality_getQvaluesFromScores E _ _) as [qp | ];
      [ | cbn; split; [ auto | discriminate ] ].
    lift_step. destruct (setitem _ (snd qp) _); cbn.
    + split; [ auto | reflexivity ].
    + split; [ auto | discriminate ].
Qed.

Lemma linear_init_trace (E : Externals) (rng1 rng2 : list nat)
  (psms : PsmDataset.t) (scores : list Z) (desc : bool) (c : call) :
  In c (trace (LinearConfidence.__init__ E rng1 rng2 psms scores desc)) ->
  exists self self' frames data,
    LinearConfidence.init_tdc rng1 psms scores = Ok self /\
    LinearConfidence.level_frames rng2 self = Ok frames /\
    (data = fst frames \/ data = snd frames) /\
    Confidence._score_column (LinearConfidence.base self')
      = Confidence._score_column (LinearConfidence.base self) /\
    LinearConfidence._target_column self'
      = LinearConfidence._target_column self /\
    In c (trace (LinearConfidence.assign_level E self' desc data)).
Proof.
  unfold LinearConfidence.__init__.
  rewrite trace_bind, outcome_lift, trace_lift. cbn [app].
  destruct (LinearConfidence.init_tdc rng1 psms scores) as [self | ];
    [ | easy ].
  unfold LinearConfidence._assign_confidence.
  rewrite trace_bind, outcome_lift, trace_lift. cbn [app].
  destruct (LinearConfidence.level_frames rng2 self) as [frames | ] eqn:Hf;
    [ | easy ].
  rewrite trace_bind. intros Hin. apply in_app_or in Hin as [Hin | Hin].
  - exists self, self, frames, (fst frames).
    split; [ reflexivity | ]. split; [ exact Hf | ].
    split; [ now left | ]. split; [ reflexivity | ]. split; [ reflexivity | exact Hin ].
  - revert Hin.
    destruct (outcome (LinearConfidence.assign_level E self desc (fst frames)))
      as [r1 | ]; [ | easy ].
    rewrite trace_bind. intros Hin. apply in_app_or in Hin as [Hin | Hin].
    + eexists self, _, frames, (snd frames).
      split; [ reflexivity | ]. split; [ exact Hf | ].
      split; [ now right | ]. split; [ reflexivity | ]. split; [ reflexivity | exact Hin ].
    + revert Hin.
      destruct (outcome (LinearConfidence.assign_level E _ desc (snd frames)));
        easy.
Qed.

(** Every call of a primitive that the constructor of LinearConfidence
    makes is for one of the two frames of the levels: [qvalues.tdc] gets
    the scores of the frame, the boolean labels of its rows and the
    direction of the caller; the PEP primitive gets the scores of the
    target rows as the first sample and the scores of the decoy rows as
    the second. *)
Theorem linear_primitive_calls (E : Externals) (rng1 rng2 : list nat)
  (psms : PsmDataset.t) (scores : list Z) (desc : bool) :
  Forall
    (fun c =>
       exists self frames data,
         LinearConfidence.init_tdc rng1 psms scores = Ok self /\
         LinearConfidence.level_frames rng2 self = Ok frames /\
         (data = fst frames \/ data = snd frames) /\
         linear_call_for
           (Confidence._score_column (LinearConfidence.base self))
           (LinearConfidence._target_column self) desc data c)
    (trace (LinearConfidence.__init__ E rng1 rng2 psms scores desc)).
Proof.
  apply Forall_forall. intros c Hin.
  destruct (linear_init_trace _ _ _ _ _ _ _ Hin)
    as [self [self' [frames [data [Hi [Hf [Hd [Hsc [Htc Hc]]]]]]]]].
  exists self, frames, data.
  split; [ exact Hi | ]. split; [ exact Hf | ]. split; [ exact Hd | ].
  destruct (linear_assign_level_calls E self' desc data)
    as [c1 [c2 [H1 [H2 [_ [_ [Htr _]]]]]]].
  rewrite Hsc, Htc in H1, H2.
  destruct Htr as [Htr | [Htr | Htr]]; rewrite Htr in Hc; simpl in Hc.
  - destruct Hc.
  - destruct Hc as [<- | []]. exact H1.
  - destruct Hc as [<- | [<- | []]]; assumption.
Qed.

(** The two frames of the loop: the table of the competition on spectra,
    and what the competition on peptides selects from it. *)
Lemma linear_level_frames_spec (rng : list nat) (self : LinearConfidence.t)
  (frames : DataFrame * DataFrame) :
  LinearConfidence.level_frames rng self = Ok frames ->
  fst frames = Confidence._data (LinearConfidence.base self) /\
  exists peptide_idx,
    _groupby_max rng (Confidence._data (LinearConfidence.base self))
      (LinearConfidence._peptide_columns self)
      (Confidence._score_column (LinearConfidence.base self)) = Ok peptide_idx /\
    loc peptide_idx (Confidence._data (LinearConfidence.base self))
      = Ok (snd frames).
Proof.
  intros H. unfold LinearConfidence.level_frames in H.
  apply rbind_Ok in H as [idx [Hidx H]].
  apply rbind_Ok in H as [peptides [Hp H]]. inversion H; subst; clear H.
  split; [ reflexivity | ]. exists idx. split; [ exact Hidx | exact Hp ].
Qed.

(** A successful construction of LinearConfidence has made exactly four
    calls, in this order: the q-value primitive and then the PEP
    primitive for the PSM level, which is the table the competition on
    spectra left; then the q-value primitive and the PEP primitive for
    the peptide level, which is what the competition on peptides selects
    from that table.  Each call has the arguments of its level: the
    scores and the boolean labels of all rows of the frame and the
    direction of the caller, or the scores of its target rows and the
    scores of its decoy rows. *)
Theorem linear_success_makes_four_calls (E : Externals) (rng1 rng2 : list nat)
  (psms : PsmDataset.t) (scores : list Z) (desc : bool)
  (final : LinearConfidence.t) :
  outcome (LinearConfidence.__init__ E rng1 rng2 psms scores desc) = Ok final ->
  exists (self : LinearConfidence.t) (psm_level peptide_level : DataFrame)
         (peptide_idx : list Z) s1 t1 p1 n1 s2 t2 p2 n2,
    LinearConfidence.init_tdc rng1 psms scores = Ok self /\
    psm_level = Confidence._data (LinearConfidence.base self) /\
    _groupby_max rng2 psm_level (LinearConfidence._peptide_columns self)
      (Confidence._score_column (LinearConfidence.base self)) = Ok peptide_idx /\
    loc peptide_idx psm_level = Ok peptide_level /\
    trace (LinearConfidence.__init__ E rng1 rng2 psms scores desc)
    = [Call_tdc s1 t1 desc; Call_getQvaluesFromScores p1 n1;
       Call_tdc s2 t2 desc; Call_getQvaluesFromScores p2 n2] /\
    linear_call_for (Confidence._score_column (LinearConfidence.base self))
      (LinearConfidence._target_column self) desc psm_level
      (Call_tdc s1 t1 desc) /\
    linear_call_for (Confidence._score_column (LinearConfidence.base self))
      (LinearConfidence._target_column self) desc psm_level
      (Call_getQvaluesFromScores p1 n1) /\
    linear_call_for (Confidence._score_column (LinearConfidence.base self))
      (LinearConfidence._target_column self) desc peptide_level
      (Call_tdc s2 t2 desc) /\
    linear_call_for (Confidence._score_column (LinearConfidence.base self))
      (LinearConfidence._target_column self) desc peptide_level
      (Call_getQvaluesFromScores p2 n2).
Proof.
  unfold LinearConfidence.__init__.
  rewrite outcome_bind, trace_bind, outcome_lift, trace_lift. cbn [app].
  destruct (LinearConfidence.init_tdc rng1 psms scores) as [self | ];
    [ | discriminate ].
  unfold LinearConfidence._assign_confidence.
  rewrite outcome_bind, trace_bind, outcome_lift, trace_lift. cbn [app].
  destruct (LinearConfidence.level_frames rng2 self) as [frames | ] eqn:Hf;
    [ | discriminate ].
  destruct (linear_level_frames_spec rng2 self frames Hf)
    as [Hfst [idx [Hidx Hloc]]].
  rewrite outcome_bind, trace_bind.
  destruct (linear_assign_level_calls E self desc (fst frames))
    as [c1 [c2 [H1 [H2 [[s1 [t1 [d1 ->]]] [[p1 [n1 ->]] [_ Hok1]]]]]]].
  destruct (outcome (LinearConfidence.assign_level E self desc (fst frames)))
    as [r1 | ] eqn:Ho1; [ | discriminate ].
  rewrite (Hok1 r1 eq_refl).
  rewrite outcome_bind, trace_bind.
  match goal with
  | |- context [LinearConfidence.assign_level E ?s desc (snd frames)] =>
      destruct (linear_assign_level_calls E s desc (snd frames))
        as [c3 [c4 [H3 [H4 [[s2 [t2 [d2 ->]]] [[p2 [n2 ->]] [_ Hok2]]]]]]];
      destruct (outcome (LinearConfidence.assign_level E s desc (snd frames)))
        as [r2 | ] eqn:Ho2; [ | discriminate ]
  end.
  rewrite (Hok2 r2 eq_refl). intros _.
  cbn [LinearConfidence.base LinearConfidence.set_base
       LinearConfidence._target_column Confidence.set_estimate
       Confidence.set_data Confidence._score_column] in H3, H4.
  assert (d1 = desc) by (destruct H1 as [_ [-> _]]; reflexivity).
  assert (d2 = desc) by (destruct H3 as [_ [-> _]]; reflexivity).
  subst d1 d2. rewrite Hfst in H1, H2.
  exists self, (Confidence._data (LinearConfidence.base self)), (snd frames),
    idx, s1, t1, p1, n1, s2, t2, p2, n2.
  split; [ reflexivity | ]. split; [ reflexivity | ].
  split; [ exact Hidx | ]. split; [ exact Hloc | ].
  split; [ cbn; reflexivity | ]. auto.
Qed.

(** The run on the sample dataset: three rows at the PSM level, of which
    two are targets, and three at the peptide level. *)
Lemma linear_success_makes_four_calls_witness :
  exists (self : LinearConfidence.t) (psm_level peptide_level : DataFrame)
         s1 t1 p1 n1 s2 t2 p2 n2,
    LinearConfidence.init_tdc [3; 1; 4]%nat sample_linear sample_scores
      = Ok self /\
    psm_level = Confidence._data (LinearConfidence.base self) /\
    trace (LinearConfidence.__init__ sample_externals [3; 1; 4]%nat [2; 7]%nat
             sample_linear sample_scores true)
    = [Call_tdc s1 t1 true; Call_getQvaluesFromScores p1 n1;
       Call_tdc s2 t2 true; Call_getQvaluesFromScores p2 n2] /\
    linear_call_for (Confidence._score_column (LinearConfidence.base self))
      (LinearConfidence._target_column self) true psm_level
      (Call_tdc s1 t1 true) /\
    linear_call_for (Confidence._score_column (LinearConfidence.base self))
      (LinearConfidence._target_column self) true peptide_level
      (Call_tdc s2 t2 true).
Proof.
  destruct (outcome (LinearConfidence.__init__ sample_externals [3; 1; 4]%nat
                       [2; 7]%nat sample_linear sample_scores true))
    as [final | e] eqn:Hout; [ | vm_compute in Hout; discriminate Hout ].
  destruct (linear_success_makes_four_calls sample_externals [3; 1; 4]%nat
              [2; 7]%nat sample_linear sample_scores true final Hout)
    as [self [d1 [d2 [idx [s1 [t1 [p1 [n1 [s2 [t2 [p2 [n2
         [Hi [Hd [_ [_ [Ht [H1 [_ [H3 _]]]]]]]]]]]]]]]]]]]].
  exists self, d1, d2, s1, t1, p1, n1, s2, t2, p2, n2. auto.
Defined.

(** ** The log message of the linear constructor *)

Lemma setitem_total (name : colname) (vals : list Z) (df : DataFrame) :
  length vals = nrows df ->
  exists df', setitem name vals df = Ok df' /\ nrows df' = nrows df /\
              exists c, last_column df' = Ok c.
Proof.
  intros Hlen. unfold setitem. rewrite Hlen, Nat.eqb_refl.
  destruct (col_pos (columns df) name) as [p | ] eqn:Hp.
  - eexists. split; [ reflexivity | ]. split.
    + unfold nrows. cbn [rows]. now apply zip_rows_length.
    + unfold last_column. cbn [columns].
      apply col_pos_Some_In in Hp.
      destruct (columns df) as [ | h t ] eqn:Hc; [ destruct Hp | ].
      destruct (rev (h :: t)) as [ | c l ] eqn:Hr; [ | eauto ].
      apply (f_equal (@length colname)) in Hr. rewrite length_rev in Hr.
      discriminate Hr.
  - eexists. split; [ reflexivity | ]. split.
    + unfold nrows. cbn [rows]. now apply zip_rows_length.
    + exists name. unfold last_column. cbn [columns]. now rewrite rev_unit.
Qed.

(** When the scores and the labels fit the table but one of the spectrum
    columns is not named by a string, joining the names for the log
    message raises TypeError: the constructor of LinearConfidence ends
    there, before the competition and before any call of a primitive. *)
Theorem linear_non_string_spectrum_column_is_type_error (E : Externals)
  (rng1 rng2 : list nat) (psms : PsmDataset.t) (scores : list Z)
  (desc : bool) (c : colname) :
  length scores = nrows (PsmDataset.metadata psms) ->
  length (PsmDataset.targets psms) = nrows (PsmDataset.metadata psms) ->
  In c (PsmDataset._spectrum_columns psms) ->
  is_str c = false ->
  LinearConfidence.__init__ E rng1 rng2 psms scores desc
  = ([], Err TypeError).
Proof.
  intros Hs Ht Hin Hc.
  assert (Hinit : LinearConfidence.init_tdc rng1 psms scores = Err TypeError).
  { unfold LinearConfidence.init_tdc, Confidence.__init__.
    destruct (setitem_total
                (CInt (Z.of_nat (length (PsmDataset.columns psms))))
                scores (PsmDataset.metadata psms) Hs)
      as [data [Hd [Hn [sc Hsc]]]].
    rewrite Hd. cbn [rbind]. rewrite Hsc. cbn [rbind Confidence._data].
    destruct (setitem_total (CInt (Z.of_nat (length (columns data))))
                (PsmDataset.targets psms) data)
      as [data' [Hd' [_ [tc Htc]]]]; [ congruence | ].
    rewrite Hd'. cbn [rbind]. rewrite Htc.
    cbn [rbind LinearConfidence._psm_columns].
    replace (forallb is_str (PsmDataset._spectrum_columns psms)) with false;
      [ reflexivity | ].
    symmetry. apply not_true_is_false. intros Hall.
    rewrite forallb_forall in Hall. rewrite (Hall c Hin) in Hc.
    discriminate Hc. }
  unfold LinearConfidence.__init__. rewrite Hinit. reflexivity.
Qed.

(** A dataset whose spectrum column is named by the int 0. *)
Lemma linear_non_string_spectrum_column_is_type_error_witness :
  LinearConfidence.__init__ sample_externals [3; 1; 4]%nat [2; 7]%nat
    int_named_dataset [5; 7] true
  = ([], Err TypeError).
Proof.
  apply (linear_non_string_spectrum_column_is_type_error sample_externals
           [3; 1; 4]%nat [2; 7]%nat int_named_dataset [5; 7] true (CInt 0)).
  - reflexivity.
  - reflexivity.
  - simpl. auto.
  - reflexivity.
Defined.

(** ** The values in the tables of a linear construction *)

(** The cell of a result row under "mokapot q-value". *)
Lemma result_cell_qvalue (cols : list colname) (cs : list Z)
  (score target : colname) (pt : nat) (q v : Z) :
  length cs = length cols ->
  ~ In (CStr "mokapot q-value") cols ->
  ~ In (CStr "mokapot score") cols ->
  ~ In (CStr "mokapot PEP") cols ->
  In score cols -> In target cols ->
  col_pos (cols ++ [CStr "mokapot q-value"]) target = Some pt ->
  lookup
    (map (fun x => if colname_eqb x score then CStr "mokapot score" else x)
       (remove_nth pt (cols ++ [CStr "mokapot q-value"]))
     ++ [CStr "mokapot PEP"])
    (remove_nth pt (cs ++ [q]) ++ [v])
    (CStr "mokapot q-value")
  = q.
Proof.
  intros Hlen HQ HMS HPEP Hscore Htarget Hpt.
  set (L := cols ++ [CStr "mokapot q-value"]) in *.
  assert (HQL : In (CStr "mokapot q-value") L)
    by (apply in_or_app; right; now left).
  assert (HMSL : ~ In (CStr "mokapot score") L).
  { intros H. apply in_app_or in H as [H | [H | []]]; [ auto | discriminate ]. }
  assert (Hbound : (pt < length L)%nat) by now apply col_pos_bound in Hpt.
  assert (HlenL : length (cs ++ [q]) = length L).
  { unfold L. rewrite !length_app. simpl. lia. }
  assert (Hqt : CStr "mokapot q-value" <> target).
  { intros H. rewrite <- H in Htarget. auto. }
  assert (Hqs : colname_eqb (CStr "mokapot q-value") score = false).
  { destruct (colname_eqb _ score) eqn:Ex; [ | reflexivity ].
    apply colname_eqb_eq in Ex. rewrite <- Ex in Hscore. elim (HQ Hscore). }
  rewrite lookup_app_l.
  - pose proof (lookup_rename (remove_nth pt L) (remove_nth pt (cs ++ [q]))
                  score (CStr "mokapot score") (CStr "mokapot q-value")) as Hr.
    rewrite Hqs in Hr. rewrite Hr.
    + rewrite (lookup_remove_nth L (cs ++ [q]) _ target pt Hpt Hqt).
      unfold L. now apply lookup_app_new.
    + intros H. apply remove_nth_In in H. auto.
    + discriminate.
  - apply in_map_iff. exists (CStr "mokapot q-value"). split.
    + now rewrite Hqs.
    + now apply (remove_nth_keeps L _ target pt).
  - rewrite length_map.
    pose proof (remove_nth_length pt L Hbound).
    assert (pt < length (cs ++ [q]))%nat by lia.
    pose proof (remove_nth_length pt (cs ++ [q]) H0). lia.
Qed.

(** The cell of a result row under "mokapot PEP". *)
Lemma result_cell_pep (cols : list colname) (cs : list Z)
  (score target : colname) (pt : nat) (q v : Z) :
  length cs = length cols ->
  ~ In (CStr "mokapot PEP") cols ->
  In score cols ->
  col_pos (cols ++ [CStr "mokapot q-value"]) target = Some pt ->
  lookup
    (map (fun x => if colname_eqb x score then CStr "mokapot score" else x)
       (remove_nth pt (cols ++ [CStr "mokapot q-value"]))
     ++ [CStr "mokapot PEP"])
    (remove_nth pt (cs ++ [q]) ++ [v])
    (CStr "mokapot PEP")
  = v.
Proof.
  intros Hlen HPEP Hscore Hpt.
  set (L := cols ++ [CStr "mokapot q-value"]) in *.
  assert (Hbound : (pt < length L)%nat) by now apply col_pos_bound in Hpt.
  assert (HlenL : length (cs ++ [q]) = length L).
  { unfold L. rewrite !length_app. simpl. lia. }
  apply lookup_app_new.
  - intros H. apply in_map_iff in H as [x [Hx Hin]].
    apply remove_nth_In in Hin.
    destruct (colname_eqb x score); [ discriminate Hx | ]. subst x.
    apply in_app_or in Hin as [Hin | [Hin | []]]; [ auto | discriminate ].
  - rewrite length_map.
    pose proof (remove_nth_length pt L Hbound).
    assert (pt < length (cs ++ [q]))%nat by lia.
    pose proof (remove_nth_length pt (cs ++ [q]) H0). lia.
Qed.

(** One pass of the linear loop, with the answers of the primitives. *)
Lemma linear_assign_level_values (E : Externals) (self : LinearConfidence.t)
  (desc : bool) (data data_q table : DataFrame) :
  (forall c, In c reserved_names -> ~ In c (columns data)) ->
  outcome (LinearConfidence.assign_level E self desc data) = Ok (data_q, table) ->
  exists (qvals q pep : list Z) (pt : nat),
    In (Confidence._score_column (LinearConfidence.base self)) (columns data) /\
    In (LinearConfidence._target_column self) (columns data) /\
    qvalues_tdc E
      (map (fun r => get data r (Confidence._score_column (LinearConfidence.base self)))
         (rows data))
      (astype_bool
         (map (fun r => get data r (LinearConfidence._target_column self))
            (rows data))) desc = Ok qvals /\
    qvality_getQvaluesFromScores E
      (map (fun r => get data r (Confidence._score_column (LinearConfidence.base self)))
         (filter (fun r => negb (get data r (LinearConfidence._target_column self) =? 0))
            (rows data)))
      (map (fun r => get data r (Confidence._score_column (LinearConfidence.base self)))
         (filter (fun r => get data r (LinearConfidence._target_column self) =? 0)
            (rows data)))
      = Ok (q, pep) /\
    length qvals = nrows data /\
    data_q = mkDF (columns data ++ [CStr "mokapot q-value"])
               (zip_rows (fun r v => mkRow (label r) (cells r ++ [v]))
                  (rows data) qvals) /\
    col_pos (columns data ++ [CStr "mokapot q-value"])
      (LinearConfidence._target_column self) = Some pt /\
    table =
      mkDF
        (map (fun x =>
                if colname_eqb x (Confidence._score_column (LinearConfidence.base self))
                then CStr "mokapot score" else x)
           (remove_nth pt (columns data ++ [CStr "mokapot q-value"]))
         ++ [CStr "mokapot PEP"])
        (zip_rows
           (fun r v => mkRow (label r) (remove_nth pt (cells r) ++ [v]))
           (relabel 0
              (stable_sort
                 (row_leb (mkDF (columns data ++ [CStr "mokapot q-value"]) [])
                    [Confidence._score_column (LinearConfidence.base self)]
                    (negb desc))
                 (mask
                    (astype_bool
                       (map (fun r => get data r (LinearConfidence._target_column self))
                          (rows data)))
                    (zip_rows (fun r v => mkRow (label r) (cells r ++ [v]))
                       (rows data) qvals))))
           pep) /\
    length pep
    = length (filter
                (fun r => negb (get data r (LinearConfidence._target_column self) =? 0))
                (rows data)).
Proof.
  intros Hres. unfold LinearConfidence.assign_level. cbv zeta.
  set (score := Confidence._score_column (LinearConfidence.base self)).
  set (target := LinearConfidence._target_column self).
  assert (HQ : ~ In (CStr "mokapot q-value") (columns data))
    by (apply Hres; simpl; auto).
  assert (HMS : ~ In (CStr "mokapot score") (columns data))
    by (apply Hres; simpl; auto).
  assert (HPEP : ~ In (CStr "mokapot PEP") (columns data))
    by (apply Hres; simpl; auto).
  lift_step.
  destruct (column_values score data) as [scores | ] eqn:Hs; [ | easy ].
  lift_step.
  destruct (column_values target data) as [labels | ] eqn:Hl; [ | easy ].
  apply column_values_Ok in Hs as [Hscore ->].
  apply column_values_Ok in Hl as [Htarget ->].
  lift_step. rewrite outcome_call_tdc.
  destruct (qvalues_tdc E _ _ desc) as [qvals | ] eqn:Hq0; [ | easy ].
  lift_step.
  destruct (setitem _ qvals data) as [dq | ] eqn:Hq; [ | easy ].
  pose proof (setitem_Ok _ _ _ _ Hq) as [Hqlen _].
  unfold setitem in Hq. rewrite Hqlen, Nat.eqb_refl in Hq.
  rewrite (proj2 (col_pos_None _ _) HQ) in Hq. inversion Hq; subst dq; clear Hq.
  lift_step.
  destruct (sort_values _ _ _) as [sorted | ] eqn:Hsort; [ | easy ].
  apply sort_values_Ok in Hsort. subst sorted.
  lift_step. unfold drop, reset_index. cbn [columns rows loc_mask].
  destruct (col_pos (columns data ++ [CStr "mokapot q-value"]) target)
    as [pt | ] eqn:Hpt; [ | easy ].
  lift_step. rewrite outcome_call_pep.
  rewrite mask_map_filter, mask_invert_map_filter.
  destruct (qvality_getQvaluesFromScores E _ _) as [[q pep] | ] eqn:Hp0;
    [ | easy ].
  lift_step. cbn [snd].
  match goal with
  | |- context [setitem _ pep ?d] =>
      destruct (setitem (CStr "mokapot PEP") pep d) as [tbl | ] eqn:Hp;
        [ | easy ]
  end.
  pose proof (setitem_Ok _ _ _ _ Hp) as [Hplen _].
  unfold setitem in Hp. rewrite Hplen, Nat.eqb_refl in Hp.
  unfold rename in Hp, Hplen. cbn [columns rows nrows] in Hp, Hplen.
  match type of Hp with
  | context [col_pos ?cs (CStr "mokapot PEP")] =>
      assert (Hnone : col_pos cs (CStr "mokapot PEP") = None)
  end.
  { apply col_pos_None. intros H. apply in_map_iff in H as [x [Hx Hin]].
    apply remove_nth_In in Hin.
    destruct (colname_eqb x score); [ discriminate Hx | ]. subst x.
    apply in_app_or in Hin as [Hin | [Hin | []]]; [ auto | discriminate ]. }
  rewrite Hnone in Hp. inversion Hp; subst tbl; clear Hp.
  unfold ret, outcome. cbn [snd]. intros H. inversion H; subst; clear H.
  exists qvals, q, pep, pt.
  split; [ exact Hscore | ]. split; [ exact Htarget | ].
  split; [ reflexivity | ]. split; [ reflexivity | ].
  split; [ exact Hqlen | ]. split; [ reflexivity | ].
  split; [ reflexivity | ].
  split.
  - f_equal. rewrite zip_rows_map. reflexivity.
  - unfold nrows in Hplen. cbn [rows] in Hplen.
    rewrite length_map, relabel_length in Hplen. rewrite Hplen.
    rewrite (Permutation_length (stable_sort_perm _ _)).
    now apply mask_zip_rows_length.
Qed.

(** One pass of the linear loop over a well-formed frame stores a table
    with the values of the primitives in it. *)
Lemma linear_assign_level_table_values (E : Externals)
  (self : LinearConfidence.t) (desc : bool) (data data_q table : DataFrame) :
  wf_frame data ->
  (forall c, In c reserved_names -> ~ In c (columns data)) ->
  Confidence._score_column (LinearConfidence.base self)
    <> LinearConfidence._target_column self ->
  outcome (LinearConfidence.assign_level E self desc data) = Ok (data_q, table) ->
  table_values_ok E (Confidence._score_column (LinearConfidence.base self))
    (LinearConfidence._target_column self) desc data table.
Proof.
  intros Hwf Hres Hne Hout.
  destruct (linear_assign_level_values E self desc data data_q table Hres Hout)
    as [qvals [q [pep [pt [Hscore [Htarget [Hq0 [Hp0 [Hqlen [_ [Hpt [-> Hplen]]]]]]]]]]]].
  set (score := Confidence._score_column (LinearConfidence.base self)) in *.
  set (target := LinearConfidence._target_column self) in *.
  assert (HQ : ~ In (CStr "mokapot q-value") (columns data))
    by (apply Hres; simpl; auto).
  assert (HMS : ~ In (CStr "mokapot score") (columns data))
    by (apply Hres; simpl; auto).
  assert (HPEP : ~ In (CStr "mokapot PEP") (columns data))
    by (apply Hres; simpl; auto).
  set (L := columns data ++ [CStr "mokapot q-value"]) in *.
  set (ren := fun x => if colname_eqb x score then CStr "mokapot score" else x).
  set (rows_q := zip_rows (fun r v => mkRow (label r) (cells r ++ [v]))
                   (rows data) qvals) in *.
  set (kept := mask (astype_bool (map (fun r => get data r target) (rows data)))
                 rows_q) in *.
  set (S := stable_sort (row_leb (mkDF L []) [score] (negb desc)) kept) in *.
  assert (Hwfr : forall r, In r (rows data) ->
            length (cells r) = length (columns data)).
  { now apply Forall_forall. }
  assert (HS : forall s, In s S ->
            exists r q, In r (rows data) /\ cells s = cells r ++ [q]).
  { intros s Hs.
    apply (Permutation_in s
             (stable_sort_perm (row_leb (mkDF L []) [score] (negb desc)) kept))
      in Hs.
    apply mask_zip_rows_In in Hs as [r [v [Hr [_ ->]]]].
    exists r, v. split; [ exact Hr | reflexivity ]. }
  assert (HR : forall x, In x (relabel 0 S) ->
            exists r q, In r (rows data) /\ cells x = cells r ++ [q]).
  { intros x Hx. apply relabel_In in Hx as [s [Hs Ex]].
    destruct (HS s Hs) as [r [v [Hr Es]]]. exists r, v. split; congruence. }
  assert (Hlen_pep : length pep = length (relabel 0 S)).
  { rewrite relabel_length. unfold S.
    rewrite (Permutation_length (stable_sort_perm _ _)).
    unfold kept, rows_q. rewrite mask_zip_rows_length by exact Hqlen.
    exact Hplen. }
  exists qvals, q, pep.
  split; [ exact Hq0 | ]. split; [ exact Hqlen | ]. split; [ exact Hp0 | ].
  cbn [rows]. split.
  - (* the PEP column *)
    rewrite (zip_rows_map_value _ _ (fun _ v => v)).
    + now apply combine_map_snd.
    + intros x v Hx. destruct (HR x Hx) as [r [w [Hr Ex]]].
      rewrite get_lookup. cbn [columns cells]. rewrite Ex.
      apply (result_cell_pep (columns data) (cells r) score target pt w v);
        auto.
  - (* the pairs of score and q-value *)
    rewrite (zip_rows_map_value _ _
               (fun x _ => (lookup L (cells x) score,
                            lookup L (cells x) (CStr "mokapot q-value")))).
    + change (fun p : Row * Z =>
                (lookup L (cells (fst p)) score,
                 lookup L (cells (fst p)) (CStr "mokapot q-value")))
        with (fun p : Row * Z =>
                (fun r => (lookup L (cells r) score,
                           lookup L (cells r) (CStr "mokapot q-value")))
                  (fst p)).
      rewrite <- (map_map fst).
      rewrite combine_map_fst by exact Hlen_pep.
      rewrite (relabel_map_cells
                 (fun cs => (lookup L cs score,
                             lookup L cs (CStr "mokapot q-value")))).
      eapply Permutation_trans.
      * apply Permutation_map. apply stable_sort_perm.
      * unfold kept, rows_q. rewrite mask_zip_rows_map.
        erewrite map_ext_in; [ apply Permutation_refl | ].
        intros [r v] Hin. apply filter_In in Hin as [Hin _].
        apply in_combine_l in Hin. cbn [fst snd cells].
        unfold L. rewrite lookup_app_l by auto.
        rewrite lookup_app_new by auto.
        now rewrite get_lookup.
    + intros x v Hx. destruct (HR x Hx) as [r [w [Hr Ex]]].
      rewrite !get_lookup. cbn [columns cells]. rewrite Ex. f_equal.
      * replace (CStr "mokapot score") with (ren score)
          by (unfold ren; now rewrite colname_eqb_refl).
        unfold ren, L.
        rewrite (result_cell (columns data) (cells r) score target score pt w v);
          auto.
        symmetry. apply lookup_app_l; auto.
      * unfold ren, L.
        rewrite (result_cell_qvalue (columns data) (cells r) score target pt w v);
          auto.
        symmetry. apply lookup_app_new; auto.
Qed.

(** A successful construction from a well-formed dataset, taken apart:
    the state after the competition on spectra, the two frames, the two
    passes of the loop and what they return. *)
Lemma linear_init_passes (E : Externals) (rng1 rng2 : list nat)
  (psms : PsmDataset.t) (scores : list Z) (desc : bool)
  (final : LinearConfidence.t) :
  well_formed_dataset psms -> appends_new_columns psms ->
  outcome (LinearConfidence.__init__ E rng1 rng2 psms scores desc) = Ok final ->
  exists (self : LinearConfidence.t) (frames : DataFrame * DataFrame)
         (dq1 t1 dq2 t2 : DataFrame),
    LinearConfidence.init_tdc rng1 psms scores = Ok self /\
    LinearConfidence.level_frames rng2 self = Ok frames /\
    fst frames = Confidence._data (LinearConfidence.base self) /\
    outcome (LinearConfidence.assign_level E self desc (fst frames))
      = Ok (dq1, t1) /\
    outcome (LinearConfidence.assign_level E
               (LinearConfidence.set_base self
                  (Confidence.set_estimate
                     (Confidence.set_data (LinearConfidence.base self) dq1)
                     "psms" t1))
               desc (snd frames)) = Ok (dq2, t2) /\
    final = LinearConfidence.mk
              (Confidence.mk dq1
                 (Confidence._score_column (LinearConfidence.base self))
                 [("psms", t1); ("peptides", t2)]%string)
              (LinearConfidence._target_column self)
              (LinearConfidence._psm_columns self)
              (LinearConfidence._peptide_columns self) /\
    wf_frame (fst frames) /\ wf_frame (snd frames) /\
    columns (snd frames) = columns (fst frames) /\
    (forall c, In c reserved_names -> ~ In c (columns (fst frames))) /\
    Confidence._score_column (LinearConfidence.base self)
      <> LinearConfidence._target_column self.
Proof.
  intros Hwfd Hnew Hout.
  unfold LinearConfidence.__init__ in Hout.
  rewrite outcome_bind, outcome_lift in Hout.
  destruct (LinearConfidence.init_tdc rng1 psms scores) as [self | ] eqn:Hinit;
    [ | discriminate ].
  destruct (linear_init_tdc_Ok rng1 psms scores self Hwfd Hnew Hinit)
    as [Hcols [Hwf [Hscore [Htarget Hest]]]].
  unfold LinearConfidence._assign_confidence in Hout.
  rewrite outcome_bind, outcome_lift in Hout.
  destruct (LinearConfidence.level_frames rng2 self) as [frames | ] eqn:Hframes;
    [ | discriminate ].
  destruct (linear_level_frames_wf rng2 self frames Hwf Hframes)
    as [Hfst [Hsndc Hsndwf]].
  rewrite outcome_bind in Hout.
  destruct (outcome (LinearConfidence.assign_level E self desc (fst frames)))
    as [[dq1 t1] | ] eqn:H1; [ | discriminate ].
  rewrite outcome_bind in Hout. cbn [fst snd] in Hout.
  destruct (outcome (LinearConfidence.assign_level E
               (LinearConfidence.set_base self
                  (Confidence.set_estimate
                     (Confidence.set_data (LinearConfidence.base self) dq1)
                     "psms" t1))
               desc (snd frames)))
    as [[dq2 t2] | ] eqn:H2; [ | discriminate ].
  unfold ret, outcome in Hout. cbn [snd fst] in Hout.
  inversion Hout; subst final; clear Hout.
  destruct Hwfd as [_ [Hnd Hres]]. destruct Hnew as [Hs [Hl Hsl]].
  exists self, frames, dq1, t1, dq2, t2.
  split; [ reflexivity | ]. split; [ exact Hframes | ].
  split; [ exact Hfst | ]. split; [ exact H1 | ].
  split; [ exact H2 | ].
  split.
  { unfold LinearConfidence.set_base, Confidence.set_estimate,
      Confidence.set_data. cbn. rewrite Hest. reflexivity. }
  split; [ now rewrite Hfst | ]. split; [ exact Hsndwf | ].
  split; [ now rewrite Hfst | ].
  split.
  - intros c Hc Hin. rewrite Hfst, Hcols, Hscore, Htarget in Hin.
    apply in_app_or in Hin as [Hin | [Hin | [Hin | []]]].
    + now apply (Hres c).
    + subst c. simpl in Hc. intuition discriminate.
    + subst c. simpl in Hc. intuition discriminate.
  - rewrite Hscore, Htarget. exact Hsl.
Qed.

(** For every successful construction of LinearConfidence from a
    well-formed dataset whose score and label columns are appended under
    new names, each stored table carries the answers of the primitives
    for its frame: the "mokapot PEP" column is the PEP vector the PEP
    primitive returned for the target and decoy scores of the frame,
    laid over the rows of the table in the order returned, and the pairs
    of "mokapot score" and "mokapot q-value" are those of the target rows
    of the frame, each with the q-value [qvalues.tdc] returned at the
    position of that row. *)
Theorem linear_tables_carry_primitive_values (E : Externals)
  (rng1 rng2 : list nat) (psms : PsmDataset.t) (scores : list Z)
  (desc : bool) (final : LinearConfidence.t) :
  well_formed_dataset psms -> appends_new_columns psms ->
  outcome (LinearConfidence.__init__ E rng1 rng2 psms scores desc) = Ok final ->
  exists (self : LinearConfidence.t) (frames : DataFrame * DataFrame)
         (t1 t2 : DataFrame),
    LinearConfidence.init_tdc rng1 psms scores = Ok self /\
    LinearConfidence.level_frames rng2 self = Ok frames /\
    Confidence.__getattr__ (LinearConfidence.base final) "psms" = Ok t1 /\
    Confidence.__getattr__ (LinearConfidence.base final) "peptides" = Ok t2 /\
    table_values_ok E (Confidence._score_column (LinearConfidence.base self))
      (LinearConfidence._target_column self) desc (fst frames) t1 /\
    table_values_ok E (Confidence._score_column (LinearConfidence.base self))
      (LinearConfidence._target_column self) desc (snd frames) t2.
Proof.
  intros Hwfd Hnew Hout.
  destruct (linear_init_passes E rng1 rng2 psms scores desc final Hwfd Hnew Hout)
    as [self [frames [dq1 [t1 [dq2 [t2 [Hinit [Hframes [Hfst [H1 [H2
         [-> [Hwf1 [Hwf2 [Hc2 [Hres Hne]]]]]]]]]]]]]]]].
  exists self, frames, t1, t2.
  split; [ exact Hinit | ]. split; [ exact Hframes | ].
  split; [ reflexivity | ]. split; [ reflexivity | ].
  split.
  - apply (linear_assign_level_table_values E self desc (fst frames) dq1 t1);
      auto.
  - apply (linear_assign_level_table_values E _ desc (snd frames) dq2 t2) in H2;
      auto.
    now rewrite Hc2.
Qed.

(** The sample dataset. *)
Lemma linear_tables_carry_primitive_values_witness :
  exists (final self : LinearConfidence.t) (frames : DataFrame * DataFrame)
         (t1 t2 : DataFrame),
    outcome (LinearConfidence.__init__ sample_externals [3; 1; 4]%nat
               [2; 7]%nat sample_linear sample_scores true) = Ok final /\
    LinearConfidence.init_tdc [3; 1; 4]%nat sample_linear sample_scores
      = Ok self /\
    LinearConfidence.level_frames [2; 7]%nat self = Ok frames /\
    Confidence.__getattr__ (LinearConfidence.base final) "psms" = Ok t1 /\
    Confidence.__getattr__ (LinearConfidence.base final) "peptides" = Ok t2 /\
    table_values_ok sample_externals
      (Confidence._score_column (LinearConfidence.base self))
      (LinearConfidence._target_column self) true (fst frames) t1 /\
    table_values_ok sample_externals
      (Confidence._score_column (LinearConfidence.base self))
      (LinearConfidence._target_column self) true (snd frames) t2.
Proof.
  destruct (outcome (LinearConfidence.__init__ sample_externals [3; 1; 4]%nat
                       [2; 7]%nat sample_linear sample_scores true))
    as [final | e] eqn:Hout; [ | vm_compute in Hout; discriminate Hout ].
  exists final.
  destruct (linear_tables_carry_primitive_values sample_externals
              [3; 1; 4]%nat [2; 7]%nat sample_linear sample_scores true final
              sample_linear_well_formed sample_linear_appends Hout)
    as [self [frames [t1 [t2 H]]]].
  exists self, frames, t1, t2. split; [ reflexivity | exact H ].
Defined.

(** ** The frame the constructor leaves in [_data] *)

Lemma Forall2_zip_rows (P : Row -> Row -> Prop) (f : Row -> Z -> Row)
  (rs : list Row) (vs : list Z) :
  length vs = length rs ->
  (forall r v, In r rs -> P r (f r v)) ->
  Forall2 P rs (zip_rows f rs vs).
Proof.
  revert vs. induction rs as [ | r rs IH ]; intros [ | v vs ] Hlen H;
    simpl in *; try discriminate; constructor.
  - apply H. now left.
  - apply IH; [ lia | ]. intros x w Hx. apply H. now right.
Qed.

(** After a successful construction of LinearConfidence from a
    well-formed dataset, [_data] is the frame the competition on spectra
    left, decoys included, with one more column: "mokapot q-value", which
    holds what [qvalues.tdc] returned for the PSM level.  The index, the
    order of the rows and every other cell are unchanged, and the pass
    over the peptides leaves no trace in it. *)
Theorem linear_data_gains_qvalue_column (E : Externals)
  (rng1 rng2 : list nat) (psms : PsmDataset.t) (scores : list Z)
  (desc : bool) (final : LinearConfidence.t) :
  well_formed_dataset psms -> appends_new_columns psms ->
  outcome (LinearConfidence.__init__ E rng1 rng2 psms scores desc) = Ok final ->
  exists (self : LinearConfidence.t) (qvals : list Z),
    LinearConfidence.init_tdc rng1 psms scores = Ok self /\
    qvalues_tdc E
      (map (fun r => get (Confidence._data (LinearConfidence.base self)) r
                       (Confidence._score_column (LinearConfidence.base self)))
         (rows (Confidence._data (LinearConfidence.base self))))
      (astype_bool
         (map (fun r => get (Confidence._data (LinearConfidence.base self)) r
                          (LinearConfidence._target_column self))
            (rows (Confidence._data (LinearConfidence.base self)))))
      desc = Ok qvals /\
    columns (Confidence._data (LinearConfidence.base final))
    = columns (Confidence._data (LinearConfidence.base self))
      ++ [CStr "mokapot q-value"] /\
    index (Confidence._data (LinearConfidence.base final))
    = index (Confidence._data (LinearConfidence.base self)) /\
    map (fun r => get (Confidence._data (LinearConfidence.base final)) r
                    (CStr "mokapot q-value"))
      (rows (Confidence._data (LinearConfidence.base final))) = qvals /\
    Forall2
      (fun r r' =>
         forall c, In c (columns (Confidence._data (LinearConfidence.base self))) ->
           get (Confidence._data (LinearConfidence.base final)) r' c
           = get (Confidence._data (LinearConfidence.base self)) r c)
      (rows (Confidence._data (LinearConfidence.base self)))
      (rows (Confidence._data (LinearConfidence.base final))) /\
    Confidence._score_column (LinearConfidence.base final)
    = Confidence._score_column (LinearConfidence.base self) /\
    LinearConfidence._target_column final
    = LinearConfidence._target_column self.
Proof.
  intros Hwfd Hnew Hout.
  destruct (linear_init_passes E rng1 rng2 psms scores desc final Hwfd Hnew Hout)
    as [self [frames [dq1 [t1 [dq2 [t2 [Hinit [Hframes [Hfst [H1 [H2
         [-> [Hwf1 [Hwf2 [Hc2 [Hres Hne]]]]]]]]]]]]]]]].
  destruct (linear_assign_level_values E self desc (fst frames) dq1 t1 Hres H1)
    as [qvals [q [pep [pt [_ [_ [Hq0 [_ [Hqlen [-> _]]]]]]]]]].
  rewrite Hfst in *.
  set (D := Confidence._data (LinearConfidence.base self)) in *.
  assert (HQ : ~ In (CStr "mokapot q-value") (columns D))
    by (apply Hres; simpl; auto).
  assert (Hwfr : forall r, In r (rows D) -> length (cells r) = length (columns D)).
  { now apply Forall_forall. }
  exists self, qvals.
  split; [ exact Hinit | ]. split; [ exact Hq0 | ].
  cbn [LinearConfidence.base Confidence._data Confidence._score_column
       LinearConfidence._target_column columns rows].
  split; [ reflexivity | ].
  split.
  { unfold index. cbn [rows]. now apply zip_rows_labels. }
  split.
  { rewrite (zip_rows_map_value _ _ (fun _ v => v)).
    - now apply combine_map_snd.
    - intros r v Hr. rewrite get_lookup. cbn [columns cells].
      apply lookup_app_new; auto. }
  split; [ | split; reflexivity ].
  apply Forall2_zip_rows; [ exact Hqlen | ].
  intros r v Hr c Hc. rewrite !get_lookup. cbn [columns cells].
  apply lookup_app_l; auto.
Qed.

(** The sample dataset. *)
Lemma linear_data_gains_qvalue_column_witness :
  exists (final self : LinearConfidence.t) (qvals : list Z),
    outcome (LinearConfidence.__init__ sample_externals [3; 1; 4]%nat
               [2; 7]%nat sample_linear sample_scores true) = Ok final /\
    LinearConfidence.init_tdc [3; 1; 4]%nat sample_linear sample_scores
      = Ok self /\
    columns (Confidence._data (LinearConfidence.base final))
    = columns (Confidence._data (LinearConfidence.base self))
      ++ [CStr "mokapot q-value"] /\
    index (Confidence._data (LinearConfidence.base final))
    = index (Confidence._data (LinearConfidence.base self)) /\
    map (fun r => get (Confidence._data (LinearConfidence.base final)) r
                    (CStr "mokapot q-value"))
      (rows (Confidence._data (LinearConfidence.base final))) = qvals.
Proof.
  destruct (outcome (LinearConfidence.__init__ sample_externals [3; 1; 4]%nat
                       [2; 7]%nat sample_linear sample_scores true))
    as [final | e] eqn:Hout; [ | vm_compute in Hout; discriminate Hout ].
  exists final.
  destruct (linear_data_gains_qvalue_column sample_externals
              [3; 1; 4]%nat [2; 7]%nat sample_linear sample_scores true final
              sample_linear_well_formed sample_linear_appends Hout)
    as [self [qvals [Hinit [_ [Hc [Hi [Hq _]]]]]]].
  exists self, qvals. split; [ reflexivity | ]. auto.
Defined.

(** ** The curve of [plot_qvalues] *)

Lemma fold_left_max_assoc (t : list Z) (x y : Z) :
  fold_left Z.max t (Z.max x y) = Z.max x (fold_left Z.max t y).
Proof.
  revert x y. induction t as [ | h t IH ]; intros x y; simpl;
    [ reflexivity | ].
  rewrite <- Z.max_assoc. apply IH.
Qed.

Lemma group_max_cons (x y : Z) (t : list Z) :
  group_max (x :: y :: t) = Z.max x (group_max (y :: t)).
Proof. simpl. apply fold_left_max_assoc. Qed.

Lemma cumsum_from_length (a : Z) (l : list Z) :
  length (cumsum_from a l) = length l.
Proof.
  revert a. induction l as [ | x l IH ]; intros a; simpl; [ reflexivity | ].
  now rewrite IH.
Qed.

Lemma filter_key_absent (k : Z) (l vs : list Z) :
  ~ In k l -> filter (fun p : Z * Z => fst p =? k) (combine l vs) = [].
Proof.
  intros H. apply filter_none. intros [q v] Hin. apply in_combine_l in Hin.
  simpl. apply Z.eqb_neq. intros ->. auto.
Qed.

Lemma count_above (k : Z) (l : list Z) :
  (forall q, In q l -> k < q) -> filter (fun q => q <=? k) l = [].
Proof.
  intros H. apply filter_none. intros q Hq. apply Z.leb_gt. auto.
Qed.

(** In a frame sorted by the key and numbered 1, 2, ... from [a + 1], the
    largest number of the rows of a key is [a] plus the number of rows
    whose key is at most that key. *)
Lemma group_max_sorted_count (l : list Z) (a k : Z) :
  0 <= a -> StronglySorted Z.le l -> In k l ->
  group_max
    (map snd
       (filter (fun p : Z * Z => fst p =? k)
          (combine l (cumsum_from a (map (fun _ => 1) l)))))
  = a + Z.of_nat (length (filter (fun q => q <=? k) l)).
Proof.
  revert a. induction l as [ | h t IH ]; intros a Ha Hs Hin; [ destruct Hin | ].
  inversion Hs as [ | ? ? Hst Hh ]; subst. rewrite Forall_forall in Hh.
  cbn [map cumsum_from combine filter fst].
  destruct (Z.eqb_spec h k) as [-> | Hne].
  - replace (k <=? k) with true by (symmetry; apply Z.leb_refl).
    cbn [map snd length].
    destruct (in_dec Z.eq_dec k t) as [Hk | Hk].
    + specialize (IH (a + 1) ltac:(lia) Hst Hk).
      destruct (map snd (filter (fun p : Z * Z => fst p =? k)
                  (combine t (cumsum_from (a + 1) (map (fun _ => 1) t)))))
        as [ | y m ] eqn:Em.
      * simpl in IH. lia.
      * rewrite group_max_cons, IH. lia.
    + rewrite (filter_key_absent k t _ Hk).
      rewrite (count_above k t).
      * simpl. lia.
      * intros q Hq. specialize (Hh q Hq).
        assert (q <> k) by (intros ->; auto). lia.
  - assert (Hk : In k t) by (destruct Hin as [E | Hk]; [ contradiction | exact Hk ]).
    replace (h <=? k) with true
      by (symmetry; apply Z.leb_le; now apply Hh).
    cbn [length]. rewrite (IH (a + 1) ltac:(lia) Hst Hk). lia.
Qed.

Lemma Zleb_total (a b : Z) : (a <=? b) = true \/ (b <=? a) = true.
Proof. rewrite !Z.leb_le. lia. Qed.

Lemma Zleb_trans (a b c : Z) :
  (a <=? b) = true -> (b <=? c) = true -> (a <=? c) = true.
Proof. rewrite !Z.leb_le. lia. Qed.

Lemma stable_sort_Z_sorted (l : list Z) :
  StronglySorted Z.le (stable_sort Z.leb l).
Proof.
  pose proof (stable_sort_sorted Z.leb Zleb_total Zleb_trans l) as H.
  induction H as [ | x t Ht IH Hx ]; constructor; [ exact IH | ].
  eapply Forall_impl; [ | exact Hx ]. intros q Hq. now apply Z.leb_le.
Qed.

Lemma sorted_nodup_strict (l : list Z) :
  StronglySorted Z.le l -> NoDup l -> StronglySorted Z.lt l.
Proof.
  induction 1 as [ | x t Ht IH Hx ]; intros Hnd; constructor.
  - apply IH. now inversion Hnd.
  - inversion Hnd as [ | ? ? Hnin _ ]; subst.
    rewrite Forall_forall in *. intros q Hq. specialize (Hx q Hq).
    assert (q <> x) by (intros ->; auto). lia.
Qed.

Lemma filter_length_perm {A} (p : A -> bool) (l l' : list A) :
  Permutation l l' -> length (filter p l) = length (filter p l').
Proof.
  induction 1 as [ | x l l' _ IH | x y l | l l' l'' _ IH1 _ IH2 ]; simpl.
  - reflexivity.
  - destruct (p x); simpl; now rewrite IH.
  - destruct (p x), (p y); reflexivity.
  - congruence.
Qed.

Lemma filter_map_length {A B} (p : B -> bool) (f : A -> B) (l : list A) :
  length (filter p (map f l)) = length (filter (fun a => p (f a)) l).
Proof.
  induction l as [ | a l IH ]; simpl; [ reflexivity | ].
  destruct (p (f a)); simpl; now rewrite IH.
Qed.

Lemma filter_every {A} (f : A -> bool) (l : list A) :
  (forall a, In a l -> f a = true) -> filter f l = l.
Proof.
  induction l as [ | x l IH ]; simpl; intros H; [ reflexivity | ].
  rewrite (H x) by now left. f_equal. apply IH. intros a Ha. apply H. now right.
Qed.

Lemma strict_sorted_last (l : list Z) (d : Z) :
  StronglySorted Z.lt l -> forall q, In q l -> q <= last l d.
Proof.
  induction 1 as [ | x t Ht IH Hx ]; intros q Hin; [ destruct Hin | ].
  rewrite Forall_forall in Hx.
  destruct t as [ | y t' ].
  - destruct Hin as [<- | []]. simpl. lia.
  - change (last (x :: y :: t') d) with (last (y :: t') d).
    destruct Hin as [<- | Hin]; [ | now apply IH ].
    assert (x < y) by (apply Hx; now left).
    assert (y <= last (y :: t') d) by (apply IH; now left). lia.
Qed.

Lemma last_map_cons {A B} (f : A -> B) (l : list A) (x : B) (d : A) (d' : B) :
  l <> [] -> last (x :: map f l) d' = f (last l d).
Proof.
  intros Hne. revert x. induction l as [ | a l IH ]; intros x; [ contradiction | ].
  destruct l as [ | b l' ]; [ reflexivity | ].
  specialize (IH ltac:(discriminate) (f a)).
  change (last (a :: b :: l') d) with (last (b :: l') d).
  rewrite <- IH. reflexivity.
Qed.

(** The keys and the numbers of the grouped frame of [plot_qvalues]. *)
Lemma plot_grouped_spec (table : DataFrame) :
  let qvals := map (fun r => get table r (CStr "mokapot q-value")) (rows table) in
  let sorted := stable_sort Z.leb qvals in
  let ks := stable_sort Z.leb (nodup Z.eq_dec sorted) in
  groupby_key_max (combine sorted (cumsum (map (fun _ => 1) sorted)))
  = map (fun k => (k, accepted_at table k)) ks /\
  StronglySorted Z.lt ks /\
  (forall q, In q ks <->
     exists r, In r (rows table) /\ get table r (CStr "mokapot q-value") = q).
Proof.
  intros qvals sorted ks.
  assert (Hperm : Permutation sorted qvals) by apply stable_sort_perm.
  assert (Hks : forall q, In q ks <-> In q sorted).
  { intros q. unfold ks. split; intros H.
    - apply (Permutation_in q (stable_sort_perm _ _)) in H.
      now apply nodup_In in H.
    - apply (Permutation_in q (Permutation_sym (stable_sort_perm _ _))).
      now apply nodup_In. }
  split; [ | split ].
  - unfold groupby_key_max.
    rewrite combine_map_fst
      by (unfold cumsum; now rewrite cumsum_from_length, length_map).
    fold ks. apply map_ext_in. intros k Hk. f_equal.
    unfold cumsum.
    rewrite (group_max_sorted_count sorted 0 k).
    + unfold accepted_at. rewrite Z.add_0_l. f_equal.
      rewrite (filter_length_perm _ sorted qvals Hperm).
      unfold qvals. apply filter_map_length.
    + lia.
    + apply stable_sort_Z_sorted.
    + now apply Hks.
  - apply sorted_nodup_strict; [ apply stable_sort_Z_sorted | ].
    apply (Permutation_NoDup (Permutation_sym (stable_sort_perm _ _))).
    apply NoDup_nodup.
  - intros q. rewrite Hks. split.
    + intros H. apply (Permutation_in q Hperm) in H.
      unfold qvals in H. apply in_map_iff in H as [r [E Hr]]. eauto.
    + intros [r [Hr E]].
      apply (Permutation_in q (Permutation_sym Hperm)).
      unfold qvals. apply in_map_iff. eauto.
Qed.

Lemma dict_get_In_keys {V} (k : string) (d : list (string * V)) :
  (exists v, dict_get k d = Some v) <-> In k (map fst d).
Proof.
  induction d as [ | [k' v] d IH ]; simpl.
  - split; [ intros [v H]; discriminate | easy ].
  - destruct (String.eqb_spec k' k) as [-> | Hne].
    + split; [ auto | eauto ].
    + rewrite IH. split; [ auto | intros [H | H]; [ congruence | exact H ] ].
Qed.

Lemma getattr_dict_get (self : Confidence.t) (level : string)
  (table : DataFrame) :
  Confidence.__getattr__ self level = Ok table <->
  dict_get level (Confidence._confidence_estimates self) = Some table.
Proof.
  unfold Confidence.__getattr__.
  destruct (dict_get level _); split; intros H; inversion H; reflexivity.
Qed.

(** [plot_qvalues] once the axes are accepted and the table is found with
    its q-value column. *)
Lemma plot_qvalues_found (self : Confidence.t) (level : string) (ax : ax_arg)
  (table : DataFrame) :
  ax <> AxOther ->
  dict_get level (Confidence._confidence_estimates self) = Some table ->
  In (CStr "mokapot q-value") (columns table) ->
  plot_qvalues self level ax =
  match stable_sort Z.leb
          (nodup Z.eq_dec
             (stable_sort Z.leb
                (map (fun r => get table r (CStr "mokapot q-value"))
                   (rows table)))) with
  | [] => Err KeyError
  | k :: ks =>
      match dict_get level Confidence._level_labs with
      | Some _ => Ok (k :: k :: ks, 0 :: map (accepted_at table) (k :: ks))
      | None => Err KeyError
      end
  end.
Proof.
  intros Hax Hget Hcol. unfold plot_qvalues.
  replace (match ax with AxOther => Err ValueError | _ => Ok tt end)
    with (@Ok unit tt) by (destruct ax; [ reflexivity | reflexivity | contradiction ]).
  cbn [rbind]. rewrite Hget. cbn [rbind].
  unfold column_values, require_cols. cbn [forallb].
  rewrite (proj2 (has_col_In table _) Hcol). cbn [andb rbind].
  destruct (plot_grouped_spec table) as [Hg _]. cbv zeta in Hg. rewrite Hg.
  destruct (stable_sort Z.leb (nodup Z.eq_dec _)) as [ | k ks ];
    [ reflexivity | ].
  cbn [map rbind]. destruct (dict_get level Confidence._level_labs);
    [ | reflexivity ].
  cbn [rbind map fst snd]. rewrite !map_map. cbn [fst snd].
  rewrite map_id. reflexivity.
Qed.

(** [plot_qvalues] when the level is not stored, or its table has no
    q-value column. *)
Lemma plot_qvalues_not_found (self : Confidence.t) (level : string)
  (ax : ax_arg) :
  dict_get level (Confidence._confidence_estimates self) = None \/
  (exists table,
     dict_get level (Confidence._confidence_estimates self) = Some table /\
     has_col table (CStr "mokapot q-value") = false) ->
  plot_qvalues self level ax =
  match ax with
  | AxOther => Err ValueError
  | _ => Err KeyError
  end.
Proof.
  intros [Hget | [table [Hget Hcol]]]; unfold plot_qvalues; rewrite Hget.
  - now destruct ax.
  - destruct ax; cbn [rbind]; try reflexivity;
      unfold column_values, require_cols; cbn [forallb];
      rewrite Hcol; reflexivity.
Qed.

(** [plot_qvalues] draws a curve exactly when [ax] is absent or an Axes,
    the level is stored, its table has the q-value column and at least
    one row, and the level has a label in [_level_labs]. *)
Theorem plot_qvalues_succeeds_iff (self : Confidence.t) (level : string)
  (ax : ax_arg) :
  (exists curve, plot_qvalues self level ax = Ok curve) <->
  ax <> AxOther /\
  (exists table,
     Confidence.__getattr__ self level = Ok table /\
     In (CStr "mokapot q-value") (columns table) /\
     (0 < nrows table)%nat) /\
  In level (map fst Confidence._level_labs).
Proof.
  split.
  - intros [curve H].
    assert (Hax : ax <> AxOther) by (intros ->; discriminate H).
    destruct (dict_get level (Confidence._confidence_estimates self))
      as [table | ] eqn:Hget.
    2:{ rewrite (plot_qvalues_not_found self level ax) in H by auto.
        now destruct ax. }
    destruct (has_col table (CStr "mokapot q-value")) eqn:Hcol.
    2:{ rewrite (plot_qvalues_not_found self level ax) in H by eauto.
        now destruct ax. }
    apply has_col_In in Hcol.
    rewrite (plot_qvalues_found self level ax table Hax Hget Hcol) in H.
    destruct (stable_sort Z.leb (nodup Z.eq_dec _)) as [ | k ks ] eqn:Hks;
      [ discriminate H | ].
    destruct (dict_get level Confidence._level_labs) as [lab | ] eqn:Hlab;
      [ | discriminate H ].
    split; [ exact Hax | ]. split.
    + exists table. split; [ now apply getattr_dict_get | ].
      split; [ exact Hcol | ].
      destruct (plot_grouped_spec table) as [_ [_ Hin]]. cbv zeta in Hin.
      rewrite Hks in Hin.
      destruct (proj1 (Hin k) (or_introl eq_refl)) as [r [Hr _]].
      unfold nrows. destruct (rows table); [ destruct Hr | simpl; lia ].
    + apply dict_get_In_keys. eauto.
  - intros [Hax [[table [Hget [Hcol Hn]]] Hlab]].
    apply getattr_dict_get in Hget.
    rewrite (plot_qvalues_found self level ax table Hax Hget Hcol).
    destruct (plot_grouped_spec table) as [_ [_ Hin]]. cbv zeta in Hin.
    destruct (stable_sort Z.leb (nodup Z.eq_dec _)) as [ | k ks ].
    + exfalso. unfold nrows in Hn.
      destruct (rows table) as [ | r rs ]; [ simpl in Hn; lia | ].
      apply (proj2 (Hin (get table r (CStr "mokapot q-value")))).
      exists r. split; [ now left | reflexivity ].
    + apply dict_get_In_keys in Hlab as [lab ->]. eauto.
Qed.

(** When [plot_qvalues] fails, it is with ValueError for an [ax] that is
    not an Axes, whatever the level, and with KeyError in every other
    case: an unknown level, a table without the q-value column, a table
    without rows, or a level without a label. *)
Theorem plot_qvalues_errors (self : Confidence.t) (level : string)
  (ax : ax_arg) (e : exn) :
  plot_qvalues self level ax = Err e ->
  (ax = AxOther /\ e = ValueError) \/ (ax <> AxOther /\ e = KeyError).
Proof.
  intros H. destruct ax.
  3:{ left. split; [ reflexivity | ]. unfold plot_qvalues in H. cbn in H.
      now inversion H. }
  all: right; split; [ discriminate | ].
  all: unfold plot_qvalues in H; cbn [rbind] in H.
  all: destruct (dict_get level (Confidence._confidence_estimates self));
    [ | now inversion H ].
  all: cbn [rbind] in H; unfold column_values, require_cols in H.
  all: destruct (forallb _ _); [ | now inversion H ].
  all: cbn [rbind] in H; cbv zeta in H.
  all: destruct (groupby_key_max _) as [ | [q n] g ]; [ now inversion H | ].
  all: cbn [rbind] in H.
  all: destruct (dict_get level Confidence._level_labs); [ | now inversion H ].
  all: discriminate H.
Qed.

(** The level "peptides" of the sample store has a table without rows. *)
Lemma plot_qvalues_errors_witness :
  plot_qvalues sample_plot_store "peptides" AxAxes = Err KeyError /\
  ((AxAxes = AxOther /\ KeyError = ValueError) \/
   (AxAxes <> AxOther /\ KeyError = KeyError)).
Proof.
  split; [ reflexivity | ].
  apply (plot_qvalues_errors sample_plot_store "peptides" AxAxes KeyError).
  reflexivity.
Defined.

(** The curve [plot_qvalues] hands to [ax.step]: the x values are the
    distinct q-values of the table in increasing order, preceded by the
    smallest of them once more; the y values are 0 and then, for each
    q-value, the number of rows of the table whose q-value is at most
    that value.  The curve ends at the number of rows of the table. *)
Theorem plot_qvalues_curve (self : Confidence.t) (level : string)
  (ax : ax_arg) (table : DataFrame) (xs ys : list Z) :
  Confidence.__getattr__ self level = Ok table ->
  plot_qvalues self level ax = Ok (xs, ys) ->
  exists ks,
    xs = hd 0 ks :: ks /\
    ys = 0 :: map (accepted_at table) ks /\
    ks <> [] /\
    StronglySorted Z.lt ks /\
    (forall q, In q ks <->
       exists r, In r (rows table) /\
                 get table r (CStr "mokapot q-value") = q) /\
    last ys 0 = Z.of_nat (nrows table).
Proof.
  intros Hget H. apply getattr_dict_get in Hget.
  assert (Hax : ax <> AxOther) by (intros ->; discriminate H).
  destruct (has_col table (CStr "mokapot q-value")) eqn:Hcol.
  2:{ rewrite (plot_qvalues_not_found self level ax) in H by eauto.
      now destruct ax. }
  apply has_col_In in Hcol.
  rewrite (plot_qvalues_found self level ax table Hax Hget Hcol) in H.
  destruct (plot_grouped_spec table) as [_ [Hs Hin]]. cbv zeta in Hs, Hin.
  destruct (stable_sort Z.leb (nodup Z.eq_dec _)) as [ | k ks ];
    [ discriminate H | ].
  destruct (dict_get level Confidence._level_labs); [ | discriminate H ].
  injection H as Hx Hy. subst xs ys.
  exists (k :: ks).
  split; [ reflexivity | ]. split; [ reflexivity | ].
  split; [ discriminate | ]. split; [ exact Hs | ]. split; [ exact Hin | ].
  change (0 :: accepted_at table k :: map (accepted_at table) ks)
    with (0 :: map (accepted_at table) (k :: ks)).
  rewrite (last_map_cons (accepted_at table) (k :: ks) 0 0 0) by discriminate.
  unfold accepted_at, nrows. f_equal. f_equal.
  rewrite filter_every; [ reflexivity | ].
  intros r Hr. apply Z.leb_le.
  apply (strict_sorted_last (k :: ks) 0 Hs). apply Hin. eauto.
Qed.

(** The level "psms" of the sample store, with the q-values 3, 1, 3, 2. *)
Lemma plot_qvalues_curve_witness :
  plot_qvalues sample_plot_store "psms" AxNone
    = Ok ([1; 1; 2; 3], [0; 1; 2; 4]) /\
  exists ks,
    [1; 1; 2; 3] = hd 0 ks :: ks /\
    [0; 1; 2; 4] = 0 :: map (accepted_at sample_result_table) ks /\
    StronglySorted Z.lt ks /\
    last [0; 1; 2; 4] 0 = Z.of_nat (nrows sample_result_table).
Proof.
  split; [ reflexivity | ].
  destruct (plot_qvalues_curve sample_plot_store "psms" AxNone
              sample_result_table [1; 1; 2; 3] [0; 1; 2; 4]
              eq_refl eq_refl)
    as [ks [Hx [Hy [_ [Hs [_ Hl]]]]]].
  exists ks. auto.
Defined.
